(** * Adapter fine-tuning script: a shallow embedding of [finetune/adapter.py]

    The script fine-tunes adapter weights of a frozen language model.  The
    embedding follows the script top to bottom: the module-level
    hyperparameters, [loss_fn], [get_batch], [save_adapter_checkpoint],
    [validate], [train], [main] and [setup].

    Effects.  The functions that touch the model, the optimizer, the random
    generator or the disk run in a state-and-exception monad over a [world];
    every call that leaves the script (printing, forward and backward passes,
    optimizer calls, checkpoints) is appended to the world's [trace].  What
    the script imports (torch, Lightning, the model, the tokenizer, the
    decoder, the adapter filter, the FLOP counters) is the class
    [Collaborators].

    Numbers.  A Python float is the rational it denotes ([Qc]).  The learning
    rate is computed as the script computes it, in binary64: its literal is
    rounded, and so are the product and the quotient of the warmup block
    ([fl], rounding to nearest with ties to even on 53 bits; the exponent range
    is not bounded, so overflow and subnormal numbers are left out).  The
    quotients of the module level, which only a floor reads, are exact;
    logits and losses are real numbers ([R]) with an explicit [NaN].  The
    warmup expression is also given on the machine's binary64 numbers
    ([Binary64]), to check [fl] against them.  Python integers are [Z]; [//]
    is [Z.div] and [%] is [Z.modulo], which round and sign like Python's for
    every divisor but 0, where Python raises [ZeroDivisionError]. *)

From Stdlib Require Import ZArith QArith Qcanon Qround Qpower Reals Lra Lia List.
From Stdlib Require PrimFloat Uint63 FloatOps SpecFloat Lqa.
From stdpp Require Import gmap strings list pretty.

(** ** Python exceptions and fallible pure code *)

Inductive exn :=
| ZeroDivisionError
| AssertionError
| ValueError
| RuntimeError
| IndexError.

Inductive result (A : Type) :=
| Done (a : A)
| Fail (e : exn).
Arguments Done {A} a.
Arguments Fail {A} e.

Definition result_bind {A B} (r : result A) (k : A → result B) : result B :=
  match r with
  | Done a => k a
  | Fail e => Fail e
  end.

Definition Z2Qc (z : Z) : Qc := Q2Qc (inject_Z z).

(** ** Binary64 *)

(** The integer nearest to [q]; of two that are as near, the even one. *)
Definition round_half_even (q : Q) : Z :=
  let f := Qfloor q in
  match (q - inject_Z f ?= 1 # 2)%Q with
  | Lt => f
  | Eq => if Z.even f then f else (f + 1)%Z
  | Gt => (f + 1)%Z
  end.

(** The binade of a positive [q]: the [e] with [2 ^ e <= q < 2 ^ (e + 1)]. *)
Definition Qlog2 (q : Q) : Z :=
  let d := (Z.log2 (Qnum q) - Z.log2 (Z.pos (Qden q)))%Z in
  if Qle_bool (2 ^ d) q then d else (d - 1)%Z.

(** A positive [q] on 53 significant bits. *)
Definition round_positive (q : Q) : Q :=
  let e := (Qlog2 q - 52)%Z in
  (inject_Z (round_half_even (q / 2 ^ e)) * 2 ^ e)%Q.

(** [q] on 53 significant bits: the nearest such number, the one of even
    significand when two are as near.  The exponent is not bounded: a number
    of magnitude [2 ^ 1024] or more, which the machine turns into an infinity,
    or below [2 ^ -1022], which it holds on fewer bits, is rounded like any
    other. *)
Definition binary64 (q : Q) : Q :=
  match (q ?= 0)%Q with
  | Eq => 0%Q
  | Gt => round_positive q
  | Lt => (- round_positive (- q))%Q
  end.

(** The float nearest to [x]: what an operation of exact result [x] returns. *)
Definition fl (x : Qc) : Qc := Q2Qc (binary64 (this x)).
Global Arguments fl : simpl never.

(** A float literal of the source. *)
Definition literal (q : Q) : Qc := fl (Q2Qc q).
Global Arguments literal : simpl never.

(** Half a unit in the last place of 1: the relative error of one rounding. *)
Definition half_ulp : Qc := Q2Qc (1 # 2 ^ 53).

(** [a * b] on a Python float and an int; the int is taken as it is, its
    conversion to a float being exact up to [2 ^ 53]. *)
Definition py_float_mul (a : Qc) (b : Z) : Qc := fl (a * Z2Qc b).

(** [a / b] on a Python float and an int. *)
Definition py_float_truediv (a : Qc) (b : Z) : result Qc :=
  if bool_decide (b = 0%Z) then Fail ZeroDivisionError else Done (fl (a / Z2Qc b)).

(** [a / b] on a Python float and an int, the quotient kept exact. *)
Definition py_truediv (a : Qc) (b : Z) : result Qc :=
  if bool_decide (b = 0%Z) then Fail ZeroDivisionError else Done (a / Z2Qc b)%Qc.

(** [a // b] on a Python float and an int: the floor of the quotient. *)
Definition py_float_floordiv (a : Qc) (b : Z) : result Z :=
  if bool_decide (b = 0%Z) then Fail ZeroDivisionError
  else Done (Qfloor (this (a / Z2Qc b)%Qc)).

(** [a // b] on Python ints. *)
Definition py_floordiv (a b : Z) : result Z :=
  if bool_decide (b = 0%Z) then Fail ZeroDivisionError else Done (a `div` b)%Z.

(** [a % b] on Python ints. *)
Definition py_mod (a b : Z) : result Z :=
  if bool_decide (b = 0%Z) then Fail ZeroDivisionError else Done (a `mod` b)%Z.

(** ** Hyperparameters (module level, lines 26-42) *)

(** The literals a user edits at the top of the script. *)
Module Constants.
Record t := {
  eval_interval : Z;
  save_interval : Z;
  eval_iters : Z;
  log_interval : Z;
  devices : Z;
  learning_rate : Qc;
  micro_batch_size : Z;
  epoch_size : Z;
  num_epochs : Z;
  weight_decay : Qc
}.
End Constants.

(** The module namespace once the top of the script has run. *)
Record hparams := {
  eval_interval : Z;
  save_interval : Z;
  eval_iters : Z;
  log_interval : Z;
  devices : Z;
  learning_rate : Qc;
  batch_size : Qc;
  micro_batch_size : Z;
  gradient_accumulation_iters : Z;
  epoch_size : Z;
  num_epochs : Z;
  max_iters : Z;
  weight_decay : Qc;
  warmup_iters : Z
}.

(** Lines 33-42, statement by statement. *)
Definition module_init (c : Constants.t) : result hparams :=
  result_bind (py_truediv (Z2Qc 64) (Constants.devices c)) (λ batch_size,
  result_bind (py_float_floordiv batch_size (Constants.micro_batch_size c))
    (λ gradient_accumulation_iters,
  if negb (0 <? gradient_accumulation_iters)%Z then Fail AssertionError else
  result_bind (py_floordiv (Constants.epoch_size c) (Constants.micro_batch_size c))
    (λ per_epoch,
  result_bind (py_floordiv (Constants.num_epochs c * per_epoch) (Constants.devices c))
    (λ max_iters,
  result_bind (py_floordiv (2 * per_epoch) (Constants.devices c))
    (λ warmup_iters,
  Done {| eval_interval := Constants.eval_interval c;
          save_interval := Constants.save_interval c;
          eval_iters := Constants.eval_iters c;
          log_interval := Constants.log_interval c;
          devices := Constants.devices c;
          learning_rate := Constants.learning_rate c;
          batch_size := batch_size;
          micro_batch_size := Constants.micro_batch_size c;
          gradient_accumulation_iters := gradient_accumulation_iters;
          epoch_size := Constants.epoch_size c;
          num_epochs := Constants.num_epochs c;
          max_iters := max_iters;
          weight_decay := Constants.weight_decay c;
          warmup_iters := warmup_iters |}))))).

(** The literals as they stand in the repository. *)
Definition repo_constants : Constants.t :=
  {| Constants.eval_interval := 60;
     Constants.save_interval := 10;
     Constants.eval_iters := 100;
     Constants.log_interval := 1;
     Constants.devices := 1;
     Constants.learning_rate := literal (9 # 1000);
     Constants.micro_batch_size := 4;
     Constants.epoch_size := 50000;
     Constants.num_epochs := 5;
     Constants.weight_decay := literal (2 # 100) |}.

(** The namespace those literals produce: 16 accumulation iterations, 62500
    iterations in all, 25000 warmup steps. *)
Definition repo_hparams : hparams :=
  {| eval_interval := 60;
     save_interval := 10;
     eval_iters := 100;
     log_interval := 1;
     devices := 1;
     learning_rate := literal (9 # 1000);
     batch_size := Z2Qc 64;
     micro_batch_size := 4;
     gradient_accumulation_iters := 16;
     epoch_size := 50000;
     num_epochs := 5;
     max_iters := 62500;
     weight_decay := literal (2 # 100);
     warmup_iters := 25000 |}.

(** ** Tensors *)

Inductive device :=
| cpu
| cuda
| mps
| xla.

Global Instance device_eq_dec : EqDecision device.
Proof. solve_decision. Defined.

(** A loss value: a real number, or the not-a-number that the mean of no
    values is. *)
Inductive scalar :=
| Finite (r : R)
| NaN.

(** A 2-D integer tensor and the device that holds it. *)
Record int_tensor := {
  rows : list (list Z);
  placed_on : device
}.

(** [t] has shape [(b, s)]. *)
Definition shape2 {A} (b s : nat) (t : list (list A)) : Prop :=
  length t = b ∧ Forall (λ r, length r = s) t.

(** [t] has shape [(b, s, v)]. *)
Definition shape3 {A} (b s v : nat) (t : list (list (list A))) : Prop :=
  length t = b ∧ Forall (shape2 s v) t.

(** ** [loss_fn] (lines 236-241) *)

Definition Rsum (l : list R) : R := fold_right Rplus 0%R l.

(** Negative log-likelihood of class [t] under the softmax of [row]. *)
Definition nll (row : list R) (t : nat) : R :=
  (ln (Rsum (map exp row)) - nth t row 0)%R.

(** The per-position terms of [torch.nn.functional.cross_entropy]: a target
    equal to [ignore_index] is skipped, any other target has to be a class
    index. *)
Fixpoint ce_terms (ignore_index : Z) (logits : list (list R)) (targets : list Z)
  : result (list R) :=
  match logits, targets with
  | row :: logits', t :: targets' =>
      if bool_decide (t = ignore_index) then ce_terms ignore_index logits' targets'
      else if bool_decide (0 ≤ t < Z.of_nat (length row))%Z then
        result_bind (ce_terms ignore_index logits' targets')
          (λ rest, Done (nll row (Z.to_nat t) :: rest))
      else Fail IndexError
  | _, _ => Done []
  end.

(** Mean reduction: the mean of no terms is not a number. *)
Definition mean (terms : list R) : scalar :=
  match terms with
  | [] => NaN
  | _ => Finite (Rsum terms / INR (length terms))
  end.

(** [cross_entropy(input, target, ignore_index=...)] on an [(N, C)] input and
    an [(N)] target, with the default mean reduction. *)
Definition cross_entropy (logits : list (list R)) (targets : list Z) (ignore_index : Z)
  : result scalar :=
  if bool_decide (length logits = length targets) then
    result_bind (ce_terms ignore_index logits targets) (λ terms, Done (mean terms))
  else Fail ValueError.

(** The slice [x[:-1]] along one axis. *)
Definition all_but_last {A} (x : list A) : list A := take (length x - 1) x.

Definition loss_fn (logits : list (list (list R))) (targets : list (list Z))
  : result scalar :=
  (* shift the targets such that output n predicts token n+1 *)
  let logits := map all_but_last logits in  (* logits[..., :-1, :] *)
  let targets := map (drop 1) targets in  (* targets[..., 1:] *)
  cross_entropy (concat logits) (concat targets) (-1).

(** ** The dataset and the batch sampler's pure parts (lines 244-265) *)

Record example := {
  input_ids : list Z;
  labels : list Z
}.

Fixpoint result_mapM {A B} (f : A → result B) (l : list A) : result (list B) :=
  match l with
  | [] => Done []
  | a :: l' =>
      result_bind (f a) (λ b, result_bind (result_mapM f l') (λ bs, Done (b :: bs)))
  end.

(** [data[i]] for an index drawn by [torch.randint]. *)
Definition getitem (data : list example) (i : nat) : result example :=
  match data !! i with
  | Some e => Done e
  | None => Fail IndexError
  end.

(** [max(len(s) for s in seqs)]: Python's [max] of an empty sequence raises. *)
Definition max_length (seqs : list (list Z)) : result Z :=
  match seqs with
  | [] => Fail ValueError
  | _ => Done (Z.of_nat (foldr Nat.max 0 (length <$> seqs)))
  end.

(** The closure [pad_right]: [torch.full((n,), ...)] refuses a negative [n]. *)
Definition pad_right (max_len : Z) (x : list Z) (pad_id : Z) : result (list Z) :=
  (* pad right based on the longest sequence *)
  let n := (max_len - Z.of_nat (length x))%Z in
  if bool_decide (n < 0)%Z then Fail RuntimeError
  else Done (x ++ replicate (Z.to_nat n) pad_id).

(** [torch.stack]: at least one tensor, all of one size. *)
Definition stack (ts : list (list Z)) : result (list (list Z)) :=
  match ts with
  | [] => Fail RuntimeError
  | t :: ts' =>
      if forallb (λ r, Nat.eqb (length r) (length t)) ts' then Done ts
      else Fail RuntimeError
  end.

(** Lines 247-258 of [get_batch], once the indices [ix] are drawn. *)
Definition collate (on_xla : bool) (data : list example) (max_seq_length : Z)
    (ix : list nat) : result (list (list Z) * list (list Z)) :=
  result_bind (result_mapM (getitem data) ix) (λ picked,
  let input_ids := input_ids <$> picked in
  let labels := labels <$> picked in
  result_bind (if negb on_xla then max_length input_ids else Done max_seq_length)
    (λ max_len,
  result_bind (result_mapM (λ x, pad_right max_len x 0) input_ids) (λ xs,
  result_bind (stack xs) (λ x,
  result_bind (result_mapM (λ x, pad_right max_len x (-1)) labels) (λ ys,
  result_bind (stack ys) (λ y,
  Done (x, y))))))).

(** ** Checkpoint names *)

(** The format [{n:06d}]. *)
Definition format_06d (n : Z) : string :=
  let digits := pretty (Z.abs n) in
  if bool_decide (n < 0)%Z
  then "-" +:+ String.concat "" (replicate (5 - String.length digits) "0") +:+ digits
  else String.concat "" (replicate (6 - String.length digits) "0") +:+ digits.

(** [dir / name] on paths. *)
Definition path_join (dir name : string) : string := dir +:+ "/" +:+ name.

Definition iter_checkpoint_path (out_dir : string) (iter_num : Z) : string :=
  path_join out_dir ("iter-" +:+ format_06d iter_num +:+ "-ckpt.pth").

Definition final_checkpoint_path (out_dir : string) : string :=
  path_join out_dir "lit_model_adapter_finetuned.pth".

(** ** What the script observes and changes *)

Abbreviation state_dict := (gmap string (list Qc)).

(** One [fabric.backward(loss / divisor)] since the last [zero_grad]: the
    micro-batch whose loss was differentiated. *)
Record micro_grad := {
  g_input : list (list Z);
  g_targets : list (list Z);
  g_divisor : Z
}.

Inductive log_line :=
| HparamsLine
| LoadingModelLine
| TrainableParametersLine (num_params : nat)
| ValidatingLine
| TextLine (text : string)
| EstimatedFlopsLine
| MeasuredFlopsLine
| IterLine (iter_num step_count : Z) (loss : scalar) (stepped : bool)
| ValLossLine (iter_num : Z) (val_loss : scalar)
| SavingLine (path : string)
| TrainingTimeLine.

Inductive event :=
| Printed (line : log_line)
| LrSet (lr : Qc)
| ForwardPass (with_grad : bool) (input : list (list Z))
| BackwardPass (no_sync : bool) (divisor : Z)
| OptimizerStep (lr : Qc) (accumulated : nat)
| ZeroGrad
| MarkStep
| Barrier
| TrainBatchEnd (samples : Z)
| EvalEnd
| MeasureFlops (input_size : nat)
| Generated (max_returned_tokens : Z)
| Saved (path : string).

Record Fabric := {
  device_type : device;
  strategy_is_fsdp : bool;
  world_size : Z;
  global_rank : Z
}.

(** The libraries and the rest of the repository, as far as the script calls
    them: torch's random generators (one state for all of them), the model's
    configuration and forward pass, the AdamW moments, the tokenizer, the
    prompt template, the decoder and the adapter filter. *)
Class Collaborators := {
  rng_state : Type;
  seed_everything : Z → rng_state;
  (** [torch.randint(high, (size,))] *)
  randint : nat → nat → rng_state → list nat * rng_state;
  (** [model(input_ids)] *)
  forward : state_dict → list (list Z) → list (list (list R));
  (** [model.config.block_size] *)
  block_size : Z;
  (** [generate(model, idx, max_returned_tokens, max_seq_length, temperature)] *)
  generate : state_dict → list Z → Z → Z → Qc → rng_state → list Z * rng_state;
  encode : string → list Z;
  decode : list Z → string;
  generate_prompt : string → string → string;
  (** [adapter_filter(key, value)], a test on the parameter's name *)
  adapter_filter : string → bool;
  (** the flag [mark_only_adapter_as_trainable] leaves on each parameter *)
  requires_grad : string → bool;
  moments : Type;
  fresh_moments : moments;
  (** AdamW's running averages after one more step *)
  adamw_moments : moments → state_dict → list micro_grad → moments;
  (** AdamW's bias-corrected ratio of the averages, per parameter entry *)
  adamw_direction : moments → string → nat → Qc
}.

Section Script.
Context `{Collaborators}.

(** Everything the script reads and writes: the generator, the model, the
    gradients accumulated since the last reset, the optimizer, the files
    written, and the calls made so far. *)
Record world := {
  rng : rng_state;
  model_state : state_dict;
  model_training : bool;
  grad_enabled : bool;
  grads : list micro_grad;
  optimizer_moments : moments;
  optimizer_lr : Qc;
  files : gmap string state_dict;
  trace : list event
}.

Definition set_rng (r : rng_state) (w : world) : world :=
  {| rng := r; model_state := model_state w; model_training := model_training w;
     grad_enabled := grad_enabled w; grads := grads w;
     optimizer_moments := optimizer_moments w; optimizer_lr := optimizer_lr w;
     files := files w; trace := trace w |}.

Definition set_model_state (s : state_dict) (w : world) : world :=
  {| rng := rng w; model_state := s; model_training := model_training w;
     grad_enabled := grad_enabled w; grads := grads w;
     optimizer_moments := optimizer_moments w; optimizer_lr := optimizer_lr w;
     files := files w; trace := trace w |}.

Definition set_model_training (b : bool) (w : world) : world :=
  {| rng := rng w; model_state := model_state w; model_training := b;
     grad_enabled := grad_enabled w; grads := grads w;
     optimizer_moments := optimizer_moments w; optimizer_lr := optimizer_lr w;
     files := files w; trace := trace w |}.

Definition set_grad_enabled (b : bool) (w : world) : world :=
  {| rng := rng w; model_state := model_state w; model_training := model_training w;
     grad_enabled := b; grads := grads w;
     optimizer_moments := optimizer_moments w; optimizer_lr := optimizer_lr w;
     files := files w; trace := trace w |}.

Definition set_grads (g : list micro_grad) (w : world) : world :=
  {| rng := rng w; model_state := model_state w; model_training := model_training w;
     grad_enabled := grad_enabled w; grads := g;
     optimizer_moments := optimizer_moments w; optimizer_lr := optimizer_lr w;
     files := files w; trace := trace w |}.

Definition set_optimizer_moments (m : moments) (w : world) : world :=
  {| rng := rng w; model_state := model_state w; model_training := model_training w;
     grad_enabled := grad_enabled w; grads := grads w;
     optimizer_moments := m; optimizer_lr := optimizer_lr w;
     files := files w; trace := trace w |}.

Definition set_optimizer_lr (lr : Qc) (w : world) : world :=
  {| rng := rng w; model_state := model_state w; model_training := model_training w;
     grad_enabled := grad_enabled w; grads := grads w;
     optimizer_moments := optimizer_moments w; optimizer_lr := lr;
     files := files w; trace := trace w |}.

Definition set_files (f : gmap string state_dict) (w : world) : world :=
  {| rng := rng w; model_state := model_state w; model_training := model_training w;
     grad_enabled := grad_enabled w; grads := grads w;
     optimizer_moments := optimizer_moments w; optimizer_lr := optimizer_lr w;
     files := f; trace := trace w |}.

Definition add_event (e : event) (w : world) : world :=
  {| rng := rng w; model_state := model_state w; model_training := model_training w;
     grad_enabled := grad_enabled w; grads := grads w;
     optimizer_moments := optimizer_moments w; optimizer_lr := optimizer_lr w;
     files := files w; trace := trace w ++ [e] |}.

(** *** The script's monad: state and exceptions *)

Inductive outcome (A : Type) :=
| Ok (a : A) (w : world)
| Raise (e : exn) (w : world).
Arguments Ok {A} a w.
Arguments Raise {A} e w.

Definition M (A : Type) : Type := world → outcome A.

Definition ret {A} (a : A) : M A := λ w, Ok a w.

Definition bind {A B} (m : M A) (k : A → M B) : M B :=
  λ w, match m w with
       | Ok a w' => k a w'
       | Raise e w' => Raise e w'
       end.

Definition raise {A} (e : exn) : M A := λ w, Raise e w.

Definition lift {A} (r : result A) : M A :=
  match r with
  | Done a => ret a
  | Fail e => raise e
  end.

Definition emit (e : event) : M unit := λ w, Ok tt (add_event e w).

Definition when (b : bool) (m : M unit) : M unit := if b then m else ret tt.

Notation "'do' x <- m ; k" := (bind m (λ x, k))
  (at level 10, x name, m at level 100, k at level 200,
   format "'[v' 'do'  x  <-  m ; '/' k ']'").
Notation "'do' ' p <- m ; k" := (bind m (λ x, match x with p => k end))
  (at level 10, p pattern, m at level 100, k at level 200,
   format "'[v' 'do'  ' p  <-  m ; '/' k ']'").
Notation "m ;; k" := (bind m (λ _, k))
  (at level 100, k at level 200, right associativity, only parsing).

(** [for i in range(n)] with the variables the body assigns threaded through. *)
Fixpoint for_each {S} (body : Z → S → M S) (iters : list Z) (s : S) : M S :=
  match iters with
  | [] => ret s
  | i :: iters' => do s' <- body i s; for_each body iters' s'
  end.

Definition range (n : Z) : list Z := Z.of_nat <$> seq 0 (Z.to_nat n).

Variable h : hparams.
Variable fabric : Fabric.

Definition on_xla : bool := bool_decide (device_type fabric = xla).

(** *** [get_batch] (lines 244-265) *)

(** [torch.randint(len(data), (micro_batch_size,))] *)
Definition draw_indices (data : list example) : M (list nat) :=
  λ w,
    if bool_decide (length data = 0) then Raise RuntimeError w
    else if bool_decide (micro_batch_size h < 0)%Z then Raise RuntimeError w
    else
      let (ix, r) := randint (length data) (Z.to_nat (micro_batch_size h)) (rng w) in
      Ok ix (set_rng r w).

Definition get_batch (data : list example) (max_seq_length : Z)
  : M (int_tensor * int_tensor) :=
  do ix <- draw_indices data;
  do '(x, y) <- lift (collate on_xla data max_seq_length ix);
  (* fabric.to_device, pinned first unless on mps or xla *)
  ret ({| rows := x; placed_on := device_type fabric |},
       {| rows := y; placed_on := device_type fabric |}).

(** *** [save_adapter_checkpoint] (lines 268-270) *)

(** Modelled from the spec: [fabric.save(path, {"model": model}, filter=...)]
    belongs to the Lightning library and is absent here; section 4.6 gives its
    contract, an artifact holding only the parameters for which the predicate
    is true. *)
Definition fabric_save (path : string) (filter_fn : string → bool) : M unit :=
  λ w,
    let artifact := filter (λ kv, filter_fn kv.1 = true) (model_state w) in
    Ok tt (add_event (Saved path) (set_files (<[path := artifact]> (files w)) w)).

Definition save_adapter_checkpoint (file_path : string) : M unit :=
  emit (Printed (SavingLine file_path)) ;;
  fabric_save file_path adapter_filter.

(** *** The model and the optimizer *)

(** [model(input_ids)] *)
Definition call_model (input : int_tensor) : M (list (list (list R))) :=
  λ w, Ok (forward (model_state w) (rows input))
          (add_event (ForwardPass (grad_enabled w) (rows input)) w).

(** [model.eval()] and [model.train()] *)
Definition set_mode (training : bool) : M unit :=
  λ w, Ok tt (set_model_training training w).

(** The decorator [@torch.no_grad()]: gradient tracking is off inside and put
    back on the way out, also when the body raises. *)
Definition no_grad {A} (m : M A) : M A :=
  λ w,
    match m (set_grad_enabled false w) with
    | Ok a w' => Ok a (set_grad_enabled (grad_enabled w) w')
    | Raise e w' => Raise e (set_grad_enabled (grad_enabled w) w')
    end.

(** [fabric.backward(loss / divisor)] under [no_backward_sync(enabled=no_sync)] *)
Definition backward (no_sync : bool) (input targets : int_tensor) (divisor : Z) : M unit :=
  λ w,
    let g := {| g_input := rows input; g_targets := rows targets; g_divisor := divisor |} in
    Ok tt (add_event (BackwardPass no_sync divisor) (set_grads (grads w ++ [g]) w)).

(** One entry of AdamW's update: decoupled weight decay, then the step along
    the direction, both scaled by the learning rate. *)
Definition adamw_entry (lr wd direction p : Qc) : Qc :=
  (p * (1 - lr * wd) - lr * direction)%Qc.

(** AdamW on the whole model: the parameters that require gradients move,
    the frozen ones stay. *)
Definition adamw_update (lr wd : Qc) (m : moments) (sd : state_dict) : state_dict :=
  map_imap (λ name p,
    Some (if requires_grad name
          then imap (λ j pj, adamw_entry lr wd (adamw_direction m name j) pj) p
          else p)) sd.

(** [optimizer.step()] *)
Definition optimizer_step : M unit :=
  λ w,
    let lr := optimizer_lr w in
    let m := adamw_moments (optimizer_moments w) (model_state w) (grads w) in
    Ok tt (add_event (OptimizerStep lr (length (grads w)))
             (set_optimizer_moments m
                (set_model_state (adamw_update lr (weight_decay h) m (model_state w)) w))).

(** [optimizer.zero_grad()] *)
Definition zero_grad : M unit :=
  λ w, Ok tt (add_event ZeroGrad (set_grads [] w)).

(** [for param_group in optimizer.param_groups: param_group["lr"] = lr] *)
Definition set_lr (lr : Qc) : M unit :=
  λ w, Ok tt (add_event (LrSet lr) (set_optimizer_lr lr w)).

(** [xm.mark_step()] on XLA devices *)
Definition mark_step : M unit := emit MarkStep.

(** *** [validate] (lines 205-233) *)

(** [torch.zeros(n)] *)
Definition zeros (n : Z) : result (list scalar) :=
  if bool_decide (n < 0)%Z then Fail RuntimeError
  else Done (replicate (Z.to_nat n) (Finite 0)).

(** The reals in a buffer of losses, if none of them is not-a-number. *)
Fixpoint finite_values (l : list scalar) : option (list R) :=
  match l with
  | [] => Some []
  | Finite r :: l' => cons r <$> finite_values l'
  | NaN :: _ => None
  end.

(** [losses.mean()] *)
Definition tensor_mean (losses : list scalar) : scalar :=
  match finite_values losses with
  | Some values => mean values
  | None => NaN
  end.

Definition instruction : string :=
  "Recommend a movie for me to watch during the weekend and explain the reason.".

(** The body of the loop [for k in range(eval_iters)]. *)
Definition validate_step (val_data : list example) (max_seq_length : Z)
    (k : Z) (losses : list scalar) : M (list scalar) :=
  do '(input_ids, targets) <- get_batch val_data max_seq_length;
  do logits <- call_model input_ids;
  do loss <- lift (loss_fn logits (rows targets));
  ret (<[Z.to_nat k := loss]> losses).

Definition validate (val_data : list example) (max_seq_length : Z) : M scalar :=
  no_grad (
    emit (Printed ValidatingLine) ;;
    set_mode false ;;
    do losses <- lift (zeros (eval_iters h));
    do losses <- for_each (validate_step val_data max_seq_length)
                   (range (eval_iters h)) losses;
    let val_loss := tensor_mean losses in
    (* produce an example: *)
    emit (Printed (TextLine instruction)) ;;
    let prompt := generate_prompt instruction "" in
    let encoded := encode prompt in
    let max_returned_tokens := (Z.of_nat (length encoded) + 100)%Z in
    do output <- (λ w, let (out, r) := generate (model_state w) encoded
                                         max_returned_tokens max_returned_tokens
                                         (literal (8 # 10)) (rng w) in
                       Ok out (add_event (Generated max_returned_tokens) (set_rng r w)));
    emit (Printed (TextLine (decode output))) ;;
    set_mode true ;;
    ret val_loss).

(** *** [train] (lines 119-202) *)

(** [not is_accumulating and step_count % interval == 0]: [and] evaluates its
    right operand only when the left one holds. *)
Definition due (is_accumulating : bool) (step_count interval : Z) : M bool :=
  if negb is_accumulating then
    do r <- lift (py_mod step_count interval);
    ret (bool_decide (r = 0%Z))
  else ret false.

(** Lines 152-156: the warmup block at the head of the loop body. *)
Definition warmup (step_count : Z) : M unit :=
  if bool_decide (step_count ≤ warmup_iters h)%Z then
    (* linear warmup *)
    do lr <- lift (py_float_truediv (py_float_mul (learning_rate h) step_count)
                     (warmup_iters h));
    set_lr lr
  else ret tt.

(** Lines 160-166: one micro-batch forward and backward.  Returns
    [is_accumulating] and the loss. *)
Definition forward_backward (train_data : list example) (max_seq_length : Z)
    (iter_num : Z) : M (bool * scalar) :=
  do '(input_ids, targets) <- get_batch train_data max_seq_length;
  do r <- lift (py_mod (iter_num + 1) (gradient_accumulation_iters h));
  let is_accumulating := negb (bool_decide (r = 0%Z)) in
  do logits <- call_model input_ids;
  do loss <- lift (loss_fn logits (rows targets));
  backward is_accumulating input_ids targets (gradient_accumulation_iters h) ;;
  ret (is_accumulating, loss).

(** Lines 168-175: the optimizer step that closes an accumulation group.
    Returns the new [step_count]. *)
Definition update (is_accumulating : bool) (step_count : Z) : M Z :=
  if negb is_accumulating then
    optimizer_step ;;
    when on_xla mark_step ;;
    zero_grad ;;
    ret (step_count + 1)%Z
  else
    when on_xla mark_step ;;
    ret step_count.

(** Lines 177-202: instrumentation, periodic validation and checkpointing. *)
Definition report (val_data : list example) (out_dir : string) (max_seq_length : Z)
    (iter_num : Z) (step_count : Z) (is_accumulating : bool) (loss : scalar) : M unit :=
  emit (TrainBatchEnd ((iter_num + 1) * micro_batch_size h)) ;;
  do r <- lift (py_mod iter_num (log_interval h));
  when (bool_decide (r = 0%Z))
    (emit (Printed (IterLine iter_num step_count loss (negb is_accumulating)))) ;;
  do eval_due <- due is_accumulating step_count (eval_interval h);
  when eval_due (
    do val_loss <- validate val_data max_seq_length;
    emit EvalEnd ;;
    emit (Printed (ValLossLine iter_num val_loss)) ;;
    emit Barrier) ;;
  do save_due <- due is_accumulating step_count (save_interval h);
  when save_due (save_adapter_checkpoint (iter_checkpoint_path out_dir iter_num)).

(** The body of the loop [for iter_num in range(max_iters)], lines 152-202; the
    value threaded through is [step_count]. *)
Definition train_step (train_data val_data : list example) (out_dir : string)
    (max_seq_length : Z) (iter_num : Z) (step_count : Z) : M Z :=
  warmup step_count ;;
  do '(is_accumulating, loss) <- forward_backward train_data max_seq_length iter_num;
  do step_count <- update is_accumulating step_count;
  report val_data out_dir max_seq_length iter_num step_count is_accumulating loss ;;
  ret step_count.

(** Lines 137-139: [measure_flops] on a random input of shape
    [(micro_batch_size, block_size)].  The input is drawn here; what
    [measure_flops] (of [lit_parrot.speed_monitor]) does with the model is a
    call of its own. *)
Definition measure_flops : M unit :=
  λ w,
    let size := Z.to_nat (micro_batch_size h) * Z.to_nat block_size in
    let (_, r) := randint 1 size (rng w) in
    Ok tt (add_event (MeasureFlops size) (set_rng r w)).

Definition train (train_data val_data : list example) (out_dir : string)
    (max_seq_length : Z) : M unit :=
  validate val_data max_seq_length ;;  (* sanity check *)
  emit (Printed EstimatedFlopsLine) ;;
  when (negb (strategy_is_fsdp fabric))  (* unsupported *)
    (measure_flops ;; emit (Printed MeasuredFlopsLine)) ;;
  let step_count := 0%Z in
  when on_xla mark_step ;;
  for_each (train_step train_data val_data out_dir max_seq_length)
    (range (max_iters h)) step_count ;;
  ret tt.

(** *** [main] (lines 76-116) *)

(** [model.load_state_dict(checkpoint, strict=False)]: every parameter the
    checkpoint names takes the checkpoint's value, the others keep theirs. *)
Definition load_state_dict (model checkpoint : state_dict) : state_dict :=
  map_imap (λ name p, Some (default p (checkpoint !! name))) model.

(** What [main] reads from disk: the two datasets, the base checkpoint and
    the dataset's [config.json]; and the model [Parrot(config)] builds. *)
Record inputs := {
  train_pt : list example;
  test_pt : list example;
  lit_model_pth : state_dict;
  fresh_model : state_dict;
  config_max_seq_length : option Z
}.

(** [sum(p.numel() for p in model.parameters() if p.requires_grad)] *)
Definition num_trainable (sd : state_dict) : nat :=
  map_fold (λ name p n, if requires_grad name then length p + n else n) 0 sd.

(** Lines 77-105: the generator is seeded, the model built and loaded, the
    optimizer made. *)
Definition prepare (i : inputs) : M unit :=
  (λ w, Ok tt (set_rng (seed_everything (1337 + global_rank fabric)) w)) ;;
  emit (Printed LoadingModelLine) ;;
  (* strict=False because missing keys due to adapter weights not contained in
     state dict *)
  (λ w, Ok tt (set_grads [] (set_model_training true
                (set_model_state (load_state_dict (fresh_model i) (lit_model_pth i)) w)))) ;;
  (λ w, Ok tt (add_event (Printed (TrainableParametersLine (num_trainable (model_state w))))
                 w)) ;;
  (* optimizer = torch.optim.AdamW(model.parameters(), lr=learning_rate, ...) *)
  (λ w, Ok tt (set_optimizer_moments fresh_moments (set_optimizer_lr (learning_rate h) w))).

Definition main (i : inputs) (out_dir : string) : M unit :=
  prepare i ;;
  let train_data := train_pt i in
  let val_data := test_pt i in
  let max_seq_length := default block_size (config_max_seq_length i) in
  train train_data val_data out_dir max_seq_length ;;
  emit (Printed TrainingTimeLine) ;;
  (* Save the final checkpoint at the end of training *)
  save_adapter_checkpoint (final_checkpoint_path out_dir).

End Script.

Arguments Ok {_ _} a w.
Arguments Raise {_ _} e w.

(** *** [setup] (lines 47-73) and the script as a whole *)

(** The fabric [setup] makes: sharded data parallel on several devices that
    are not TPUs, and the accelerator the machine has. *)
Definition launched_fabric (h : hparams) (tpu : bool) (accelerator : device)
    (rank : Z) : Fabric :=
  {| device_type := accelerator;
     strategy_is_fsdp := bool_decide (1 < devices h)%Z && negb tpu;
     world_size := devices h;
     global_rank := rank |}.

Definition setup `{Collaborators} (h : hparams) (tpu : bool) (accelerator : device)
    (rank : Z) (i : inputs) (out_dir : string) : M unit :=
  bind (emit (Printed HparamsLine))
    (λ _, main h (launched_fabric h tpu accelerator rank) i out_dir).

(** Running the file: the module level first, then [setup]. *)
Definition script `{Collaborators} (c : Constants.t) (tpu : bool) (accelerator : device)
    (rank : Z) (i : inputs) (out_dir : string) : M unit :=
  match module_init c with
  | Done h => setup h tpu accelerator rank i out_dir
  | Fail e => raise e
  end.
(** ** Reference notions the properties are stated with *)

(** The quotient the accumulation count is derived from:
    [batch_size / micro_batch_size], with [batch_size = 64 / devices]. *)
Definition accumulation_ratio (c : Constants.t) : Qc :=
  (Z2Qc 64 / Z2Qc (Constants.devices c) / Z2Qc (Constants.micro_batch_size c))%Qc.

Definition is_positive_integer (q : Qc) : Prop :=
  ∃ n : Z, (0 < n)%Z ∧ q = Z2Qc n.

(** The positions [(b, t)] left after the shift of [loss_fn], for tensors of
    [b] sequences of [s] time steps: output [t] is paired with token [t + 1]. *)
Definition positions (b s : nat) : list (nat * nat) :=
  list_prod (seq 0 b) (seq 0 (s - 1)).

Definition logits_at (logits : list (list (list R))) (p : nat * nat) : list R :=
  nth p.2 (nth p.1 logits []) [].

Definition target_at (targets : list (list Z)) (p : nat * nat) : Z :=
  nth (S p.2) (nth p.1 targets []) 0%Z.

(** The position's target is not the ignore index. *)
Definition counted (targets : list (list Z)) (p : nat * nat) : Prop :=
  target_at targets p ≠ (-1)%Z.

Global Instance counted_dec targets p : Decision (counted targets p).
Proof. unfold counted. apply _. Defined.

(** The mean, over the counted positions, of the negative log-likelihood of
    the position's target under the position's logits. *)
Definition masked_mean (b s : nat) (logits : list (list (list R)))
    (targets : list (list Z)) : scalar :=
  mean ((λ p, nll (logits_at logits p) (Z.to_nat (target_at targets p)))
          <$> filter (counted targets) (positions b s)).

(** [logits[b, t, c] = x] *)
Definition set_logit (logits : list (list (list R))) (b t c : nat) (x : R)
  : list (list (list R)) :=
  alter (alter (<[c := x]>) t) b logits.

(** The loss as a real number, for taking derivatives. *)
Definition loss_value (r : result scalar) : R :=
  match r with
  | Done (Finite x) => x
  | _ => 0%R
  end.

(** [x] padded on the right to [n] entries. *)
Definition pad_to (n : nat) (pad_id : Z) (x : list Z) : list Z :=
  x ++ replicate (n - length x) pad_id.

Definition no_example : example := {| input_ids := []; labels := [] |}.

(** The examples the drawn indices select, repetitions included. *)
Definition picked (data : list example) (ix : list nat) : list example :=
  (λ i, nth i data no_example) <$> ix.

Definition longest (seqs : list (list Z)) : nat := foldr Nat.max 0 (length <$> seqs).

(** The length [get_batch] pads to. *)
Definition pad_length (on_xla : bool) (max_seq_length : Z) (batch : list example) : Z :=
  if on_xla then max_seq_length else Z.of_nat (longest (input_ids <$> batch)).

(** A target the loss accepts: the ignore index or a token of the vocabulary. *)
Definition valid_target (v : nat) (t : Z) : Prop :=
  t = (-1)%Z ∨ (0 ≤ t < Z.of_nat v)%Z.

(** An example as the data preparation writes them: labels no longer than the
    inputs and made of valid targets; under XLA the inputs also fit the fixed
    length. *)
Definition example_fits (on_xla : bool) (max_seq_length : Z) (v : nat) (e : example)
  : Prop :=
  length (labels e) ≤ length (input_ids e) ∧
  (on_xla = true → (Z.of_nat (length (input_ids e)) ≤ max_seq_length)%Z) ∧
  Forall (valid_target v) (labels e).

Definition dataset_fits (on_xla : bool) (max_seq_length : Z) (v : nat)
    (data : list example) : Prop :=
  data ≠ [] ∧ Forall (example_fits on_xla max_seq_length v) data.

(** [w'] differs from [w] at most in the generator and the calls made. *)
Definition untouched `{Collaborators} (w w' : world) : Prop :=
  model_state w' = model_state w ∧
  model_training w' = model_training w ∧
  grad_enabled w' = grad_enabled w ∧
  grads w' = grads w ∧
  optimizer_moments w' = optimizer_moments w ∧
  optimizer_lr w' = optimizer_lr w ∧
  files w' = files w.

(** The batches [n] calls of [get_batch] in a row return, the first of them in
    world [w]: a call reads the world's generator and leaves it in its next
    state. *)
Fixpoint drawn_batches `{Collaborators} (h : hparams) (fabric : Fabric)
    (data : list example) (max_seq_length : Z) (n : nat) (w : world)
  : list (int_tensor * int_tensor) :=
  match n with
  | O => []
  | S n' =>
      match get_batch h fabric data max_seq_length w with
      | Ok batch w' => batch :: drawn_batches h fabric data max_seq_length n' w'
      | Raise _ _ => []
      end
  end.

(** The loss of each batch, under parameters [sd]. *)
Definition batch_losses `{Collaborators} (sd : state_dict)
    (batches : list (int_tensor * int_tensor)) (losses : list scalar) : Prop :=
  Forall2 (λ b l, loss_fn (forward sd (rows b.1)) (rows b.2) = Done l) batches losses.

(** Hyperparameters under which no division of the loop is by zero and every
    tensor has a size. *)
Definition schedule_ok (h : hparams) : Prop :=
  (0 < gradient_accumulation_iters h)%Z ∧
  (0 < warmup_iters h)%Z ∧
  (0 < micro_batch_size h)%Z ∧
  (0 ≤ eval_iters h)%Z ∧
  log_interval h ≠ 0%Z ∧
  eval_interval h ≠ 0%Z ∧
  save_interval h ≠ 0%Z.

(** The rate the warmup block assigns at [step_count]: the product of line
    154 rounded, then the quotient. *)
Definition warmup_lr (h : hparams) (step_count : Z) : Qc :=
  fl (fl (learning_rate h * Z2Qc step_count) / Z2Qc (warmup_iters h)).

(** The rate in effect at [step_count] in a run whose optimizer holds the
    base rate once the ramp is over: the ramp up to [warmup_iters], the base
    rate after. *)
Definition lr_in_effect (h : hparams) (step_count : Z) : Qc :=
  if bool_decide (step_count ≤ warmup_iters h)%Z then warmup_lr h step_count
  else learning_rate h.

(** The rate in effect at [step_count] in a run whose optimizer holds [held]
    once the ramp is over. *)
Definition rate_in_effect (h : hparams) (held : Qc) (step_count : Z) : Qc :=
  if bool_decide (step_count ≤ warmup_iters h)%Z then warmup_lr h step_count
  else held.

(** The rate in effect at [step_count] in a run from step 0: the ramp up to
    [warmup_iters], and after it the ramp's last value, which no iteration
    assigns again. *)
Definition rate_at (h : hparams) (step_count : Z) : Qc :=
  rate_in_effect h (warmup_lr h (warmup_iters h)) step_count.

(** Iteration [iter_num] is the last of its accumulation group. *)
Definition closes_group (h : hparams) (iter_num : Z) : bool :=
  bool_decide ((iter_num + 1) `mod` gradient_accumulation_iters h = 0)%Z.

(** Iteration [iter_num] writes a periodic checkpoint: it closes a group and
    the number of optimizer steps made so far is a multiple of [save_interval]. *)
Definition saves_checkpoint (h : hparams) (iter_num : Z) : bool :=
  closes_group h iter_num &&
  bool_decide (((iter_num + 1) `div` gradient_accumulation_iters h)
                 `mod` save_interval h = 0)%Z.

(** The calls that drive the optimizer and the checkpoints; printing, forward
    passes and instrumentation are the others. *)
Definition is_control (e : event) : bool :=
  match e with
  | LrSet _ | BackwardPass _ _ | OptimizerStep _ _ | ZeroGrad | MarkStep | Saved _ => true
  | _ => false
  end.

Definition is_optimizer_step (e : event) : bool :=
  match e with
  | OptimizerStep _ _ => true
  | _ => false
  end.

Definition is_backward (e : event) : bool :=
  match e with
  | BackwardPass _ _ => true
  | _ => false
  end.

Definition is_lr_set (e : event) : bool :=
  match e with
  | LrSet _ => true
  | _ => false
  end.

Definition is_saved (e : event) : bool :=
  match e with
  | Saved _ => true
  | _ => false
  end.

Definition is_forward (e : event) : bool :=
  match e with
  | ForwardPass _ _ => true
  | _ => false
  end.

Definition mark_events (fabric : Fabric) : list event :=
  if on_xla fabric then [MarkStep] else [].

(** The calls of lines 168-175. *)
Definition update_events (fabric : Fabric) (is_accumulating : bool) (lr : Qc) (n : nat)
  : list event :=
  if is_accumulating then mark_events fabric
  else [OptimizerStep lr n] ++ mark_events fabric ++ [ZeroGrad].

(** The control calls iteration [iter_num] makes, by the iteration's number
    and the rate [held] past the ramp: the optimizer has made [iter_num div G]
    steps before it, and [iter_num mod G] micro-batches are already
    accumulated. *)
Definition iteration_control (h : hparams) (fabric : Fabric) (held : Qc)
    (out_dir : string) (iter_num : Z) : list event :=
  let step_count := (iter_num `div` gradient_accumulation_iters h)%Z in
  let is_accumulating := negb (closes_group h iter_num) in
  (if bool_decide (step_count ≤ warmup_iters h)%Z
   then [LrSet (warmup_lr h step_count)] else [])
  ++ [BackwardPass is_accumulating (gradient_accumulation_iters h)]
  ++ update_events fabric is_accumulating (rate_in_effect h held step_count)
       (Z.to_nat (iter_num `mod` gradient_accumulation_iters h) + 1)
  ++ (if saves_checkpoint h iter_num
      then [Saved (iter_checkpoint_path out_dir iter_num)] else []).

(** What holds of [step_count] and the optimizer when iteration [iter_num]
    starts: past the ramp the optimizer holds [held], which is the ramp's
    last value if the ramp is still to end. *)
Definition loop_invariant `{Collaborators} (h : hparams) (held : Qc)
    (iter_num step_count : Z) (w : world) : Prop :=
  step_count = (iter_num `div` gradient_accumulation_iters h)%Z ∧
  Z.of_nat (length (grads w)) = (iter_num `mod` gradient_accumulation_iters h)%Z ∧
  ((warmup_iters h < step_count)%Z → optimizer_lr w = held) ∧
  ((step_count ≤ warmup_iters h)%Z → held = warmup_lr h (warmup_iters h)).

(** The warmup expression of line 154 on the machine's binary64 numbers, as
    Python evaluates it: the two ints become floats, the product is rounded,
    then the quotient. *)
Module Binary64.
Import PrimFloat.

Definition of_int (z : Z) : float := of_uint63 (Uint63.of_Z z).

Definition warmup_lr (learning_rate : float) (step_count warmup_iters : Z) : float :=
  (learning_rate * of_int step_count / of_int warmup_iters)%float.

(** The literal [9e-3] as the binary64 number nearest to it. *)
Definition nine_thousandths : float := 0x1.26e978d4fdf3bp-7%float.

(** The rational a finite binary64 number denotes. *)
Definition to_Q (x : float) : Q :=
  match FloatOps.Prim2SF x with
  | SpecFloat.S754_finite negative m e =>
      ((if negative then Z.neg m else Z.pos m) # 1) * 2 ^ e
  | _ => 0
  end.

(** The machine's result of an operation on [x] and [y] is the rounding
    [binary64] of the exact result. *)
Definition rounds (op : float → float → float) (exact : Q → Q → Q) (x y : float) : bool :=
  Qeq_bool (to_Q (op x y)) (binary64 (exact (to_Q x) (to_Q y))).

(** Operands to try [rounds] on: small and large, negative, next to 1, and
    integers past 53 bits. *)
Definition operands : list float :=
  [0x1.999999999999ap-4; 0x1.3333333333333p-2; nine_thousandths; 0x1.8p0; 0x1.8p1;
   0x1.cp2; 0x1.2a05f2p33; 0x1.b7cdfd9d7bdbbp-34; 0x1.fffffffffffffp0;
   0x1.0000000000001p0; 0x1.249ad2594c37dp332; 0x1.bff2ee48e053p-333;
   -0x1.6666666666666p-1; -0x1.8p1; 0x1.0000000000001p52; 0x1p53; 0x1p-1;
   0x1.4p1; 0x1.0f0cf064dd592p73; 0x1.fe0a7e0e3bd2p78]%float.

End Binary64.

(** ** Reference notions for a whole run *)

(** Iteration [iter_num] runs a validation: it closes a group and the number
    of optimizer steps made so far is a multiple of [eval_interval]. *)
Definition evaluates (h : hparams) (iter_num : Z) : bool :=
  closes_group h iter_num &&
  bool_decide (((iter_num + 1) `div` gradient_accumulation_iters h)
                 `mod` eval_interval h = 0)%Z.

(** Iteration [iter_num] prints its line. *)
Definition logs_iteration (h : hparams) (iter_num : Z) : bool :=
  bool_decide (iter_num `mod` log_interval h = 0)%Z.

(** The calls of one [validate]: the batches it feeds the model and the
    sample it prints are the run's own. *)
Definition validation_events `{Collaborators} (val_inputs : list (list (list Z)))
    (sample : string) : list event :=
  [Printed ValidatingLine]
  ++ (ForwardPass false <$> val_inputs)
  ++ [Printed (TextLine instruction);
      Generated (Z.of_nat (length (encode (generate_prompt instruction ""))) + 100);
      Printed (TextLine sample)].
Global Arguments validation_events : simpl never.

(** What an iteration draws and computes: its micro-batch and loss, and the
    batches, sample and loss of its validation, if it runs one. *)
Record iteration_data := {
  it_input : list (list Z);
  it_loss : scalar;
  it_val_inputs : list (list (list Z));
  it_sample : string;
  it_val_loss : scalar
}.

(** Every call iteration [iter_num] makes, in order (lines 152-202). *)
Definition iteration_events `{Collaborators} (h : hparams) (fabric : Fabric)
    (out_dir : string) (with_grad : bool) (iter_num : Z) (d : iteration_data)
  : list event :=
  let before := (iter_num `div` gradient_accumulation_iters h)%Z in
  let after := ((iter_num + 1) `div` gradient_accumulation_iters h)%Z in
  let is_accumulating := negb (closes_group h iter_num) in
  (if bool_decide (before ≤ warmup_iters h)%Z then [LrSet (warmup_lr h before)] else [])
  ++ [ForwardPass with_grad (it_input d);
      BackwardPass is_accumulating (gradient_accumulation_iters h)]
  ++ update_events fabric is_accumulating (rate_at h before)
       (Z.to_nat (iter_num `mod` gradient_accumulation_iters h) + 1)
  ++ [TrainBatchEnd ((iter_num + 1) * micro_batch_size h)]
  ++ (if logs_iteration h iter_num
      then [Printed (IterLine iter_num after (it_loss d) (negb is_accumulating))]
      else [])
  ++ (if evaluates h iter_num
      then validation_events (it_val_inputs d) (it_sample d)
           ++ [EvalEnd; Printed (ValLossLine iter_num (it_val_loss d)); Barrier]
      else [])
  ++ (if saves_checkpoint h iter_num
      then [Printed (SavingLine (iter_checkpoint_path out_dir iter_num));
            Saved (iter_checkpoint_path out_dir iter_num)]
      else []).

(** The calls of lines 134-142. *)
Definition flops_events `{Collaborators} (h : hparams) (fabric : Fabric) : list event :=
  [Printed EstimatedFlopsLine]
  ++ (if strategy_is_fsdp fabric then []
      else [MeasureFlops (Z.to_nat (micro_batch_size h) * Z.to_nat block_size);
            Printed MeasuredFlopsLine]).
Global Arguments flops_events : simpl never.

(** Every call of [train] (lines 130-202). *)
Definition train_events `{Collaborators} (h : hparams) (fabric : Fabric)
    (out_dir : string) (with_grad : bool) (val_inputs : list (list (list Z)))
    (sample : string) (ds : list iteration_data) : list event :=
  validation_events val_inputs sample
  ++ flops_events h fabric
  ++ mark_events fabric
  ++ concat (zip_with (iteration_events h fabric out_dir with_grad)
               (range (max_iters h)) ds).
Global Arguments train_events : simpl never.

Definition is_mark_step (e : event) : bool :=
  match e with
  | MarkStep => true
  | _ => false
  end.

Definition is_barrier (e : event) : bool :=
  match e with
  | Barrier => true
  | _ => false
  end.

Definition is_eval_end (e : event) : bool :=
  match e with
  | EvalEnd => true
  | _ => false
  end.

Definition is_validating_line (e : event) : bool :=
  match e with
  | Printed ValidatingLine => true
  | _ => false
  end.

Definition is_batch_end (e : event) : bool :=
  match e with
  | TrainBatchEnd _ => true
  | _ => false
  end.

Definition is_measure_flops (e : event) : bool :=
  match e with
  | MeasureFlops _ => true
  | _ => false
  end.

(** The iteration, the step count and the mark a printed iteration line
    carries. *)
Definition iter_line (e : event) : option (Z * Z * bool) :=
  match e with
  | Printed (IterLine iter_num step_count _ stepped) => Some (iter_num, step_count, stepped)
  | _ => None
  end.

(** The number a printed validation-loss line carries. *)
Definition val_line (e : event) : option Z :=
  match e with
  | Printed (ValLossLine n _) => Some n
  | _ => None
  end.

(** The rate of a call that sets or uses one. *)
Definition rate_of (e : event) : option Qc :=
  match e with
  | LrSet lr | OptimizerStep lr _ => Some lr
  | _ => None
  end.

(** A string without its leading zeros. *)
Fixpoint strip_zeros (s : string) : string :=
  match s with
  | String c s' => if bool_decide (String c "" = "0") then strip_zeros s' else s
  | EmptyString => s
  end.

(** The labels a padded batch still counts at position [p]: those the picked
    example has past its first, other than the ignore index. *)
Definition real_label (batch : list example) (p : nat * nat) : Prop :=
  let l := labels (nth p.1 batch no_example) in
  S p.2 < length l ∧ nth (S p.2) l 0%Z ≠ (-1)%Z.
(** ** A concrete set of collaborators, for running the script on examples *)

(** The filter of [lit_parrot.adapter]: the two kinds of adapter weights. *)
Definition name_has (part name : string) : bool :=
  bool_decide (is_Some (String.index 0 part name)).

Definition toy_adapter_filter (name : string) : bool :=
  name_has "adapter_wte" name || name_has "gating_factor" name.

(** A counter as generator, a model that is indifferent between two tokens,
    and a decoder that echoes its prompt. *)
Definition toy : Collaborators :=
  {| rng_state := nat;
     seed_everything := Z.to_nat;
     randint := λ high size r, ((λ j, (r + j) `mod` high) <$> seq 0 size, r + size);
     forward := λ _ x, (λ row : list Z, (λ _, [0%R; 0%R]) <$> row) <$> x;
     block_size := 16;
     generate := λ _ idx _ _ _ r, (idx, S r);
     encode := λ _, [1%Z];
     decode := λ _, "a film";
     generate_prompt := λ instruction _, instruction;
     adapter_filter := toy_adapter_filter;
     requires_grad := toy_adapter_filter;
     moments := unit;
     fresh_moments := tt;
     adamw_moments := λ _ _ _, tt;
     adamw_direction := λ _ _ _, 1%Qc |}.

(** The repository's literals with a micro-batch size of 6. *)
Definition repo_constants_mbs6 : Constants.t :=
  {| Constants.eval_interval := 60;
     Constants.save_interval := 10;
     Constants.eval_iters := 100;
     Constants.log_interval := 1;
     Constants.devices := 1;
     Constants.learning_rate := literal (9 # 1000);
     Constants.micro_batch_size := 6;
     Constants.epoch_size := 50000;
     Constants.num_epochs := 5;
     Constants.weight_decay := literal (2 # 100) |}.

(** The repository's literals with epochs of 29 micro-batches of 64 examples:
    one micro-batch to the optimizer step, 58 warmup steps, 145 iterations. *)
Definition short_epoch_constants : Constants.t :=
  {| Constants.eval_interval := 60;
     Constants.save_interval := 10;
     Constants.eval_iters := 100;
     Constants.log_interval := 1;
     Constants.devices := 1;
     Constants.learning_rate := literal (9 # 1000);
     Constants.micro_batch_size := 64;
     Constants.epoch_size := 1856;
     Constants.num_epochs := 5;
     Constants.weight_decay := literal (2 # 100) |}.

Definition short_epoch_hparams : hparams :=
  {| eval_interval := 60;
     save_interval := 10;
     eval_iters := 100;
     log_interval := 1;
     devices := 1;
     learning_rate := literal (9 # 1000);
     batch_size := Z2Qc 64;
     micro_batch_size := 64;
     gradient_accumulation_iters := 1;
     epoch_size := 1856;
     num_epochs := 5;
     max_iters := 145;
     weight_decay := literal (2 # 100);
     warmup_iters := 58 |}.

(** Fabrics, datasets and a world to run the script in. *)
Definition cuda_fabric : Fabric :=
  {| device_type := cuda; strategy_is_fsdp := false; world_size := 1; global_rank := 0 |}.

Definition xla_fabric : Fabric :=
  {| device_type := xla; strategy_is_fsdp := false; world_size := 1; global_rank := 0 |}.

Definition toy_data : list example :=
  [ {| input_ids := [1; 0; 1]%Z; labels := [-1; 0; 1]%Z |};
    {| input_ids := [0; 1]%Z; labels := [1; 0]%Z |} ].

Definition mislabelled_data : list example :=
  [ {| input_ids := [1]%Z; labels := [1; 0]%Z |} ].

Definition toy_model : state_dict :=
  {[ "transformer.wte.weight" := [Z2Qc 1; Z2Qc 2];
     "transformer.h.0.attn.adapter_wte.weight" := [Z2Qc 3];
     "transformer.h.0.attn.gating_factor" := [Z2Qc 0] ]}.

Definition toy_world : @world toy :=
  {| rng := (0%nat : @rng_state toy);
     model_state := toy_model;
     model_training := true;
     grad_enabled := true;
     grads := [];
     optimizer_moments := (tt : @moments toy);
     optimizer_lr := learning_rate repo_hparams;
     files := ∅;
     trace := [] |}.

Definition toy_inputs : inputs :=
  {| train_pt := toy_data;
     test_pt := toy_data;
     lit_model_pth := {[ "transformer.wte.weight" := [Z2Qc 1; Z2Qc 2] ]};
     fresh_model := toy_model;
     config_max_seq_length := Some 8%Z |}.

Definition small_hparams : hparams :=
  {| eval_interval := 60;
     save_interval := 1;
     eval_iters := 1;
     log_interval := 1;
     devices := 1;
     learning_rate := literal (9 # 1000);
     batch_size := Z2Qc 4;
     micro_batch_size := 2;
     gradient_accumulation_iters := 2;
     epoch_size := 4;
     num_epochs := 2;
     max_iters := 4;
     weight_decay := literal (2 # 100);
     warmup_iters := 4 |}.

(** The small configuration with one hyperparameter set to zero. *)
Definition no_warmup_hparams : hparams :=
  {| eval_interval := 60;
     save_interval := 1;
     eval_iters := 1;
     log_interval := 1;
     devices := 1;
     learning_rate := literal (9 # 1000);
     batch_size := Z2Qc 4;
     micro_batch_size := 2;
     gradient_accumulation_iters := 2;
     epoch_size := 4;
     num_epochs := 2;
     max_iters := 4;
     weight_decay := literal (2 # 100);
     warmup_iters := 0 |}.

Definition no_eval_interval_hparams : hparams :=
  {| eval_interval := 0;
     save_interval := 1;
     eval_iters := 1;
     log_interval := 1;
     devices := 1;
     learning_rate := literal (9 # 1000);
     batch_size := Z2Qc 4;
     micro_batch_size := 2;
     gradient_accumulation_iters := 2;
     epoch_size := 4;
     num_epochs := 2;
     max_iters := 4;
     weight_decay := literal (2 # 100);
     warmup_iters := 4 |}.

Definition no_eval_iters_hparams : hparams :=
  {| eval_interval := 60;
     save_interval := 1;
     eval_iters := 0;
     log_interval := 1;
     devices := 1;
     learning_rate := literal (9 # 1000);
     batch_size := Z2Qc 4;
     micro_batch_size := 2;
     gradient_accumulation_iters := 2;
     epoch_size := 4;
     num_epochs := 2;
     max_iters := 4;
     weight_decay := literal (2 # 100);
     warmup_iters := 4 |}.


(** * Properties *)

(** ** Rationals *)

Lemma Z2Qc_this (z : Z) : (this (Z2Qc z) == inject_Z z)%Q.
Proof. unfold Z2Qc. simpl. apply Qred_correct. Qed.

Lemma Z2Qc_le (a b : Z) : (a ≤ b)%Z ↔ (Z2Qc a <= Z2Qc b)%Qc.
Proof. unfold Qcle. rewrite !Z2Qc_this, <- Zle_Qle. reflexivity. Qed.

Lemma Z2Qc_lt (a b : Z) : (a < b)%Z ↔ (Z2Qc a < Z2Qc b)%Qc.
Proof. unfold Qclt. rewrite !Z2Qc_this, <- Zlt_Qlt. reflexivity. Qed.

Lemma Z2Qc_inj (a b : Z) : Z2Qc a = Z2Qc b → a = b.
Proof.
  intros E. apply (f_equal this) in E.
  apply inject_Z_injective.
  rewrite <- (Z2Qc_this a), <- (Z2Qc_this b), E. reflexivity.
Qed.

Lemma floor_bounds (q : Qc) :
  (Z2Qc (Qfloor (this q)) <= q)%Qc ∧ (q < Z2Qc (Qfloor (this q) + 1))%Qc.
Proof.
  unfold Qcle, Qclt. rewrite !Z2Qc_this. split; [apply Qfloor_le | apply Qlt_floor].
Qed.

Lemma floor_positive (q : Qc) : (0 < Qfloor (this q))%Z ↔ (1 <= q)%Qc.
Proof.
  destruct (floor_bounds q) as [Hlo Hhi]. split.
  - intros Hpos. apply Qcle_trans with (Z2Qc (Qfloor (this q))); [|exact Hlo].
    change 1%Qc with (Z2Qc 1). apply (proj1 (Z2Qc_le _ _)). lia.
  - intros Hq. assert (Z2Qc 1 < Z2Qc (Qfloor (this q) + 1))%Qc as Hlt.
    { apply Qcle_lt_trans with q; [exact Hq | exact Hhi]. }
    apply (proj2 (Z2Qc_lt _ _)) in Hlt. lia.
Qed.

(** ** Binary64 rounding *)

Lemma round_half_even_cases (q : Q) :
  (round_half_even q = Qfloor q ∧ (q - inject_Z (Qfloor q) <= 1 # 2)%Q) ∨
  (round_half_even q = Qfloor q + 1 ∧ (1 # 2 <= q - inject_Z (Qfloor q))%Q)%Z.
Proof.
  unfold round_half_even.
  destruct (Qcompare_spec (q - inject_Z (Qfloor q)) (1 # 2)) as [E|E|E].
  - destruct (Z.even (Qfloor q)); [left|right]; (split; [reflexivity|]);
      rewrite E; apply Qle_refl.
  - left. split; [reflexivity | apply Qlt_le_weak, E].
  - right. split; [reflexivity | apply Qlt_le_weak, E].
Qed.

Lemma round_half_even_error (q : Q) :
  (inject_Z (round_half_even q) - q <= 1 # 2 ∧ q - inject_Z (round_half_even q) <= 1 # 2)%Q.
Proof.
  pose proof (Qfloor_le q) as Hlo. pose proof (Qlt_floor q) as Hhi.
  rewrite inject_Z_plus in Hhi.
  destruct (round_half_even_cases q) as [[-> H]|[-> H]];
    rewrite ?inject_Z_plus; change (inject_Z 1) with 1%Q in *; split; Lqa.lra.
Qed.

Lemma round_half_even_Z (z : Z) : round_half_even (inject_Z z) = z.
Proof.
  unfold round_half_even. rewrite Qfloor_Z.
  destruct (Qcompare_spec (inject_Z z - inject_Z z) (1 # 2)) as [E|E|E];
    [Lqa.lra | reflexivity | Lqa.lra].
Qed.

Lemma round_half_even_le (p q : Q) :
  (p <= q)%Q → (round_half_even p ≤ round_half_even q)%Z.
Proof.
  intros Hpq. pose proof (Qfloor_resp_le _ _ Hpq) as Hf.
  destruct (Z.eq_dec (Qfloor p) (Qfloor q)) as [E|N].
  - unfold round_half_even. rewrite E.
    destruct (Qcompare_spec (p - inject_Z (Qfloor q)) (1 # 2)) as [E1|E1|E1];
    destruct (Qcompare_spec (q - inject_Z (Qfloor q)) (1 # 2)) as [E2|E2|E2];
    try destruct (Z.even (Qfloor q)); try lia; Lqa.lra.
  - destruct (round_half_even_cases p) as [[-> _]|[-> _]];
    destruct (round_half_even_cases q) as [[-> _]|[-> _]]; lia.
Qed.

Lemma pow2_pos (e : Z) : (0 < 2 ^ e)%Q.
Proof. apply Qpower_0_lt. reflexivity. Qed.

Lemma pow2_succ (e : Z) : (2 ^ (e + 1) == 2 * 2 ^ e)%Q.
Proof. rewrite Qpower_plus by discriminate. change (2 ^ 1)%Q with 2%Q. ring. Qed.

Lemma pow2_Z (n : Z) : (0 ≤ n)%Z → (inject_Z (2 ^ n) == 2 ^ n)%Q.
Proof. intros Hn. apply (Zpower_Qpower 2 n Hn). Qed.

Lemma Qlog2_spec (q : Q) :
  (0 < q)%Q → (2 ^ Qlog2 q <= q ∧ q < 2 ^ (Qlog2 q + 1))%Q.
Proof.
  intros Hq. destruct q as [p d]. unfold Qlog2. cbn [Qnum Qden].
  assert (0 < p)%Z as Hp by (unfold Qlt in Hq; simpl in Hq; lia).
  destruct (Z.log2_spec p Hp) as [Hp1 Hp2].
  destruct (Z.log2_spec (Z.pos d) (Pos2Z.is_pos d)) as [Hd1 Hd2].
  pose proof (Z.log2_nonneg p) as Hlp. pose proof (Z.log2_nonneg (Z.pos d)) as Hld.
  set (lp := Z.log2 p) in *. set (ld := Z.log2 (Z.pos d)) in *.
  assert (inject_Z (2 ^ lp) <= inject_Z p)%Q as HP1 by (rewrite <- Zle_Qle; exact Hp1).
  assert (inject_Z p < inject_Z (2 ^ Z.succ lp))%Q as HP2 by (rewrite <- Zlt_Qlt; exact Hp2).
  assert (inject_Z (2 ^ ld) <= inject_Z (Z.pos d))%Q as HD1 by (rewrite <- Zle_Qle; exact Hd1).
  assert (inject_Z (Z.pos d) < inject_Z (2 ^ Z.succ ld))%Q as HD2 by (rewrite <- Zlt_Qlt; exact Hd2).
  rewrite pow2_Z in HP1, HP2, HD1, HD2 by lia.
  unfold Z.succ in HP2, HD2. rewrite pow2_succ in HP2, HD2.
  pose proof (pow2_pos lp) as HA. pose proof (pow2_pos ld) as HB.
  pose proof (pow2_pos (lp - ld)) as HK.
  assert (2 ^ (lp - ld) * 2 ^ ld == 2 ^ lp)%Q as HAB.
  { rewrite <- Qpower_plus by discriminate. replace (lp - ld + ld)%Z with lp by lia. reflexivity. }
  assert ((p # d) * inject_Z (Z.pos d) == inject_Z p)%Q as HPD.
  { rewrite (Qmake_Qdiv p d). field. discriminate. }
  set (A := (2 ^ lp)%Q) in *. set (B := (2 ^ ld)%Q) in *. set (K := (2 ^ (lp - ld))%Q) in *.
  set (P := inject_Z p) in *. set (D := inject_Z (Z.pos d)) in *. set (x := p # d) in *.
  destruct (Qle_bool K x) eqn:Hle.
  - apply Qle_bool_iff in Hle. split; [exact Hle|].
    rewrite pow2_succ. fold K.
    Lqa.nra.
  - assert (x < K)%Q as Hlt.
    { apply Qnot_le_lt. intros H. apply Qle_bool_iff in H. congruence. }
    replace (lp - ld - 1 + 1)%Z with (lp - ld)%Z by lia. fold K. split; [|exact Hlt].
    assert (2 * 2 ^ (lp - ld - 1) == K)%Q as HK2.
    { rewrite <- pow2_succ. replace (lp - ld - 1 + 1)%Z with (lp - ld)%Z by lia. reflexivity. }
    pose proof (pow2_pos (lp - ld - 1)) as HK1.
    set (K' := (2 ^ (lp - ld - 1))%Q) in *.
    Lqa.nra.
Qed.

Lemma Qlog2_le (p q : Q) : (0 < p)%Q → (p <= q)%Q → (Qlog2 p ≤ Qlog2 q)%Z.
Proof.
  intros Hp Hpq. assert (0 < q)%Q as Hq by Lqa.lra.
  destruct (Qlog2_spec p Hp) as [Hp1 _]. destruct (Qlog2_spec q Hq) as [_ Hq2].
  assert (2 ^ Qlog2 p < 2 ^ (Qlog2 q + 1))%Q as Hlt by Lqa.lra.
  apply Qpower_lt_compat_l_inv in Hlt; [lia | reflexivity].
Qed.

(** The significand of a positive number: an integer of 53 bits. *)
Lemma significand_bounds (q : Q) :
  (0 < q)%Q →
  (2 ^ 52 ≤ round_half_even (q / 2 ^ (Qlog2 q - 52)) ≤ 2 ^ 53)%Z.
Proof.
  intros Hq. destruct (Qlog2_spec q Hq) as [Hlo Hhi].
  pose proof (pow2_pos (Qlog2 q - 52)) as He.
  assert (2 ^ Qlog2 q == 2 ^ 52 * 2 ^ (Qlog2 q - 52))%Q as E1.
  { rewrite <- Qpower_plus by discriminate. replace (52 + (Qlog2 q - 52))%Z with (Qlog2 q) by lia.
    reflexivity. }
  assert (2 ^ (Qlog2 q + 1) == 2 ^ 53 * 2 ^ (Qlog2 q - 52))%Q as E2.
  { rewrite <- Qpower_plus by discriminate. replace (53 + (Qlog2 q - 52))%Z with (Qlog2 q + 1)%Z by lia.
    reflexivity. }
  rewrite E1 in Hlo. rewrite E2 in Hhi.
  set (u := (2 ^ (Qlog2 q - 52))%Q) in *.
  assert (inject_Z (2 ^ 52) <= q / u)%Q as H1.
  { apply Qle_shift_div_l; [exact He|]. rewrite pow2_Z by lia. exact Hlo. }
  assert (q / u <= inject_Z (2 ^ 53))%Q as H2.
  { apply Qle_shift_div_r; [exact He|]. rewrite pow2_Z by lia. apply Qlt_le_weak, Hhi. }
  apply round_half_even_le in H1, H2. rewrite round_half_even_Z in H1, H2. lia.
Qed.

Lemma round_positive_bounds (q : Q) :
  (0 < q)%Q → (2 ^ Qlog2 q <= round_positive q ∧ round_positive q <= 2 ^ (Qlog2 q + 1))%Q.
Proof.
  intros Hq. destruct (significand_bounds q Hq) as [Hlo Hhi]. unfold round_positive.
  pose proof (pow2_pos (Qlog2 q - 52)) as He.
  assert (2 ^ Qlog2 q == 2 ^ 52 * 2 ^ (Qlog2 q - 52))%Q as E1.
  { rewrite <- Qpower_plus by discriminate. replace (52 + (Qlog2 q - 52))%Z with (Qlog2 q) by lia.
    reflexivity. }
  assert (2 ^ (Qlog2 q + 1) == 2 ^ 53 * 2 ^ (Qlog2 q - 52))%Q as E2.
  { rewrite <- Qpower_plus by discriminate. replace (53 + (Qlog2 q - 52))%Z with (Qlog2 q + 1)%Z by lia.
    reflexivity. }
  rewrite E1, E2. rewrite <- !pow2_Z by lia.
  rewrite Zle_Qle in Hlo, Hhi.
  split; (apply Qmult_le_compat_r; [assumption | apply Qlt_le_weak, He]).
Qed.

Lemma round_positive_le (p q : Q) :
  (0 < p)%Q → (p <= q)%Q → (round_positive p <= round_positive q)%Q.
Proof.
  intros Hp Hpq. assert (0 < q)%Q as Hq by Lqa.lra.
  pose proof (Qlog2_le p q Hp Hpq) as Hl.
  destruct (Z.eq_dec (Qlog2 p) (Qlog2 q)) as [E|N].
  - unfold round_positive. rewrite E.
    pose proof (pow2_pos (Qlog2 q - 52)) as He.
    apply Qmult_le_compat_r; [|apply Qlt_le_weak, He].
    rewrite <- Zle_Qle. apply round_half_even_le.
    apply Qle_shift_div_l; [exact He|].
    assert (p / 2 ^ (Qlog2 q - 52) * 2 ^ (Qlog2 q - 52) == p)%Q as ->; [|exact Hpq].
    field. intros H. rewrite H in He. discriminate.
  - destruct (round_positive_bounds p Hp) as [_ H1].
    destruct (round_positive_bounds q Hq) as [H2 _].
    assert (2 ^ (Qlog2 p + 1) <= 2 ^ Qlog2 q)%Q as H3.
    { apply Qpower_le_compat_l; [lia | discriminate]. }
    Lqa.lra.
Qed.

(** Rounding moves a number by half a unit of its last place at most. *)
Lemma round_positive_error (q : Q) :
  (0 < q)%Q →
  (round_positive q <= q * (1 + (1 # 2 ^ 53)) ∧ q * (1 - (1 # 2 ^ 53)) <= round_positive q)%Q.
Proof.
  intros Hq. destruct (Qlog2_spec q Hq) as [Hlo _]. unfold round_positive.
  pose proof (pow2_pos (Qlog2 q - 52)) as He.
  assert (2 ^ Qlog2 q == 2 ^ 52 * 2 ^ (Qlog2 q - 52))%Q as E1.
  { rewrite <- Qpower_plus by discriminate. replace (52 + (Qlog2 q - 52))%Z with (Qlog2 q) by lia.
    reflexivity. }
  rewrite E1 in Hlo.
  set (u := (2 ^ (Qlog2 q - 52))%Q) in *.
  destruct (round_half_even_error (q / u)) as [H1 H2].
  set (m := inject_Z (round_half_even (q / u))) in *.
  assert (q / u * u == q)%Q as E.
  { field. intros H. rewrite H in He. discriminate. }
  set (x := (q / u)%Q) in *.
  change (2 ^ 52)%Q with (4503599627370496 # 1)%Q in Hlo.
  change (2 ^ 53)%positive with 9007199254740992%positive.
  assert (m * u <= x * u + (1 # 2) * u)%Q as U1.
  { assert (x * u + (1 # 2) * u == (x + (1 # 2)) * u)%Q as -> by ring.
    apply Qmult_le_compat_r; Lqa.lra. }
  assert (x * u - (1 # 2) * u <= m * u)%Q as U2.
  { assert (x * u - (1 # 2) * u == (x - (1 # 2)) * u)%Q as -> by ring.
    apply Qmult_le_compat_r; Lqa.lra. }
  rewrite E in U1, U2.
  split; Lqa.lra.
Qed.

Lemma round_positive_pos (q : Q) : (0 < q)%Q → (0 < round_positive q)%Q.
Proof.
  intros Hq. destruct (round_positive_bounds q Hq) as [H _].
  pose proof (pow2_pos (Qlog2 q)). Lqa.lra.
Qed.

Lemma binary64_le (p q : Q) : (p <= q)%Q → (binary64 p <= binary64 q)%Q.
Proof.
  intros Hpq. unfold binary64.
  destruct (Qcompare_spec p 0) as [Ep|Ep|Ep]; destruct (Qcompare_spec q 0) as [Eq|Eq|Eq];
    try Lqa.lra.
  - pose proof (round_positive_pos q Eq). Lqa.lra.
  - assert (0 < - p)%Q as Hp by Lqa.lra. pose proof (round_positive_pos _ Hp). Lqa.lra.
  - assert (0 < - q)%Q as Hq by Lqa.lra. assert (- q <= - p)%Q as Hle by Lqa.lra.
    pose proof (round_positive_le _ _ Hq Hle). Lqa.lra.
  - assert (0 < - p)%Q as Hp by Lqa.lra. pose proof (round_positive_pos _ Hp).
    pose proof (round_positive_pos q Eq). Lqa.lra.
  - apply round_positive_le; assumption.
Qed.

Lemma binary64_error (q : Q) :
  (0 <= q)%Q →
  (binary64 q <= q * (1 + (1 # 2 ^ 53)) ∧ q * (1 - (1 # 2 ^ 53)) <= binary64 q)%Q.
Proof.
  intros Hq. unfold binary64. destruct (Qcompare_spec q 0) as [E|E|E].
  - rewrite E. split; discriminate.
  - Lqa.lra.
  - apply round_positive_error, E.
Qed.

Lemma fl_0 : fl 0 = 0%Qc.
Proof. reflexivity. Qed.

Lemma fl_le (x y : Qc) : (x <= y)%Qc → (fl x <= fl y)%Qc.
Proof.
  unfold Qcle, fl. intros H. cbn [this Q2Qc]. rewrite !Qred_correct.
  apply binary64_le, H.
Qed.

Lemma fl_nonneg (x : Qc) : (0 <= x)%Qc → (0 <= fl x)%Qc.
Proof. intros H. rewrite <- fl_0. apply fl_le, H. Qed.

Lemma fl_upper (x : Qc) : (0 <= x)%Qc → (fl x <= x * (1 + half_ulp))%Qc.
Proof.
  unfold Qcle, fl, half_ulp. intros H. cbn [this Q2Qc Qcmult Qcplus]. rewrite !Qred_correct.
  apply binary64_error, H.
Qed.

Lemma fl_lower (x : Qc) : (0 <= x)%Qc → (x * (1 - half_ulp) <= fl x)%Qc.
Proof.
  unfold Qcle, fl, half_ulp. intros H.
  cbn [this Q2Qc Qcmult Qcplus Qcminus Qcopp]. rewrite !Qred_correct.
  apply binary64_error, H.
Qed.

(** ** Module level *)

Lemma module_init_done (c : Constants.t) (h : hparams) :
  module_init c = Done h →
  Constants.devices c ≠ 0%Z ∧ Constants.micro_batch_size c ≠ 0%Z ∧
  gradient_accumulation_iters h = Qfloor (this (accumulation_ratio c)) ∧
  (0 < gradient_accumulation_iters h)%Z.
Proof.
  unfold module_init, py_truediv, py_float_floordiv, py_floordiv, accumulation_ratio.
  repeat case_bool_decide; simpl; try discriminate.
  destruct (0 <? _)%Z eqn:Hpos; simpl; try discriminate.
  intros [= <-]. simpl. apply Z.ltb_lt in Hpos. auto.
Qed.

Lemma module_init_fail (c : Constants.t) (e : exn) :
  module_init c = Fail e →
  (e = ZeroDivisionError ∧
   (Constants.devices c = 0%Z ∨ Constants.micro_batch_size c = 0%Z)) ∨
  (e = AssertionError ∧ Constants.devices c ≠ 0%Z ∧ Constants.micro_batch_size c ≠ 0%Z ∧
   (Qfloor (this (accumulation_ratio c)) ≤ 0)%Z).
Proof.
  unfold module_init, py_truediv, py_float_floordiv, py_floordiv, accumulation_ratio.
  repeat case_bool_decide; simpl; try (intros [= <-]; auto; fail).
  destruct (0 <? _)%Z eqn:Hpos; simpl; try discriminate.
  intros [= <-]. apply Z.ltb_ge in Hpos. right. auto.
Qed.

Lemma mbs6_ratio_not_integer : ¬ is_positive_integer (accumulation_ratio repo_constants_mbs6).
Proof.
  intros (n & _ & E).
  assert (E' : (this (accumulation_ratio repo_constants_mbs6) == inject_Z n)%Q).
  { rewrite E. apply Z2Qc_this. }
  assert (Hr : this (accumulation_ratio repo_constants_mbs6) = (32 # 3)%Q) by (vm_compute; reflexivity).
  rewrite Hr in E'. unfold Qeq in E'. simpl in E'. lia.
Qed.

(** ** [loss_fn] *)

Lemma ce_terms_fmap {A} (f : A → list R) (g : A → Z) (ign : Z) (l : list A) :
  (∀ x, x ∈ l → g x ≠ ign → (0 ≤ g x < Z.of_nat (length (f x)))%Z) →
  ce_terms ign (f <$> l) (g <$> l)
  = Done ((λ x, nll (f x) (Z.to_nat (g x))) <$> filter (λ x, g x ≠ ign) l).
Proof.
  induction l as [|a l IH]; intros Hrange; [reflexivity|].
  assert (IH' := IH (λ x Hx, Hrange x (list_elem_of_further _ _ _ Hx))).
  cbn [fmap list_fmap ce_terms]. rewrite filter_cons.
  case_bool_decide as Hign.
  - rewrite decide_False by (intros Hn; apply Hn, Hign). exact IH'.
  - rewrite decide_True by exact Hign.
    rewrite bool_decide_true by (apply Hrange; [left | exact Hign]).
    fold (@fmap list _ A (list R) f l) (@fmap list _ A Z g l).
    rewrite IH'. reflexivity.
Qed.

Lemma nth_tabulate {A} (d : A) (l : list A) :
  l = (λ i, nth i l d) <$> seq 0 (length l).
Proof.
  apply list_eq. intros i. rewrite list_lookup_fmap.
  destruct (decide (i < length l)) as [Hi|Hi].
  - rewrite lookup_seq_lt by exact Hi. simpl.
    destruct (lookup_lt_is_Some_2 l i Hi) as [x Hx]. rewrite Hx.
    f_equal. symmetry. exact (nth_lookup_Some _ _ d _ Hx).
  - rewrite lookup_seq_ge by lia. rewrite lookup_ge_None_2 by lia. reflexivity.
Qed.

Lemma all_but_last_tabulate {A} (d : A) (l : list A) :
  all_but_last l = (λ i, nth i l d) <$> seq 0 (length l - 1).
Proof.
  unfold all_but_last. apply list_eq. intros i. rewrite list_lookup_fmap.
  destruct (decide (i < length l - 1)) as [Hi|Hi].
  - rewrite lookup_take_lt by exact Hi. rewrite lookup_seq_lt by exact Hi. simpl.
    destruct (lookup_lt_is_Some_2 l i ltac:(lia)) as [x Hx]. rewrite Hx.
    f_equal. symmetry. exact (nth_lookup_Some _ _ d _ Hx).
  - rewrite lookup_take_ge by lia. rewrite lookup_seq_ge by lia. reflexivity.
Qed.

Lemma drop_1_tabulate {A} (d : A) (l : list A) :
  drop 1 l = (λ i, nth (S i) l d) <$> seq 0 (length l - 1).
Proof.
  apply list_eq. intros i. rewrite list_lookup_fmap, lookup_drop.
  destruct (decide (i < length l - 1)) as [Hi|Hi].
  - rewrite lookup_seq_lt by exact Hi. simpl.
    destruct (lookup_lt_is_Some_2 l (S i) ltac:(lia)) as [x Hx]. 
    replace (1 + i) with (S i) by lia. rewrite Hx.
    f_equal. symmetry. exact (nth_lookup_Some _ _ d _ Hx).
  - rewrite lookup_seq_ge by lia. rewrite lookup_ge_None_2 by lia. reflexivity.
Qed.

Lemma concat_fmap_prod {A} (F : nat * nat → A) (bs ts : list nat) :
  concat ((λ b, (λ t, F (b, t)) <$> ts) <$> bs) = F <$> list_prod bs ts.
Proof.
  induction bs as [|b bs IH]; [reflexivity|].
  cbn [fmap list_fmap concat list_prod]. rewrite fmap_app, <- IH.
  f_equal. rewrite <- list_fmap_compose. reflexivity.
Qed.

Lemma shape2_nth_length {A} (b s i : nat) (t : list (list A)) :
  shape2 b s t → i < b → length (nth i t []) = s.
Proof.
  intros [Hb Hs] Hi. rewrite Forall_forall in Hs. apply Hs.
  apply list_elem_of_In, nth_In. lia.
Qed.

Lemma shifted_logits (b s v : nat) (logits : list (list (list R))) :
  shape3 b s v logits →
  concat (all_but_last <$> logits) = logits_at logits <$> positions b s.
Proof.
  intros [Hb Hs]. unfold positions. rewrite <- concat_fmap_prod. f_equal.
  rewrite (nth_tabulate [] logits) at 1. rewrite Hb, <- list_fmap_compose.
  apply list_fmap_ext. intros i x Hx. apply lookup_seq in Hx as [-> Hi]. simpl.
  rewrite (all_but_last_tabulate [] (nth i logits [])).
  replace (length (nth i logits [])) with s; [reflexivity|].
  symmetry. rewrite Forall_forall in Hs.
  assert (Hin : nth i logits [] ∈ logits) by (apply list_elem_of_In, nth_In; lia).
  apply Hs in Hin. apply Hin.
Qed.

Lemma shifted_targets (b s : nat) (targets : list (list Z)) :
  shape2 b s targets →
  concat (drop 1 <$> targets) = target_at targets <$> positions b s.
Proof.
  intros Hshape. unfold positions. rewrite <- concat_fmap_prod. f_equal.
  rewrite (nth_tabulate [] targets) at 1. destruct Hshape as [Hb Hs].
  rewrite Hb, <- list_fmap_compose.
  apply list_fmap_ext. intros i x Hx. apply lookup_seq in Hx as [-> Hi]. simpl.
  rewrite (drop_1_tabulate 0%Z (nth i targets [])).
  rewrite (shape2_nth_length b s i targets); [reflexivity| split; assumption | exact Hi].
Qed.

Lemma elem_of_positions (b s : nat) (p : nat * nat) :
  p ∈ positions b s ↔ p.1 < b ∧ p.2 < s - 1.
Proof.
  destruct p as [i j]. unfold positions. rewrite list_elem_of_In, in_prod_iff, !in_seq.
  simpl. lia.
Qed.

Lemma logits_at_length (b s v : nat) (logits : list (list (list R))) (p : nat * nat) :
  shape3 b s v logits → p ∈ positions b s → length (logits_at logits p) = v.
Proof.
  intros [Hb Hs] [Hi Hj]%elem_of_positions. unfold logits_at.
  rewrite Forall_forall in Hs.
  assert (Hrow : shape2 s v (nth p.1 logits [])).
  { apply Hs, list_elem_of_In, nth_In. lia. }
  apply (shape2_nth_length s v p.2 _ Hrow). lia.
Qed.

Lemma loss_fn_eq (b s v : nat) (logits : list (list (list R))) (targets : list (list Z)) :
  shape3 b s v logits →
  shape2 b s targets →
  (∀ p, p ∈ positions b s → counted targets p →
        (0 ≤ target_at targets p < Z.of_nat v)%Z) →
  loss_fn logits targets = Done (masked_mean b s logits targets).
Proof.
  intros Hl Ht Hrange. unfold loss_fn, cross_entropy, masked_mean.
  rewrite (shifted_logits b s v) by exact Hl.
  rewrite (shifted_targets b s) by exact Ht.
  rewrite bool_decide_true by (by rewrite !length_fmap).
  rewrite ce_terms_fmap; [reflexivity|].
  intros p Hp Hc. rewrite (logits_at_length b s v) by assumption.
  apply Hrange; assumption.
Qed.

Lemma masked_mean_ext (b s : nat) (logits logits' : list (list (list R)))
    (targets : list (list Z)) :
  (∀ p, p ∈ positions b s → counted targets p →
        logits_at logits' p = logits_at logits p) →
  masked_mean b s logits' targets = masked_mean b s logits targets.
Proof.
  intros Hsame. unfold masked_mean. f_equal.
  apply list_fmap_ext. intros i p Hp.
  apply list_elem_of_lookup_2, list_elem_of_filter in Hp as [Hc Hp].
  rewrite Hsame by assumption. reflexivity.
Qed.

Lemma nth_alter_ne {A} (d : A) (f : A → A) (i j : nat) (l : list A) :
  i ≠ j → nth j (alter f i l) d = nth j l d.
Proof.
  intros Hne. rewrite !nth_lookup, list_lookup_alter_ne by exact Hne. reflexivity.
Qed.

Lemma set_logit_shape (b s v b0 t0 c : nat) (x : R) (logits : list (list (list R))) :
  shape3 b s v logits → shape3 b s v (set_logit logits b0 t0 c x).
Proof.
  intros [Hb Hs]. unfold set_logit. split; [by rewrite length_alter|].
  apply Forall_alter; [exact Hs|]. intros row _ [Hlen Hrow].
  split; [by rewrite length_alter|].
  apply Forall_alter; [exact Hrow|]. intros r _ Hr. by rewrite length_insert.
Qed.

Lemma set_logit_elsewhere (b0 t0 c : nat) (x : R) (logits : list (list (list R)))
    (p : nat * nat) :
  p ≠ (b0, t0) → logits_at (set_logit logits b0 t0 c x) p = logits_at logits p.
Proof.
  destruct p as [i j]. intros Hne. unfold logits_at, set_logit. simpl.
  destruct (decide (b0 = i)) as [->|Hb]; [|by rewrite nth_alter_ne].
  assert (t0 ≠ j) by congruence.
  rewrite !(nth_lookup _ j), !(nth_lookup _ i), list_lookup_alter_eq.
  destruct (logits !! i) as [row|]; simpl; [|reflexivity].
  by rewrite list_lookup_alter_ne.
Qed.

(** C4: on logits of shape [(b, s, v)] and targets of shape [(b, s)],
    [loss_fn] pairs output [t] with token [t + 1] (the last output and the
    first token are dropped) and returns the mean cross-entropy over exactly
    the positions whose token is not -1; the loss does not depend on the
    logits of any other position, so its derivative in each of them is 0. *)
Theorem loss_fn_masked_mean_cross_entropy (b s v : nat)
    (logits : list (list (list R))) (targets : list (list Z)) :
  shape3 b s v logits →
  shape2 b s targets →
  (∀ p, p ∈ positions b s → counted targets p →
        (0 ≤ target_at targets p < Z.of_nat v)%Z) →
  loss_fn logits targets = Done (masked_mean b s logits targets) ∧
  (∀ logits', shape3 b s v logits' →
     (∀ p, p ∈ positions b s → counted targets p →
           logits_at logits' p = logits_at logits p) →
     loss_fn logits' targets = loss_fn logits targets) ∧
  (∀ b0 t0 c x0,
     target_at targets (b0, t0) = (-1)%Z ∨ s - 1 ≤ t0 →
     derivable_pt_lim
       (λ x, loss_value (loss_fn (set_logit logits b0 t0 c x) targets)) x0 0%R).
Proof.
  intros Hl Ht Hrange.
  assert (Hsame : ∀ logits', shape3 b s v logits' →
     (∀ p, p ∈ positions b s → counted targets p →
           logits_at logits' p = logits_at logits p) →
     loss_fn logits' targets = loss_fn logits targets).
  { intros logits' Hl' Hagree.
    rewrite (loss_fn_eq b s v logits' targets), (loss_fn_eq b s v logits targets)
      by assumption.
    f_equal. apply masked_mean_ext, Hagree. }
  split; [apply (loss_fn_eq b s v); assumption|]. split; [exact Hsame|].
  intros b0 t0 c x0 Hout eps Heps. exists (mkposreal 1 Rlt_0_1). intros d _ _.
  assert (Hconst : ∀ x, loss_fn (set_logit logits b0 t0 c x) targets
                        = loss_fn logits targets).
  { intros x. apply Hsame; [by apply set_logit_shape|].
    intros p Hp Hc. apply set_logit_elsewhere. intros ->.
    apply elem_of_positions in Hp. unfold counted in Hc. simpl in Hp.
    destruct Hout; [contradiction | lia]. }
  rewrite !Hconst.
  replace ((loss_value (loss_fn logits targets) - loss_value (loss_fn logits targets))
             / d - 0)%R with 0%R by (unfold Rdiv; ring).
  rewrite Rabs_R0. exact Heps.
Qed.

Lemma loss_fn_example :
  loss_fn [[[0; 0]; [1; 2]; [3; 4]]%R] [[5; 1; -1]%Z] = Done (Finite (ln 2)).
Proof.
  unfold loss_fn, cross_entropy. simpl. unfold mean, nll, Rsum. simpl.
  do 2 f_equal. rewrite exp_0. replace (1 + (1 + 0))%R with 2%R by lra.
  unfold Rdiv. rewrite Rinv_1. lra.
Qed.

(** ** [collate] *)

Lemma mapM_getitem (data : list example) (ix : list nat) :
  Forall (λ i, i < length data) ix →
  result_mapM (getitem data) ix = Done (picked data ix).
Proof.
  induction 1 as [|i ix Hi _ IH]; [reflexivity|].
  cbn [result_mapM]. rewrite IH. unfold getitem.
  destruct (lookup_lt_is_Some_2 data i Hi) as [e He]. rewrite He. simpl.
  unfold picked. simpl. by rewrite (nth_lookup_Some _ _ no_example _ He).
Qed.

Lemma pad_right_fits (L : Z) (pad_id : Z) (x : list Z) :
  (Z.of_nat (length x) ≤ L)%Z → pad_right L x pad_id = Done (pad_to (Z.to_nat L) pad_id x).
Proof.
  intros Hx. unfold pad_right, pad_to. cbv zeta.
  rewrite bool_decide_false by lia. do 3 f_equal. lia.
Qed.

Lemma pad_right_overflow (L : Z) (pad_id : Z) (x : list Z) :
  (L < Z.of_nat (length x))%Z → pad_right L x pad_id = Fail RuntimeError.
Proof.
  intros Hx. unfold pad_right. cbv zeta. by rewrite bool_decide_true by lia.
Qed.

Lemma mapM_pad_right_fits (L : Z) (pad_id : Z) (xs : list (list Z)) :
  Forall (λ x, (Z.of_nat (length x) ≤ L)%Z) xs →
  result_mapM (λ x, pad_right L x pad_id) xs = Done (pad_to (Z.to_nat L) pad_id <$> xs).
Proof.
  induction 1 as [|x xs Hx _ IH]; [reflexivity|].
  cbn [result_mapM]. rewrite IH, pad_right_fits by exact Hx. reflexivity.
Qed.

Lemma mapM_pad_right_overflow (L : Z) (pad_id : Z) (xs : list (list Z)) :
  Exists (λ x, (L < Z.of_nat (length x))%Z) xs →
  result_mapM (λ x, pad_right L x pad_id) xs = Fail RuntimeError.
Proof.
  induction 1 as [x xs Hx|x xs _ IH]; cbn [result_mapM].
  - by rewrite pad_right_overflow by exact Hx.
  - rewrite IH. unfold pad_right. cbv zeta. by case_bool_decide.
Qed.

Lemma pad_to_length (n : nat) (pad_id : Z) (x : list Z) :
  length x ≤ n → length (pad_to n pad_id x) = n.
Proof. intros Hle. unfold pad_to. rewrite length_app, length_replicate. lia. Qed.

Lemma stack_same_length (n : nat) (ts : list (list Z)) :
  ts ≠ [] → Forall (λ r, length r = n) ts → stack ts = Done ts.
Proof.
  intros Hne Hall. destruct ts as [|t ts]; [done|]. unfold stack.
  apply Forall_cons in Hall as [Ht Hts].
  replace (forallb _ ts) with true; [reflexivity|].
  symmetry. apply forallb_forall. intros r Hr.
  rewrite Forall_forall in Hts. apply Nat.eqb_eq. rewrite Ht.
  apply Hts, list_elem_of_In, Hr.
Qed.

Lemma longest_bounds (seqs : list (list Z)) :
  Forall (λ x, length x ≤ longest seqs) seqs.
Proof.
  unfold longest. induction seqs as [|x seqs IH]; constructor; [cbn; lia|].
  eapply Forall_impl; [exact IH|]. intros y Hy. cbn in *. lia.
Qed.

Lemma padded_shape (n : nat) (pad_id : Z) (xs : list (list Z)) :
  Forall (λ x, length x ≤ n) xs →
  shape2 (length xs) n (pad_to n pad_id <$> xs).
Proof.
  intros Hall. split; [by rewrite length_fmap|].
  apply Forall_fmap. eapply Forall_impl; [exact Hall|].
  intros x Hx. simpl. by apply pad_to_length.
Qed.

(** What [collate] returns when every picked sequence fits the pad length. *)
Lemma collate_fits (on_xla : bool) (data : list example) (msl : Z) (ix : list nat) :
  ix ≠ [] →
  Forall (λ i, i < length data) ix →
  let batch := picked data ix in
  let L := pad_length on_xla msl batch in
  Forall (λ e, (Z.of_nat (length (input_ids e)) ≤ L)%Z) batch →
  Forall (λ e, (Z.of_nat (length (labels e)) ≤ L)%Z) batch →
  collate on_xla data msl ix
  = Done (pad_to (Z.to_nat L) 0 ∘ input_ids <$> batch,
          pad_to (Z.to_nat L) (-1) ∘ labels <$> batch).
Proof.
  intros Hne Hix batch L Hin Hlab. unfold collate.
  rewrite mapM_getitem by exact Hix. cbn [result_bind]. fold batch.
  assert (Hbatch : batch ≠ []).
  { unfold batch, picked. by destruct ix. }
  assert (HL : (if negb on_xla then max_length (input_ids <$> batch) else Done msl)
               = Done L).
  { unfold L, pad_length. destruct on_xla; [reflexivity|]. simpl.
    unfold max_length. destruct batch; [done|reflexivity]. }
  rewrite HL. cbn [result_bind].
  rewrite mapM_pad_right_fits by (by apply Forall_fmap).
  cbn [result_bind].
  assert (HLnat : ∀ n : nat, (Z.of_nat n ≤ L)%Z → n ≤ Z.to_nat L) by (intros; lia).
  rewrite (stack_same_length (Z.to_nat L)); cycle 1.
  { by destruct batch. }
  { apply Forall_fmap, Forall_fmap. eapply Forall_impl; [exact Hin|].
    intros e He. simpl. apply pad_to_length, HLnat, He. }
  cbn [result_bind].
  rewrite mapM_pad_right_fits by (by apply Forall_fmap).
  cbn [result_bind].
  rewrite (stack_same_length (Z.to_nat L)); cycle 1.
  { by destruct batch. }
  { apply Forall_fmap, Forall_fmap. eapply Forall_impl; [exact Hlab|].
    intros e He. simpl. apply pad_to_length, HLnat, He. }
  cbn [result_bind]. by rewrite <- !list_fmap_compose.
Qed.

(** [collate] raises as soon as one picked [labels] is longer than the pad
    length, whatever the inputs are. *)
Lemma collate_labels_overflow (on_xla : bool) (data : list example) (msl : Z)
    (ix : list nat) :
  ix ≠ [] →
  Forall (λ i, i < length data) ix →
  let batch := picked data ix in
  let L := pad_length on_xla msl batch in
  Forall (λ e, (Z.of_nat (length (input_ids e)) ≤ L)%Z) batch →
  Exists (λ e, (L < Z.of_nat (length (labels e)))%Z) batch →
  collate on_xla data msl ix = Fail RuntimeError.
Proof.
  intros Hne Hix batch L Hin Hlab. unfold collate.
  rewrite mapM_getitem by exact Hix. cbn [result_bind]. fold batch.
  assert (Hbatch : batch ≠ []).
  { unfold batch, picked. by destruct ix. }
  assert (HL : (if negb on_xla then max_length (input_ids <$> batch) else Done msl)
               = Done L).
  { unfold L, pad_length. destruct on_xla; [reflexivity|]. simpl.
    unfold max_length. destruct batch; [done|reflexivity]. }
  rewrite HL. cbn [result_bind].
  rewrite mapM_pad_right_fits by (by apply Forall_fmap).
  cbn [result_bind].
  assert (HLnat : ∀ n : nat, (Z.of_nat n ≤ L)%Z → n ≤ Z.to_nat L) by (intros; lia).
  rewrite (stack_same_length (Z.to_nat L)); cycle 1.
  { by destruct batch. }
  { apply Forall_fmap, Forall_fmap. eapply Forall_impl; [exact Hin|].
    intros e He. simpl. apply pad_to_length, HLnat, He. }
  cbn [result_bind].
  rewrite mapM_pad_right_overflow; [reflexivity|].
  apply Exists_fmap. exact Hlab.
Qed.

(** ** The module level, further *)

Lemma floor_not_positive (q : Qc) : (Qfloor (this q) ≤ 0)%Z ↔ (q < 1)%Qc.
Proof.
  split.
  - intros Hle. apply Qcnot_le_lt. intros Hq. apply floor_positive in Hq. lia.
  - intros Hlt. destruct (Z_lt_le_dec 0 (Qfloor (this q))) as [Hpos|Hle]; [|exact Hle].
    apply floor_positive in Hpos. by apply Qclt_not_le in Hlt.
Qed.

(** What the module level leaves in the namespace when it succeeds. *)
Lemma module_init_values (c : Constants.t) (h : hparams) :
  module_init c = Done h →
  Constants.devices c ≠ 0%Z ∧ Constants.micro_batch_size c ≠ 0%Z ∧
  (0 < gradient_accumulation_iters h)%Z ∧
  max_iters h
  = ((Constants.num_epochs c * (Constants.epoch_size c `div` Constants.micro_batch_size c))
       `div` Constants.devices c)%Z ∧
  warmup_iters h
  = ((2 * (Constants.epoch_size c `div` Constants.micro_batch_size c))
       `div` Constants.devices c)%Z.
Proof.
  unfold module_init, py_truediv, py_float_floordiv, py_floordiv.
  repeat case_bool_decide; simpl; try discriminate.
  destruct (0 <? _)%Z eqn:Hpos; simpl; try discriminate.
  intros [= <-]. simpl. apply Z.ltb_lt in Hpos. auto.
Qed.

(** X1: the module level fails in two ways only: a division by zero when
    [devices] or [micro_batch_size] is 0 (lines 34 and 36), and the assertion
    of line 37 when both are non-zero and [batch_size / micro_batch_size] is
    below 1, which includes every negative quotient. *)
Theorem module_init_error_kinds (c : Constants.t) :
  (module_init c = Fail ZeroDivisionError ↔
   Constants.devices c = 0%Z ∨ Constants.micro_batch_size c = 0%Z) ∧
  (module_init c = Fail AssertionError ↔
   Constants.devices c ≠ 0%Z ∧ Constants.micro_batch_size c ≠ 0%Z ∧
   (accumulation_ratio c < 1)%Qc) ∧
  (∀ e, module_init c = Fail e → e = ZeroDivisionError ∨ e = AssertionError).
Proof.
  split; [|split].
  - split.
    + intros [[_ Hz]|[He _]]%module_init_fail; [exact Hz | discriminate].
    + intros Hz. unfold module_init, py_truediv, py_float_floordiv.
      destruct (decide (Constants.devices c = 0%Z)) as [Hd|Hd].
      * by rewrite bool_decide_true by exact Hd.
      * rewrite bool_decide_false by exact Hd. cbn [result_bind].
        destruct Hz as [Hz|Hz]; [contradiction|].
        by rewrite bool_decide_true by exact Hz.
  - split.
    + intros [[He _]|(_ & Hd & Hm & Hfloor)]%module_init_fail; [discriminate|].
      split; [exact Hd|]. split; [exact Hm|]. by apply floor_not_positive.
    + intros (Hd & Hm & Hratio). apply floor_not_positive in Hratio.
      unfold module_init, py_truediv, py_float_floordiv.
      rewrite !bool_decide_false by assumption. cbn [result_bind].
      unfold accumulation_ratio in Hratio. apply Z.ltb_ge in Hratio.
      by rewrite Hratio.
  - intros e [[-> _]|[-> _]]%module_init_fail; auto.
Qed.

(** X2: [warmup_iters] counts iterations, the loop compares it with the number of
    optimizer steps: a run makes [max_iters // gradient_accumulation_iters]
    of them, which is no more than [warmup_iters] as soon as [num_epochs] is
    at most twice [gradient_accumulation_iters]. *)
Theorem warmup_spans_all_steps (c : Constants.t) (h : hparams) :
  module_init c = Done h →
  (0 < Constants.devices c)%Z →
  (0 < Constants.micro_batch_size c)%Z →
  (0 ≤ Constants.epoch_size c)%Z →
  (Constants.num_epochs c ≤ 2 * gradient_accumulation_iters h)%Z →
  (max_iters h `div` gradient_accumulation_iters h ≤ warmup_iters h)%Z.
Proof.
  intros (_ & _ & HG & -> & ->)%module_init_values Hd Hm He Hn.
  set (P := (Constants.epoch_size c `div` Constants.micro_batch_size c)%Z).
  set (G := gradient_accumulation_iters h) in *.
  set (d := Constants.devices c) in *.
  assert (HP : (0 ≤ P)%Z) by (apply Z.div_pos; lia).
  rewrite Z.div_div by lia.
  rewrite <- (Z.div_mul_cancel_r (2 * P) d G) by lia.
  apply Z.div_le_mono; [lia|]. nia.
Qed.

(** ** [loss_fn], further *)

Lemma Rsum_exp_positive (row : list R) : (0 <= Rsum (map exp row))%R.
Proof.
  induction row as [|x row IH]; simpl; [lra|].
  pose proof (exp_pos x). lra.
Qed.

Lemma Rsum_exp_bounds (row : list R) (t : nat) :
  t < length row → (exp (nth t row 0) <= Rsum (map exp row))%R.
Proof.
  revert t. induction row as [|x row IH]; intros t Ht; simpl in Ht; [lia|].
  destruct t as [|t]; simpl.
  - pose proof (Rsum_exp_positive row). lra.
  - specialize (IH t ltac:(lia)). pose proof (exp_pos x). lra.
Qed.

Lemma nll_nonnegative (row : list R) (t : nat) : t < length row → (0 <= nll row t)%R.
Proof.
  intros Ht. unfold nll. pose proof (Rsum_exp_bounds row t Ht) as Hb.
  pose proof (exp_pos (nth t row 0%R)) as Hpos.
  assert (nth t row 0 <= ln (Rsum (map exp row)))%R; [|lra].
  rewrite <- (ln_exp (nth t row 0%R)) at 1.
  destruct Hb as [Hlt| ->]; [|lra]. left. apply ln_increasing; assumption.
Qed.

Lemma Rsum_nonnegative (l : list R) : Forall (λ x, (0 <= x)%R) l → (0 <= Rsum l)%R.
Proof. induction 1 as [|x l Hx _ IH]; simpl; lra. Qed.

Lemma mean_nonnegative (l : list R) (r : R) :
  Forall (λ x, (0 <= x)%R) l → mean l = Finite r → (0 <= r)%R.
Proof.
  intros Hl. destruct l as [|x l]; [discriminate|]. unfold mean. intros [= <-].
  apply Rsum_nonnegative in Hl. unfold Rdiv. apply Rmult_le_pos; [exact Hl|].
  left. apply Rinv_0_lt_compat, (lt_0_INR (S (length l))). lia.
Qed.

Lemma mean_nan (l : list R) : mean l = NaN ↔ l = [].
Proof. destruct l; split; intros; done. Qed.

(** X16: on tensors of matching shapes with targets in the vocabulary, [loss_fn]
    returns a loss that is never negative (or the not-a-number of an empty
    mean). *)
Theorem loss_fn_nonnegative (b s v : nat)
    (logits : list (list (list R))) (targets : list (list Z)) :
  shape3 b s v logits →
  shape2 b s targets →
  (∀ p, p ∈ positions b s → counted targets p →
        (0 ≤ target_at targets p < Z.of_nat v)%Z) →
  ∃ l, loss_fn logits targets = Done l ∧ ∀ r, l = Finite r → (0 <= r)%R.
Proof.
  intros Hl Ht Hrange. eexists. split; [by apply (loss_fn_eq b s v)|].
  intros r Hr. unfold masked_mean in Hr. eapply mean_nonnegative; [|exact Hr].
  apply Forall_fmap, Forall_forall. intros p [Hc Hp]%list_elem_of_filter. simpl.
  apply nll_nonnegative. rewrite (logits_at_length b s v) by assumption.
  specialize (Hrange p Hp Hc). lia.
Qed.

(** X17: the loss is not-a-number, and no error, exactly when no position is left
    to count: every target past the first of its sequence is -1, or the
    sequences have a single step, or the batch is empty. *)
Theorem loss_fn_nan_without_targets (b s v : nat)
    (logits : list (list (list R))) (targets : list (list Z)) :
  shape3 b s v logits →
  shape2 b s targets →
  (∀ p, p ∈ positions b s → counted targets p →
        (0 ≤ target_at targets p < Z.of_nat v)%Z) →
  loss_fn logits targets = Done NaN ↔
  ∀ p, p ∈ positions b s → target_at targets p = (-1)%Z.
Proof.
  intros Hl Ht Hrange. rewrite (loss_fn_eq b s v) by assumption.
  unfold masked_mean. split.
  - intros [= Hnan]. apply mean_nan, fmap_nil_inv in Hnan.
    intros p Hp. destruct (decide (target_at targets p = (-1)%Z)) as [E|E]; [exact E|].
    assert (Hin : p ∈ filter (counted targets) (positions b s)).
    { apply list_elem_of_filter. split; assumption. }
    rewrite Hnan in Hin. by apply not_elem_of_nil in Hin.
  - intros Hall. f_equal. apply mean_nan.
    destruct (filter (counted targets) (positions b s)) as [|p ps] eqn:E; [reflexivity|].
    assert (Hin : p ∈ filter (counted targets) (positions b s)) by (rewrite E; left).
    apply list_elem_of_filter in Hin as [Hc Hp]. destruct Hc. apply Hall, Hp.
Qed.

(** ** [collate], further *)

(** [collate] raises as soon as one picked [input_ids] is longer than the pad
    length, which only a fixed pad length allows. *)
Lemma collate_inputs_overflow (data : list example) (msl : Z) (ix : list nat) :
  Forall (λ i, i < length data) ix →
  Exists (λ e, (msl < Z.of_nat (length (input_ids e)))%Z) (picked data ix) →
  collate true data msl ix = Fail RuntimeError.
Proof.
  intros Hix Hex. unfold collate.
  rewrite mapM_getitem by exact Hix. cbn [result_bind negb].
  rewrite mapM_pad_right_overflow; [reflexivity|].
  apply Exists_fmap. exact Hex.
Qed.

Lemma nth_pad_to (n : nat) (pad_id : Z) (x : list Z) (j : nat) :
  j < n →
  nth j (pad_to n pad_id x) 0%Z = if decide (j < length x) then nth j x 0%Z else pad_id.
Proof.
  intros Hj. unfold pad_to. destruct (decide (j < length x)) as [Hlt|Hge].
  - by rewrite app_nth1 by exact Hlt.
  - rewrite app_nth2 by lia. rewrite nth_lookup, lookup_replicate_2 by lia. reflexivity.
Qed.

(** In a batch of labels padded with -1 the positions [loss_fn] counts are
    those of the examples' own labels. *)
Lemma padded_labels_counted (L : nat) (batch : list example) (p : nat * nat) :
  p ∈ positions (length batch) L →
  counted (pad_to L (-1) ∘ labels <$> batch) p ↔ real_label batch p.
Proof.
  intros [Hi Hj]%elem_of_positions. unfold counted, target_at, real_label.
  destruct (lookup_lt_is_Some_2 batch p.1 Hi) as [e He].
  rewrite (nth_lookup_Some _ _ no_example _ He).
  assert (Hrow : nth p.1 (pad_to L (-1) ∘ labels <$> batch) []
                 = pad_to L (-1) (labels e)).
  { apply nth_lookup_Some. by rewrite list_lookup_fmap, He. }
  rewrite Hrow, nth_pad_to by lia. cbv zeta.
  destruct (decide (S p.2 < length (labels e))) as [Hlt|Hge]; [tauto|].
  split; [done|]. intros [Hlt _]. contradiction.
Qed.

(** ** Checkpoint names *)

Lemma zeros_stripped (k : nat) (s : string) :
  strip_zeros (String.concat "" (replicate k "0") +:+ s) = strip_zeros s.
Proof. induction k as [|k IH]; [reflexivity|]. destruct k; exact IH. Qed.

Lemma pretty_N_char_not_zero (x : N) (s : string) :
  (0 < x < 10)%N → strip_zeros (String (pretty_N_char x) s) = String (pretty_N_char x) s.
Proof.
  intros Hx.
  assert (x = 1 ∨ x = 2 ∨ x = 3 ∨ x = 4 ∨ x = 5 ∨ x = 6 ∨ x = 7 ∨ x = 8 ∨ x = 9)%N
    as Hcases by lia.
  repeat (destruct Hcases as [->|Hcases]; [reflexivity|]). by subst.
Qed.

(** The digits of a positive number do not start with a zero. *)
Lemma pretty_N_go_stripped (x : N) (s : string) :
  (0 < x)%N → strip_zeros (pretty_N_go x s) = pretty_N_go x s.
Proof.
  revert s. induction (N.lt_wf_0 x) as [x _ IH]. intros s Hx.
  rewrite pretty_N_go_step by exact Hx.
  destruct (decide (x < 10)%N) as [Hsmall|Hbig].
  - rewrite N.div_small by exact Hsmall. rewrite pretty_N_go_0.
    rewrite N.mod_small by exact Hsmall. apply pretty_N_char_not_zero. lia.
  - apply IH; [apply N.div_lt; lia|]. apply N.div_str_pos. lia.
Qed.

Lemma pretty_N_go_not_empty (x : N) (s : string) :
  (0 < x)%N → pretty_N_go x s ≠ "".
Proof.
  revert s. induction (N.lt_wf_0 x) as [x _ IH]. intros s Hx.
  rewrite pretty_N_go_step by exact Hx.
  destruct (decide (x < 10)%N) as [Hsmall|Hbig].
  - rewrite N.div_small by exact Hsmall. by rewrite pretty_N_go_0.
  - apply IH; [apply N.div_lt; lia|]. apply N.div_str_pos. lia.
Qed.

(** The digits of a number that is not negative, read back off its padded
    form. *)
Lemma format_06d_stripped (n : Z) :
  (0 ≤ n)%Z →
  strip_zeros (format_06d n) = if decide (n = 0%Z) then "" else pretty n.
Proof.
  intros Hn. unfold format_06d. rewrite bool_decide_false by lia.
  rewrite zeros_stripped, Z.abs_eq by exact Hn.
  destruct n as [|n|n]; [reflexivity| |lia].
  rewrite decide_False by lia. unfold pretty, pretty_Z, pretty, pretty_positive.
  unfold pretty, pretty_N. rewrite decide_False by lia.
  apply pretty_N_go_stripped. lia.
Qed.

Lemma format_06d_inj (i j : Z) :
  (0 ≤ i)%Z → (0 ≤ j)%Z → format_06d i = format_06d j → i = j.
Proof.
  intros Hi Hj E. apply (f_equal strip_zeros) in E.
  rewrite !format_06d_stripped in E by assumption.
  assert (Hne : ∀ n : Z, (0 < n)%Z → pretty n ≠ "").
  { intros [|n|n] Hn; [lia| |lia]. unfold pretty, pretty_Z, pretty, pretty_positive.
    unfold pretty, pretty_N. rewrite decide_False by lia.
    apply pretty_N_go_not_empty. lia. }
  destruct (decide (i = 0%Z)) as [->|Hi0], (decide (j = 0%Z)) as [->|Hj0].
  - reflexivity.
  - symmetry in E. apply Hne in E; [done | lia].
  - apply Hne in E; [done | lia].
  - by apply (inj pretty).
Qed.

Lemma string_app_inj_l (p s1 s2 : string) : p +:+ s1 = p +:+ s2 → s1 = s2.
Proof. induction p as [|c p IH]; [done|]. intros [= E]. by apply IH. Qed.

Lemma list_ascii_of_app (s t : string) :
  String.list_ascii_of_string (s +:+ t)
  = String.list_ascii_of_string s ++ String.list_ascii_of_string t.
Proof.
  induction s as [|c s IH]; [reflexivity|].
  change (String c s +:+ t) with (String c (s +:+ t)). simpl. by rewrite <- IH.
Qed.

Lemma string_app_inj_r (s1 s2 t : string) : s1 +:+ t = s2 +:+ t → s1 = s2.
Proof.
  intros E. apply (f_equal String.list_ascii_of_string) in E.
  rewrite !list_ascii_of_app in E. apply app_inv_tail in E.
  apply (f_equal String.string_of_list_ascii) in E.
  by rewrite !String.string_of_list_ascii_of_string in E.
Qed.

(** X20: two iterations never write the same checkpoint file, and none writes the
    file of the final checkpoint. *)
Theorem checkpoint_paths_distinct (out_dir : string) (i j : Z) :
  (0 ≤ i)%Z → (0 ≤ j)%Z → i ≠ j →
  iter_checkpoint_path out_dir i ≠ iter_checkpoint_path out_dir j ∧
  iter_checkpoint_path out_dir i ≠ final_checkpoint_path out_dir.
Proof.
  intros Hi Hj Hne. unfold iter_checkpoint_path, final_checkpoint_path, path_join. split.
  - intros E. apply string_app_inj_l, string_app_inj_l, string_app_inj_l in E.
    apply string_app_inj_r in E. by apply format_06d_inj in E.
  - intros E. apply string_app_inj_l, string_app_inj_l in E. discriminate.
Qed.

(** ** The script under its collaborators *)

Section Run.
Context {C : Collaborators} (h : hparams) (fabric : Fabric).

Hypothesis randint_range : ∀ high size r,
  0 < high →
  length (randint high size r).1 = size ∧ Forall (λ i, i < high) (randint high size r).1.

Variable vocab_size : nat.
Hypothesis forward_shape : ∀ sd x b s,
  shape2 b s x → shape3 b s vocab_size (forward sd x).

Lemma get_batch_run (data : list example) (msl : Z) (w : world) :
  data ≠ [] →
  (0 ≤ micro_batch_size h)%Z →
  let draw := randint (length data) (Z.to_nat (micro_batch_size h)) (rng w) in
  get_batch h fabric data msl w
  = match collate (on_xla fabric) data msl draw.1 with
    | Done (x, y) =>
        Ok ({| rows := x; placed_on := device_type fabric |},
            {| rows := y; placed_on := device_type fabric |}) (set_rng draw.2 w)
    | Fail e => Raise e (set_rng draw.2 w)
    end.
Proof.
  intros Hdata Hmbs draw. unfold get_batch, bind, draw_indices.
  rewrite bool_decide_false by (by destruct data).
  rewrite bool_decide_false by lia.
  fold draw. destruct draw as [ix r]. simpl.
  destruct (collate _ _ _ _) as [[x y]|e]; reflexivity.
Qed.

Lemma drawn_indices (data : list example) (w : world) :
  data ≠ [] →
  (0 < micro_batch_size h)%Z →
  let ix := (randint (length data) (Z.to_nat (micro_batch_size h)) (rng w)).1 in
  ix ≠ [] ∧ length ix = Z.to_nat (micro_batch_size h) ∧
  Forall (λ i, i < length data) ix.
Proof.
  intros Hdata Hmbs ix.
  destruct (randint_range (length data) (Z.to_nat (micro_batch_size h)) (rng w))
    as [Hlen Hrange].
  { destruct data; [done | simpl; lia]. }
  fold ix in Hlen, Hrange. split; [|split; assumption].
  intros E. rewrite E in Hlen. simpl in Hlen. lia.
Qed.

Lemma picked_Forall (P : example → Prop) (data : list example) (ix : list nat) :
  Forall P data → Forall (λ i, i < length data) ix → Forall P (picked data ix).
Proof.
  intros HP Hix. unfold picked. apply Forall_fmap.
  eapply Forall_impl; [exact Hix|]. intros i Hi. simpl.
  rewrite Forall_forall in HP. apply HP, list_elem_of_In, nth_In, Hi.
Qed.

Lemma picked_length (data : list example) (ix : list nat) :
  length (picked data ix) = length ix.
Proof. unfold picked. by rewrite length_fmap. Qed.

Lemma pad_to_valid (v n : nat) (x : list Z) :
  Forall (valid_target v) x → Forall (valid_target v) (pad_to n (-1) x).
Proof.
  intros Hx. unfold pad_to. apply Forall_app. split; [exact Hx|].
  apply Forall_replicate. by left.
Qed.

(** On a dataset that fits, [get_batch] returns two tensors of one shape, and
    only the generator moves. *)
Lemma get_batch_fits (data : list example) (msl : Z) (w : world) :
  dataset_fits (on_xla fabric) msl vocab_size data →
  (0 < micro_batch_size h)%Z →
  ∃ x y r s,
    get_batch h fabric data msl w = Ok (x, y) (set_rng r w) ∧
    shape2 (Z.to_nat (micro_batch_size h)) s (rows x) ∧
    shape2 (Z.to_nat (micro_batch_size h)) s (rows y) ∧
    Forall (Forall (valid_target vocab_size)) (rows y).
Proof.
  intros [Hdata Hfits] Hmbs.
  destruct (drawn_indices data w Hdata Hmbs) as (Hne & Hlen & Hrange).
  rewrite get_batch_run by (assumption || lia).
  set (draw := randint _ _ _) in *. set (ix := draw.1) in *.
  pose proof (picked_Forall _ data ix Hfits Hrange) as Hbatch.
  set (batch := picked data ix) in *.
  set (L := pad_length (on_xla fabric) msl batch).
  assert (Hin : Forall (λ e, (Z.of_nat (length (input_ids e)) ≤ L)%Z) batch).
  { unfold L, pad_length. destruct (on_xla fabric) eqn:Hx.
    - eapply Forall_impl; [exact Hbatch|]. intros e (_ & He & _). by apply He.
    - pose proof (longest_bounds (input_ids <$> batch)) as Hb.
      apply Forall_fmap in Hb. eapply Forall_impl; [exact Hb|].
      intros e He. simpl in He. lia. }
  assert (Hlab : Forall (λ e, (Z.of_nat (length (labels e)) ≤ L)%Z) batch).
  { rewrite Forall_forall in Hin, Hbatch. apply Forall_forall. intros e He.
    specialize (Hin e He). destruct (Hbatch e He) as (Hle & _). lia. }
  rewrite (collate_fits (on_xla fabric) data msl ix Hne Hrange Hin Hlab).
  fold batch L. eexists _, _, _, (Z.to_nat L). split; [reflexivity|]. simpl.
  assert (HLnat : ∀ n : nat, (Z.of_nat n ≤ L)%Z → n ≤ Z.to_nat L) by (intros; lia).
  assert (Hb : length batch = Z.to_nat (micro_batch_size h)).
  { unfold batch. by rewrite picked_length. }
  split; [|split].
  - rewrite <- Hb, list_fmap_compose, <- (length_fmap input_ids).
    apply padded_shape, Forall_fmap.
    eapply Forall_impl; [exact Hin|]. intros e He. simpl. by apply HLnat.
  - rewrite <- Hb, list_fmap_compose, <- (length_fmap labels).
    apply padded_shape, Forall_fmap.
    eapply Forall_impl; [exact Hlab|]. intros e He. simpl. by apply HLnat.
  - apply Forall_fmap. eapply Forall_impl; [exact Hbatch|].
    intros e (_ & _ & He). simpl. by apply pad_to_valid.
Qed.

Lemma valid_targets_in_range (b s : nat) (targets : list (list Z)) (p : nat * nat) :
  shape2 b s targets →
  Forall (Forall (valid_target vocab_size)) targets →
  p ∈ positions b s → counted targets p →
  (0 ≤ target_at targets p < Z.of_nat vocab_size)%Z.
Proof.
  intros Hshape Hvalid [Hi Hj]%elem_of_positions Hc. unfold counted, target_at in *.
  assert (Hrow : nth p.1 targets [] ∈ targets).
  { apply list_elem_of_In, nth_In. destruct Hshape as [-> _]. exact Hi. }
  assert (Hlen : length (nth p.1 targets []) = s).
  { by apply (shape2_nth_length b s). }
  rewrite Forall_forall in Hvalid. specialize (Hvalid _ Hrow).
  rewrite Forall_forall in Hvalid.
  destruct (Hvalid (nth (S p.2) (nth p.1 targets []) 0%Z)) as [Hign|Hok];
    [apply list_elem_of_In, nth_In; lia | contradiction | exact Hok].
Qed.

Lemma batch_loss_defined (sd : state_dict) (x y : list (list Z)) (b s : nat) :
  shape2 b s x → shape2 b s y →
  Forall (Forall (valid_target vocab_size)) y →
  loss_fn (forward sd x) y = Done (masked_mean b s (forward sd x) y).
Proof.
  intros Hx Hy Hvalid. apply (loss_fn_eq b s vocab_size); [by apply forward_shape|exact Hy|].
  intros p Hp Hc. by apply (valid_targets_in_range b s).
Qed.

Lemma validate_step_run (data : list example) (msl : Z) (k : Z) (losses : list scalar)
    (w : world) :
  dataset_fits (on_xla fabric) msl vocab_size data →
  (0 < micro_batch_size h)%Z →
  ∃ x y r loss,
    validate_step h fabric data msl k losses w
    = Ok (<[Z.to_nat k := loss]> losses)
         (add_event (ForwardPass (grad_enabled w) (rows x)) (set_rng r w)) ∧
    loss_fn (forward (model_state w) (rows x)) (rows y) = Done loss ∧
    get_batch h fabric data msl w = Ok (x, y) (set_rng r w).
Proof.
  intros Hfits Hmbs.
  destruct (get_batch_fits data msl w Hfits Hmbs) as (x & y & r & s & Hget & Hx & Hy & Hv).
  pose proof (batch_loss_defined (model_state w) _ _ _ _ Hx Hy Hv) as Hloss.
  exists x, y, r, (masked_mean (Z.to_nat (micro_batch_size h)) s
                     (forward (model_state w) (rows x)) (rows y)).
  split; [|by split].
  unfold validate_step, bind. rewrite Hget. unfold call_model. simpl.
  rewrite Hloss. reflexivity.
Qed.

(** What [get_batch] returns depends on the generator alone. *)
Lemma get_batch_rng (data : list example) (msl : Z) (w1 w2 : world) :
  rng w1 = rng w2 →
  match get_batch h fabric data msl w1, get_batch h fabric data msl w2 with
  | Ok b1 w1', Ok b2 w2' => b1 = b2 ∧ rng w1' = rng w2'
  | Raise _ _, Raise _ _ => True
  | _, _ => False
  end.
Proof.
  intros E. unfold get_batch, bind, draw_indices, lift, ret. rewrite E.
  repeat case_bool_decide; try done.
  destruct (randint _ _ _) as [ix r]. by destruct (collate _ _ _ _) as [[x y]|e].
Qed.

Lemma drawn_batches_rng (data : list example) (msl : Z) (n : nat) (w1 w2 : world) :
  rng w1 = rng w2 →
  drawn_batches h fabric data msl n w1 = drawn_batches h fabric data msl n w2.
Proof.
  revert w1 w2. induction n as [|n IH]; intros w1 w2 E; [reflexivity|]. simpl.
  pose proof (get_batch_rng data msl w1 w2 E) as Hb.
  destruct (get_batch h fabric data msl w1) as [b1 w1'|e1 w1'],
    (get_batch h fabric data msl w2) as [b2 w2'|e2 w2']; try done.
  destruct Hb as [-> E']. f_equal. by apply IH.
Qed.

Lemma for_each_cons {S} (body : Z → S → M S) (i : Z) (l : list Z) (s : S) (w : world) :
  for_each body (i :: l) s w
  = match body i s w with
    | Ok s' w' => for_each body l s' w'
    | Raise e w' => Raise e w'
    end.
Proof. reflexivity. Qed.

Lemma untouched_refl (w : world) : untouched w w.
Proof. by repeat split. Qed.

Lemma untouched_trans (w1 w2 w3 : world) :
  untouched w1 w2 → untouched w2 w3 → untouched w1 w3.
Proof. unfold untouched. intros. intuition congruence. Qed.

Lemma validate_loop (data : list example) (msl : Z) :
  dataset_fits (on_xla fabric) msl vocab_size data →
  (0 < micro_batch_size h)%Z →
  ∀ (n : nat) (filled : list scalar) (w : world),
  ∃ batches losses w',
    for_each (validate_step h fabric data msl) (Z.of_nat <$> seq (length filled) n)
      (filled ++ replicate n (Finite 0)) w
    = Ok (filled ++ losses) w' ∧
    length batches = n ∧
    batch_losses (model_state w) batches losses ∧
    trace w' = trace w ++ ((λ b, ForwardPass (grad_enabled w) (rows b.1)) <$> batches) ∧
    untouched w w' ∧
    batches = drawn_batches h fabric data msl n w.
Proof.
  intros Hfits Hmbs. induction n as [|n IH]; intros filled w.
  - exists [], [], w. simpl. rewrite !app_nil_r.
    repeat split; try done. constructor.
  - cbn [seq fmap list_fmap]. rewrite for_each_cons.
    destruct (validate_step_run data msl (Z.of_nat (length filled))
                (filled ++ replicate (S n) (Finite 0)) w Hfits Hmbs)
      as (x & y & r & loss & -> & Hloss & Hget).
    rewrite Nat2Z.id.
    replace (<[length filled := loss]> (filled ++ replicate (S n) (Finite 0)))
      with ((filled ++ [loss]) ++ replicate n (Finite 0)); cycle 1.
    { rewrite insert_app_r_alt by lia. rewrite Nat.sub_diag. simpl.
      by rewrite <- app_assoc. }
    set (w1 := add_event _ _).
    destruct (IH (filled ++ [loss]) w1)
      as (batches & losses & w' & Hrun & Hlen & Hbl & Htr & Hun & Hdrawn).
    rewrite length_app in Hrun. simpl in Hrun.
    replace (length filled + 1) with (S (length filled)) in Hrun by lia.
    fold (@fmap list _ nat Z Z.of_nat (seq (S (length filled)) n)).
    rewrite Hrun.
    exists ((x, y) :: batches), (loss :: losses), w'.
    split; [by rewrite <- app_assoc|]. split; [simpl; lia|].
    split; [constructor; [exact Hloss | exact Hbl]|].
    split; [|split].
    + rewrite Htr. subst w1. simpl. by rewrite <- app_assoc.
    + eapply untouched_trans; [|exact Hun]. subst w1. by repeat split.
    + cbn [drawn_batches]. rewrite Hget, Hdrawn. f_equal.
      by apply drawn_batches_rng.
Qed.

(** One call of [validate] on a dataset that fits: the batches are those the
    generator gives, the value is the mean of their losses. *)
Lemma validate_draws (data : list example) (msl : Z) (w : world) :
  dataset_fits (on_xla fabric) msl vocab_size data →
  (0 < micro_batch_size h)%Z →
  (0 ≤ eval_iters h)%Z →
  ∃ losses sample w',
    let batches := drawn_batches h fabric data msl (Z.to_nat (eval_iters h)) w in
    validate h fabric data msl w = Ok (tensor_mean losses) w' ∧
    length batches = Z.to_nat (eval_iters h) ∧
    batch_losses (model_state w) batches losses ∧
    trace w' = trace w
               ++ [Printed ValidatingLine]
               ++ ((λ b, ForwardPass false (rows b.1)) <$> batches)
               ++ [Printed (TextLine instruction);
                   Generated (Z.of_nat (length (encode (generate_prompt instruction "")))
                              + 100);
                   Printed (TextLine sample)] ∧
    model_training w' = true ∧
    grad_enabled w' = grad_enabled w ∧
    model_state w' = model_state w ∧
    grads w' = grads w ∧
    optimizer_moments w' = optimizer_moments w ∧
    optimizer_lr w' = optimizer_lr w ∧
    files w' = files w.
Proof.
  intros Hfits Hmbs Heval.
  set (w1 := set_model_training false
               (add_event (Printed ValidatingLine) (set_grad_enabled false w))).
  destruct (validate_loop data msl Hfits Hmbs (Z.to_nat (eval_iters h)) [] w1)
    as (batches & losses & w2 & Hrun & Hlen & Hbl & Htr & Hun & Hdrawn).
  rewrite (drawn_batches_rng data msl _ w1 w) in Hdrawn by reflexivity.
  simpl in Hrun.
  destruct (generate (model_state w2) (encode (generate_prompt instruction ""))
              (Z.of_nat (length (encode (generate_prompt instruction ""))) + 100)
              (Z.of_nat (length (encode (generate_prompt instruction ""))) + 100)
              (literal (8 # 10)) (rng w2))
    as [out r] eqn:Hgen.
  exists losses, (decode out). eexists. cbv zeta. rewrite <- Hdrawn.
  split.
  { unfold validate, no_grad, bind, emit, set_mode, lift, zeros, range, ret.
    rewrite bool_decide_false by lia. fold w1. rewrite Hrun.
    cbn [model_state rng add_event]. rewrite Hgen. reflexivity. }
  destruct Hun as (Hms & Hmt & Hge & Hg & Hom & Hlr & Hf).
  simpl. rewrite Htr, Hms, Hg, Hom, Hlr, Hf. subst w1. simpl.
  repeat split; try done. by rewrite <- !app_assoc.
Qed.

Lemma validate_run (data : list example) (msl : Z) (w : world) :
  dataset_fits (on_xla fabric) msl vocab_size data →
  (0 < micro_batch_size h)%Z →
  (0 ≤ eval_iters h)%Z →
  ∃ batches losses sample w',
    validate h fabric data msl w = Ok (tensor_mean losses) w' ∧
    length batches = Z.to_nat (eval_iters h) ∧
    batch_losses (model_state w) batches losses ∧
    trace w' = trace w
               ++ [Printed ValidatingLine]
               ++ ((λ b, ForwardPass false (rows b.1)) <$> batches)
               ++ [Printed (TextLine instruction);
                   Generated (Z.of_nat (length (encode (generate_prompt instruction "")))
                              + 100);
                   Printed (TextLine sample)] ∧
    model_training w' = true ∧
    grad_enabled w' = grad_enabled w ∧
    model_state w' = model_state w ∧
    grads w' = grads w ∧
    optimizer_moments w' = optimizer_moments w ∧
    optimizer_lr w' = optimizer_lr w ∧
    files w' = files w.
Proof.
  intros Hfits Hmbs Heval.
  destruct (validate_draws data msl w Hfits Hmbs Heval) as (losses & sample & w' & Hrun).
  by exists (drawn_batches h fabric data msl (Z.to_nat (eval_iters h)) w), losses, sample, w'.
Qed.

(** *** The blocks of the loop body *)

Lemma warmup_run (s : Z) (w : world) :
  (0 < warmup_iters h)%Z →
  warmup h s w
  = Ok tt (if bool_decide (s ≤ warmup_iters h)%Z
           then add_event (LrSet (warmup_lr h s)) (set_optimizer_lr (warmup_lr h s) w)
           else w).
Proof.
  intros HW. unfold warmup. case_bool_decide; [|reflexivity].
  unfold bind, lift, py_float_truediv, py_float_mul. rewrite bool_decide_false by lia.
  reflexivity.
Qed.

Lemma forward_backward_run (data : list example) (msl : Z) (i : Z) (w : world) :
  dataset_fits (on_xla fabric) msl vocab_size data →
  (0 < micro_batch_size h)%Z →
  (0 < gradient_accumulation_iters h)%Z →
  ∃ x y r loss,
    forward_backward h fabric data msl i w
    = Ok (negb (closes_group h i), loss)
         (add_event (BackwardPass (negb (closes_group h i)) (gradient_accumulation_iters h))
            (set_grads (grads w ++ [{| g_input := rows x; g_targets := rows y;
                                       g_divisor := gradient_accumulation_iters h |}])
               (add_event (ForwardPass (grad_enabled w) (rows x)) (set_rng r w)))).
Proof.
  intros Hfits Hmbs HG.
  destruct (get_batch_fits data msl w Hfits Hmbs) as (x & y & r & s & Hget & Hx & Hy & Hv).
  pose proof (batch_loss_defined (model_state w) _ _ _ _ Hx Hy Hv) as Hloss.
  exists x, y, r. eexists.
  unfold forward_backward, bind. rewrite Hget. unfold lift, py_mod.
  rewrite bool_decide_false by lia. unfold ret, call_model.
  cbn [model_state set_rng]. rewrite Hloss. reflexivity.
Qed.

Lemma due_run (is_accumulating : bool) (s interval : Z) (w : world) :
  interval ≠ 0%Z →
  due is_accumulating s interval w
  = Ok (negb is_accumulating && bool_decide (s `mod` interval = 0)%Z) w.
Proof.
  intros Hi. unfold due. destruct is_accumulating; [reflexivity|]. simpl.
  unfold bind, lift, py_mod. rewrite bool_decide_false by exact Hi. reflexivity.
Qed.

Lemma report_run (val_data : list example) (out_dir : string) (msl : Z)
    (i s : Z) (acc : bool) (loss : scalar) (w : world) :
  schedule_ok h →
  dataset_fits (on_xla fabric) msl vocab_size val_data →
  let save_due := negb acc && bool_decide (s `mod` save_interval h = 0)%Z in
  let path := iter_checkpoint_path out_dir i in
  ∃ evs w',
    report h fabric val_data out_dir msl i s acc loss w = Ok tt w' ∧
    trace w' = trace w ++ evs
               ++ (if save_due then [Printed (SavingLine path); Saved path] else []) ∧
    Forall (λ e, is_control e = false) evs ∧
    model_state w' = model_state w ∧
    grad_enabled w' = grad_enabled w ∧
    grads w' = grads w ∧
    optimizer_moments w' = optimizer_moments w ∧
    optimizer_lr w' = optimizer_lr w.
Proof.
  intros (HG & HW & Hmbs & Heval & Hlog & Hev & Hsave) Hfits save_due path.
  unfold report, bind, emit, lift, py_mod.
  rewrite bool_decide_false by exact Hlog. unfold ret.
  set (w1 := add_event (TrainBatchEnd _) w).
  set (logs := if bool_decide (i `mod` log_interval h = 0)%Z
               then [Printed (IterLine i s loss (negb acc))] else []).
  assert (Hlogged : ∃ w2, when (bool_decide (i `mod` log_interval h = 0)%Z)
                     (λ w0, Ok tt (add_event (Printed (IterLine i s loss (negb acc))) w0)) w1
                   = Ok tt w2 ∧ trace w2 = trace w1 ++ logs ∧ untouched w1 w2).
  { unfold when, logs. case_bool_decide; eexists; (split; [reflexivity|]); simpl.
    - split; [reflexivity | by repeat split].
    - split; [by rewrite app_nil_r | by repeat split]. }
  destruct Hlogged as (w2 & -> & Htr2 & Hun2).
  rewrite due_run by exact Hev.
  assert (Hevald : ∃ evs3 w3,
            when (negb acc && bool_decide (s `mod` eval_interval h = 0)%Z)
              (λ w0, match validate h fabric val_data msl w0 with
                     | Ok val_loss w4 =>
                         Ok tt (add_event Barrier
                                  (add_event (Printed (ValLossLine i val_loss))
                                     (add_event EvalEnd w4)))
                     | Raise e w4 => Raise e w4
                     end) w2 = Ok tt w3 ∧
            trace w3 = trace w2 ++ evs3 ∧
            Forall (λ e, is_control e = false) evs3 ∧
            model_state w3 = model_state w2 ∧ grad_enabled w3 = grad_enabled w2 ∧
            grads w3 = grads w2 ∧ optimizer_moments w3 = optimizer_moments w2 ∧
            optimizer_lr w3 = optimizer_lr w2 ∧ files w3 = files w2).
  { unfold when.
    destruct (negb acc && bool_decide (s `mod` eval_interval h = 0)%Z).
    - cbv beta.
      destruct (validate_run val_data msl w2 Hfits Hmbs Heval)
        as (batches & losses & sample & w4 & -> & _ & _ & Htr & _ & Hge & Hms & Hg & Hom & Hlr & Hf).
      eexists _, _. split; [reflexivity|]. simpl. rewrite Htr.
      split; [rewrite <- !app_assoc; reflexivity|].
      split; [|by repeat split].
      repeat (apply Forall_app; split); repeat constructor.
      apply Forall_fmap, Forall_true. done.
    - exists [], w2. rewrite app_nil_r. by repeat split. }
  destruct Hevald as (evs3 & w3 & Hrun3 & Htr3 & Hctl3 & Hms3 & Hge3 & Hg3 & Hom3 & Hlr3 & Hf3).
  unfold when in Hrun3 |- *. unfold bind, emit in Hrun3.
  rewrite Hrun3. rewrite due_run by exact Hsave. fold save_due.
  destruct Hun2 as (Hms2 & _ & Hge2 & Hg2 & Hom2 & Hlr2 & Hf2).
  exists ([TrainBatchEnd ((i + 1) * micro_batch_size h)] ++ logs ++ evs3).
  destruct save_due.
  - eexists. split; [reflexivity|]. unfold fabric_save. simpl.
    rewrite Htr3, Htr2, Hms3, Hms2, Hge3, Hge2, Hg3, Hg2, Hom3, Hom2, Hlr3, Hlr2.
    simpl. split; [by rewrite <- !app_assoc|].
    split; [|done].
    apply Forall_cons. split; [done|].
    apply Forall_app. split; [|exact Hctl3].
    subst logs. destruct (bool_decide _); repeat constructor.
  - exists w3. split; [reflexivity|].
    rewrite Htr3, Htr2, Hms3, Hms2, Hge3, Hge2, Hg3, Hg2, Hom3, Hom2, Hlr3, Hlr2.
    simpl. split; [by rewrite <- !app_assoc, app_nil_r|].
    split; [|done].
    apply Forall_cons. split; [done|].
    apply Forall_app. split; [|exact Hctl3].
    subst logs. destruct (bool_decide _); repeat constructor.
Qed.

Lemma adamw_update_names (lr wd : Qc) (m : moments) (sd : state_dict) :
  dom (adamw_update lr wd m sd) = dom sd.
Proof.
  unfold adamw_update. apply dom_imap_L. intros name.
  rewrite elem_of_dom. unfold is_Some. split.
  - intros [p Hp]. eauto.
  - intros (p & Hp & _). eauto.
Qed.

Lemma adamw_entry_lr_zero (wd d p : Qc) : adamw_entry 0 wd d p = p.
Proof. unfold adamw_entry. ring. Qed.

Lemma adamw_update_lr_zero (wd : Qc) (m : moments) (sd : state_dict) :
  adamw_update 0 wd m sd = sd.
Proof.
  unfold adamw_update. apply map_eq. intros name. rewrite map_lookup_imap.
  destruct (sd !! name) as [p|]; [|reflexivity]. simpl. f_equal.
  destruct (requires_grad name); [|reflexivity].
  apply list_eq. intros j. rewrite list_lookup_imap.
  destruct (p !! j) as [pj|]; [|reflexivity]. simpl.
  by rewrite adamw_entry_lr_zero.
Qed.

Lemma filter_not_control (evs : list event) :
  Forall (λ e, is_control e = false) evs → List.filter is_control evs = [].
Proof.
  induction 1 as [|e evs He _ IH]; [reflexivity|]. simpl. by rewrite He.
Qed.

Lemma train_step_run (train_data val_data : list example) (out_dir : string) (msl : Z)
    (i s : Z) (w : world) :
  schedule_ok h →
  dataset_fits (on_xla fabric) msl vocab_size train_data →
  dataset_fits (on_xla fabric) msl vocab_size val_data →
  let acc := negb (closes_group h i) in
  let s' := if acc then s else (s + 1)%Z in
  let lr := if bool_decide (s ≤ warmup_iters h)%Z then warmup_lr h s else optimizer_lr w in
  let save_due := negb acc && bool_decide (s' `mod` save_interval h = 0)%Z in
  ∃ x post w',
    train_step h fabric train_data val_data out_dir msl i s w = Ok s' w' ∧
    trace w' = trace w
               ++ ((if bool_decide (s ≤ warmup_iters h)%Z then [LrSet (warmup_lr h s)] else [])
                   ++ [ForwardPass (grad_enabled w) x;
                       BackwardPass acc (gradient_accumulation_iters h)])
               ++ update_events fabric acc lr (length (grads w) + 1)
               ++ post ∧
    List.filter is_control post
    = (if save_due then [Saved (iter_checkpoint_path out_dir i)] else []) ∧
    optimizer_lr w' = lr ∧
    length (grads w') = (if acc then length (grads w) + 1 else 0) ∧
    grad_enabled w' = grad_enabled w ∧
    dom (model_state w') = dom (model_state w) ∧
    (acc = true ∨ lr = 0%Qc → model_state w' = model_state w).
Proof.
  intros Hok Htrain Hval acc s' lr save_due.
  pose proof Hok as (HG & HW & Hmbs & Heval & Hlog & Hev & Hsave).
  unfold train_step, bind. rewrite warmup_run by exact HW.
  set (w1 := if bool_decide (s ≤ warmup_iters h)%Z then _ else w).
  assert (Hw1 : trace w1 = trace w ++ (if bool_decide (s ≤ warmup_iters h)%Z
                                       then [LrSet (warmup_lr h s)] else [])
                ∧ optimizer_lr w1 = lr ∧ grads w1 = grads w
                ∧ grad_enabled w1 = grad_enabled w ∧ model_state w1 = model_state w
                ∧ optimizer_moments w1 = optimizer_moments w).
  { subst w1 lr. case_bool_decide; simpl; rewrite ?app_nil_r; done. }
  destruct Hw1 as (Htr1 & Hlr1 & Hg1 & Hge1 & Hms1 & Hom1).
  destruct (forward_backward_run train_data msl i w1 Htrain Hmbs HG)
    as (x & y & r & loss & ->).
  fold acc. set (w2 := add_event (BackwardPass _ _) _).
  assert (Hupd : ∃ w3, update h fabric acc s w2 = Ok s' w3 ∧
            trace w3 = trace w2 ++ update_events fabric acc lr (length (grads w) + 1) ∧
            optimizer_lr w3 = lr ∧
            length (grads w3) = (if acc then length (grads w) + 1 else 0) ∧
            grad_enabled w3 = grad_enabled w ∧
            dom (model_state w3) = dom (model_state w) ∧
            (acc = true ∨ lr = 0%Qc → model_state w3 = model_state w)).
  { unfold update, update_events, mark_events, when, bind, optimizer_step, zero_grad,
      mark_step, emit, ret. subst s'.
    destruct acc; simpl; destruct (on_xla fabric); eexists; (split; [reflexivity|]);
      subst w2; simpl; rewrite ?Hlr1, ?Hg1, ?Hge1, ?Hms1, ?length_app, ?app_nil_r,
        <- ?app_assoc; simpl;
      repeat split; try done; try apply adamw_update_names;
      try (intros [?| ->]; [done | apply adamw_update_lr_zero]). }
  destruct Hupd as (w3 & -> & Htr3 & Hlr3 & Hg3 & Hge3 & Hdom3 & Hms3).
  destruct (report_run val_data out_dir msl i s' acc loss w3 Hok Hval)
    as (evs & w4 & -> & Htr4 & Hctl & Hms4 & Hge4 & Hg4 & Hom4 & Hlr4).
  exists (rows x). eexists. exists w4.
  split; [reflexivity|]. fold save_due in Htr4.
  split.
  { rewrite Htr4, Htr3. subst w2. simpl. rewrite Htr1, Hge1.
    rewrite <- !app_assoc. reflexivity. }
  split.
  { rewrite List.filter_app, filter_not_control by exact Hctl.
    by destruct save_due. }
  rewrite Hlr4, Hg4, Hge4, Hms4. done.
Qed.

Lemma next_mod (G i : Z) :
  (0 < G)%Z → (0 ≤ i)%Z →
  (i `mod` G + 1 < G ∧ (i + 1) `div` G = i `div` G ∧ (i + 1) `mod` G = i `mod` G + 1)%Z ∨
  (i `mod` G + 1 = G ∧ (i + 1) `div` G = i `div` G + 1 ∧ (i + 1) `mod` G = 0)%Z.
Proof.
  intros HG Hi.
  pose proof (Z.div_mod i G ltac:(lia)) as E1.
  pose proof (Z.mod_pos_bound i G HG) as B1.
  destruct (Z.eq_dec (i `mod` G + 1)%Z G) as [Heq|Hne].
  - right. split; [exact Heq|].
    assert (E : (i + 1 = G * (i `div` G + 1) + 0)%Z) by lia.
    split.
    + symmetry. apply (Z.div_unique (i + 1)%Z G (i `div` G + 1)%Z 0%Z); lia.
    + symmetry. apply (Z.mod_unique (i + 1)%Z G (i `div` G + 1)%Z 0%Z); lia.
  - left. split; [lia|].
    assert (E : (i + 1 = G * (i `div` G) + (i `mod` G + 1))%Z) by lia.
    split.
    + symmetry. apply (Z.div_unique (i + 1)%Z G (i `div` G)%Z (i `mod` G + 1)%Z); lia.
    + symmetry. apply (Z.mod_unique (i + 1)%Z G (i `div` G)%Z (i `mod` G + 1)%Z); lia.
Qed.

Lemma rate_in_effect_ramp (held : Qc) (s : Z) :
  (s ≤ warmup_iters h)%Z → rate_in_effect h held s = warmup_lr h s.
Proof. intros Hs. unfold rate_in_effect. by rewrite bool_decide_true by exact Hs. Qed.

Lemma rate_in_effect_held (held : Qc) (s : Z) :
  (warmup_iters h < s)%Z → rate_in_effect h held s = held.
Proof. intros Hs. unfold rate_in_effect. by rewrite bool_decide_false by lia. Qed.

Lemma rate_at_min (s : Z) : rate_at h s = warmup_lr h (s `min` warmup_iters h).
Proof.
  unfold rate_at, rate_in_effect. case_bool_decide.
  - by rewrite Z.min_l by lia.
  - by rewrite Z.min_r by lia.
Qed.

Lemma update_events_control (acc : bool) (lr : Qc) (n : nat) :
  List.filter is_control (update_events fabric acc lr n) = update_events fabric acc lr n.
Proof. unfold update_events, mark_events. by destruct acc, (on_xla fabric). Qed.

(** One iteration carries the invariant to the next and makes the control
    calls [iteration_control] lists. *)
Lemma train_step_invariant {held : Qc} (train_data val_data : list example)
    (out_dir : string) (msl : Z) (i s : Z) (w : world) :
  schedule_ok h →
  dataset_fits (on_xla fabric) msl vocab_size train_data →
  dataset_fits (on_xla fabric) msl vocab_size val_data →
  (0 ≤ i)%Z →
  loop_invariant h held i s w →
  ∃ evs w',
    train_step h fabric train_data val_data out_dir msl i s w
    = Ok ((i + 1) `div` gradient_accumulation_iters h)%Z w' ∧
    loop_invariant h held (i + 1) ((i + 1) `div` gradient_accumulation_iters h)%Z w' ∧
    trace w' = trace w ++ evs ∧
    List.filter is_control evs = iteration_control h fabric held out_dir i ∧
    optimizer_lr w' = rate_in_effect h held s ∧
    grad_enabled w' = grad_enabled w ∧
    dom (model_state w') = dom (model_state w) ∧
    (closes_group h i = false ∨ rate_in_effect h held s = 0%Qc →
     model_state w' = model_state w).
Proof.
  intros Hok Htrain Hval Hi (Hs & Hg & Hlr & Hheld).
  pose proof Hok as (HG & HW & _).
  destruct (train_step_run train_data val_data out_dir msl i s w Hok Htrain Hval)
    as (x & post & w' & Hrun & Htr & Hpost & Hlr' & Hg' & Hge' & Hdom' & Hms').
  assert (Heff : (if bool_decide (s ≤ warmup_iters h)%Z then warmup_lr h s
                  else optimizer_lr w) = rate_in_effect h held s).
  { unfold rate_in_effect. case_bool_decide; [reflexivity|]. apply Hlr. lia. }
  rewrite Heff in Htr, Hlr', Hms'.
  assert (Hnext : (if negb (closes_group h i) then s else (s + 1)%Z)
                  = ((i + 1) `div` gradient_accumulation_iters h)%Z ∧
                  Z.of_nat (if negb (closes_group h i) then length (grads w) + 1 else 0)
                  = ((i + 1) `mod` gradient_accumulation_iters h)%Z).
  { unfold closes_group.
    pose proof (Z.mod_pos_bound i (gradient_accumulation_iters h) HG) as Hbound.
    destruct (decide ((i + 1) `mod` gradient_accumulation_iters h = 0)%Z) as [Hc|Hc];
      [rewrite !bool_decide_true by exact Hc | rewrite !bool_decide_false by exact Hc];
      simpl;
      destruct (next_mod (gradient_accumulation_iters h) i HG Hi)
        as [(? & ? & ?)|(? & ? & ?)]; lia. }
  destruct Hnext as [Hs' Hlen'].
  rewrite Hs' in Hrun.
  eexists _, w'. split; [exact Hrun|]. split; [|split; [exact Htr|]].
  - split; [reflexivity|]. split; [by rewrite Hg'|]. split.
    + intros Hpast. rewrite Hlr'. unfold rate_in_effect. case_bool_decide as Hle.
      * assert (s = warmup_iters h) as ->.
        { destruct (negb (closes_group h i)); lia. }
        symmetry. apply Hheld. lia.
      * reflexivity.
    + intros Hstill. apply Hheld. destruct (negb (closes_group h i)); lia.
  - split; [|split; [done|split; [done|split; [done|]]]]; cycle 1.
    { intros [Hopen|Hzero]; apply Hms'; [left; by rewrite Hopen | by right]. }
    rewrite !List.filter_app, update_events_control, Hpost. simpl.
    unfold iteration_control. rewrite <- Hs.
    replace (Z.to_nat (i `mod` gradient_accumulation_iters h) + 1)
      with (length (grads w) + 1) by lia.
    assert (Hsave : negb (negb (closes_group h i)) &&
              bool_decide ((if negb (closes_group h i) then s else (s + 1)%Z)
                             `mod` save_interval h = 0)%Z
            = saves_checkpoint h i).
    { unfold saves_checkpoint. rewrite Hs'. by destruct (closes_group h i). }
    rewrite Hsave.
    destruct (bool_decide (s ≤ warmup_iters h)%Z); simpl; rewrite <- ?app_assoc;
      reflexivity.
Qed.

(** Any stretch of the loop, started where the invariant holds. *)
Lemma train_loop_run {held : Qc} (train_data val_data : list example)
    (out_dir : string) (msl : Z) :
  schedule_ok h →
  dataset_fits (on_xla fabric) msl vocab_size train_data →
  dataset_fits (on_xla fabric) msl vocab_size val_data →
  ∀ (n a : nat) (s : Z) (w : world),
  loop_invariant h held (Z.of_nat a) s w →
  ∃ evs w',
    for_each (train_step h fabric train_data val_data out_dir msl)
      (Z.of_nat <$> seq a n) s w
    = Ok (if n is O then s else Z.of_nat (a + n) `div` gradient_accumulation_iters h)%Z w' ∧
    loop_invariant h held (Z.of_nat (a + n))
      (if n is O then s else Z.of_nat (a + n) `div` gradient_accumulation_iters h)%Z w' ∧
    trace w' = trace w ++ evs ∧
    List.filter is_control evs
    = concat (iteration_control h fabric held out_dir <$> (Z.of_nat <$> seq a n)) ∧
    grad_enabled w' = grad_enabled w ∧
    dom (model_state w') = dom (model_state w) ∧
    (0 < n → optimizer_lr w'
             = rate_in_effect h held
                 (Z.of_nat (a + n - 1) `div` gradient_accumulation_iters h)%Z) ∧
    (Forall (λ i, closes_group h i = false ∨
                  rate_in_effect h held (i `div` gradient_accumulation_iters h)%Z = 0%Qc)
       (Z.of_nat <$> seq a n) →
     model_state w' = model_state w).
Proof.
  intros Hok Htrain Hval. induction n as [|n IH]; intros a s w Hinv.
  - exists [], w. simpl. rewrite Nat.add_0_r, app_nil_r.
    split; [reflexivity|]. split; [exact Hinv|]. repeat split; lia.
  - cbn [seq fmap list_fmap]. rewrite for_each_cons.
    destruct (train_step_invariant train_data val_data out_dir msl (Z.of_nat a) s w
                Hok Htrain Hval ltac:(lia) Hinv)
      as (evs1 & w1 & -> & Hinv1 & Htr1 & Hctl1 & Hlr1 & Hge1 & Hdom1 & Hms1).
    replace (Z.of_nat a + 1)%Z with (Z.of_nat (S a)) in * by lia.
    destruct (IH (S a) _ w1 Hinv1)
      as (evs2 & w2 & Hrun2 & Hinv2 & Htr2 & Hctl2 & Hge2 & Hdom2 & Hlr2 & Hms2).
    fold (@fmap list _ nat Z Z.of_nat (seq (S a) n)). rewrite Hrun2.
    replace (S a + n) with (a + S n) in * by lia.
    assert (Hend : (if n is O then Z.of_nat (S a) `div` gradient_accumulation_iters h
                    else Z.of_nat (a + S n) `div` gradient_accumulation_iters h)%Z
                   = (Z.of_nat (a + S n) `div` gradient_accumulation_iters h)%Z).
    { destruct n; [|reflexivity]. by replace (a + 1) with (S a) by lia. }
    rewrite Hend in *.
    exists (evs1 ++ evs2), w2. split; [reflexivity|]. split; [exact Hinv2|].
    split; [by rewrite Htr2, Htr1, <- app_assoc|].
    split; [by rewrite List.filter_app, Hctl1, Hctl2|].
    split; [congruence|]. split; [congruence|]. split.
    { intros _. destruct n as [|n].
      + simpl in Hrun2. unfold ret in Hrun2. assert (Hw : w2 = w1) by congruence.
        rewrite Hw, Hlr1. destruct Hinv as (-> & _).
        by replace (a + 1 - 1) with a by lia.
      + rewrite Hlr2 by lia. by replace (a + S (S n) - 1) with (S a + S n - 1) by lia. }
    intros [Hhead Htail]%Forall_cons. rewrite Hms2 by exact Htail.
    apply Hms1. destruct Hinv as (-> & _). exact Hhead.
Qed.

(** *** Claims about [get_batch] *)

(** C5 (as amended): on a non-empty dataset, [get_batch] draws
    [micro_batch_size] indices (repetitions allowed) and, provided every
    picked [labels] sequence is no longer than the pad length (the longest
    picked [input_ids], or [max_seq_length] under XLA, where the picked
    [input_ids] have to fit it too), returns the picked [input_ids] padded on
    the right with 0 and the picked [labels] padded with -1, as two tensors of
    shape [(micro_batch_size, pad length)] on the fabric's device; only the
    generator moves. *)
Theorem get_batch_pads_to_one_shape (data : list example) (msl : Z) (w : world) :
  data ≠ [] →
  (0 < micro_batch_size h)%Z →
  let draw := randint (length data) (Z.to_nat (micro_batch_size h)) (rng w) in
  let batch := picked data draw.1 in
  let L := pad_length (on_xla fabric) msl batch in
  (on_xla fabric = true → Forall (λ e, (Z.of_nat (length (input_ids e)) ≤ L)%Z) batch) →
  Forall (λ e, (Z.of_nat (length (labels e)) ≤ L)%Z) batch →
  ∃ x y,
    get_batch h fabric data msl w = Ok (x, y) (set_rng draw.2 w) ∧
    length batch = Z.to_nat (micro_batch_size h) ∧
    Forall (λ e, e ∈ data) batch ∧
    rows x = pad_to (Z.to_nat L) 0 ∘ input_ids <$> batch ∧
    rows y = pad_to (Z.to_nat L) (-1) ∘ labels <$> batch ∧
    shape2 (Z.to_nat (micro_batch_size h)) (Z.to_nat L) (rows x) ∧
    shape2 (Z.to_nat (micro_batch_size h)) (Z.to_nat L) (rows y) ∧
    placed_on x = device_type fabric ∧
    placed_on y = device_type fabric.
Proof.
  intros Hdata Hmbs draw batch L Hxla Hlab.
  destruct (drawn_indices data w Hdata Hmbs) as (Hne & Hlen & Hrange).
  fold draw in Hne, Hlen, Hrange.
  assert (Hin : Forall (λ e, (Z.of_nat (length (input_ids e)) ≤ L)%Z) batch).
  { destruct (on_xla fabric) eqn:Hx; [by apply Hxla|].
    unfold L, pad_length.
    pose proof (longest_bounds (input_ids <$> batch)) as Hb.
    apply Forall_fmap in Hb. eapply Forall_impl; [exact Hb|].
    intros e He. simpl in He. lia. }
  rewrite get_batch_run by (assumption || lia). fold draw.
  rewrite (collate_fits (on_xla fabric) data msl draw.1 Hne Hrange Hin Hlab).
  fold batch L. eexists _, _. split; [reflexivity|]. simpl.
  assert (HLnat : ∀ n : nat, (Z.of_nat n ≤ L)%Z → n ≤ Z.to_nat L) by (intros; lia).
  assert (Hb : length batch = Z.to_nat (micro_batch_size h)).
  { unfold batch. by rewrite picked_length. }
  split; [exact Hb|]. split.
  { apply picked_Forall; [|exact Hrange]. by apply Forall_forall. }
  split; [reflexivity|]. split; [reflexivity|]. split; [|split; [|done]].
  - rewrite <- Hb, list_fmap_compose, <- (length_fmap input_ids).
    apply padded_shape, Forall_fmap.
    eapply Forall_impl; [exact Hin|]. intros e He. simpl. by apply HLnat.
  - rewrite <- Hb, list_fmap_compose, <- (length_fmap labels).
    apply padded_shape, Forall_fmap.
    eapply Forall_impl; [exact Hlab|]. intros e He. simpl. by apply HLnat.
Qed.

(** C9 (as amended): off XLA the pad length is the longest picked
    [input_ids] alone, so [get_batch] returns exactly when no picked [labels]
    is longer than that, what it returns then are two tensors of one shape,
    and a picked [labels] longer than every picked [input_ids] makes the
    padding raise. *)
Theorem get_batch_pad_length_ignores_labels (data : list example) (msl : Z) (w : world) :
  on_xla fabric = false →
  data ≠ [] →
  (0 < micro_batch_size h)%Z →
  let draw := randint (length data) (Z.to_nat (micro_batch_size h)) (rng w) in
  let batch := picked data draw.1 in
  let longest_input := longest (input_ids <$> batch) in
  pad_length (on_xla fabric) msl batch = Z.of_nat longest_input ∧
  ((∃ x y w', get_batch h fabric data msl w = Ok (x, y) w') ↔
   Forall (λ e, length (labels e) ≤ longest_input) batch) ∧
  (∀ x y w', get_batch h fabric data msl w = Ok (x, y) w' →
     shape2 (Z.to_nat (micro_batch_size h)) longest_input (rows x) ∧
     shape2 (Z.to_nat (micro_batch_size h)) longest_input (rows y)) ∧
  (Exists (λ e, Forall (λ e', length (input_ids e') < length (labels e)) batch) batch →
   get_batch h fabric data msl w = Raise RuntimeError (set_rng draw.2 w)).
Proof.
  intros Hx Hdata Hmbs draw batch longest_input.
  destruct (drawn_indices data w Hdata Hmbs) as (Hne & Hlen & Hrange).
  fold draw in Hne, Hlen, Hrange.
  assert (HL : pad_length (on_xla fabric) msl batch = Z.of_nat longest_input).
  { unfold pad_length. by rewrite Hx. }
  assert (Hin : Forall (λ e, (Z.of_nat (length (input_ids e))
                              ≤ pad_length (on_xla fabric) msl batch)%Z) batch).
  { rewrite HL. pose proof (longest_bounds (input_ids <$> batch)) as Hb.
    apply Forall_fmap in Hb. eapply Forall_impl; [exact Hb|].
    intros e He. simpl in He. fold longest_input in He. lia. }
  assert (Hfit : Forall (λ e, length (labels e) ≤ longest_input) batch →
            ∃ x y, get_batch h fabric data msl w = Ok (x, y) (set_rng draw.2 w) ∧
              shape2 (Z.to_nat (micro_batch_size h)) longest_input (rows x) ∧
              shape2 (Z.to_nat (micro_batch_size h)) longest_input (rows y)).
  { intros Hlab.
    assert (Hlab' : Forall (λ e, (Z.of_nat (length (labels e))
                                  ≤ pad_length (on_xla fabric) msl batch)%Z) batch).
    { rewrite HL. eapply Forall_impl; [exact Hlab|]. intros e He. simpl in He. lia. }
    rewrite get_batch_run by (assumption || lia). fold draw.
    rewrite (collate_fits (on_xla fabric) data msl draw.1 Hne Hrange Hin Hlab').
    fold batch. rewrite HL, Nat2Z.id. eexists _, _. split; [reflexivity|]. simpl.
    assert (Hb : length batch = Z.to_nat (micro_batch_size h)).
    { unfold batch. by rewrite picked_length. }
    split.
    - rewrite <- Hb, list_fmap_compose, <- (length_fmap input_ids).
      apply padded_shape, Forall_fmap.
      eapply Forall_impl; [exact Hin|]. intros e He. simpl. rewrite HL in He. lia.
    - rewrite <- Hb, list_fmap_compose, <- (length_fmap labels).
      by apply padded_shape, Forall_fmap. }
  assert (Hover : Exists (λ e, longest_input < length (labels e)) batch →
            get_batch h fabric data msl w = Raise RuntimeError (set_rng draw.2 w)).
  { intros Hex. rewrite get_batch_run by (assumption || lia). fold draw.
    rewrite (collate_labels_overflow (on_xla fabric) data msl draw.1 Hne Hrange Hin);
      [reflexivity|].
    fold batch. rewrite HL. eapply Exists_impl; [exact Hex|].
    intros e He. simpl in He. lia. }
  split; [exact HL|]. split; [|split].
  - split.
    + intros (x & y & w' & Hrun).
      destruct (decide (Forall (λ e, length (labels e) ≤ longest_input) batch))
        as [Hall|Hex]; [exact Hall|].
      apply not_Forall_Exists in Hex; [|apply _].
      rewrite Hover in Hrun; [discriminate|].
      eapply Exists_impl; [exact Hex|]. intros e He. simpl in He. lia.
    + intros Hlab. destruct (Hfit Hlab) as (x & y & Hrun & _). eauto.
  - intros x y w' Hrun.
    destruct (decide (Forall (λ e, length (labels e) ≤ longest_input) batch))
      as [Hall|Hex].
    + destruct (Hfit Hall) as (x' & y' & Hrun' & Hsx & Hsy).
      rewrite Hrun in Hrun'. by injection Hrun' as -> ->.
    + apply not_Forall_Exists in Hex; [|apply _].
      rewrite Hover in Hrun; [discriminate|].
      eapply Exists_impl; [exact Hex|]. intros e He. simpl in He. lia.
  - intros Hex. apply Hover. eapply Exists_impl; [exact Hex|].
    intros e He. simpl in He.
    assert (Hb : batch ≠ []). { unfold batch, picked. by destruct (draw.1). }
    clear -He Hb. unfold longest_input, longest.
    induction batch as [|e0 batch IH]; [done|].
    apply Forall_cons in He as [He0 He]. cbn.
    destruct batch as [|e1 batch]; [cbn; lia|].
    specialize (IH He ltac:(done)). cbn in IH |- *. lia.
Qed.

(** *** Claims about [validate] *)

Lemma finite_values_fmap (values : list R) : finite_values (Finite <$> values) = Some values.
Proof.
  induction values as [|v values IH]; [reflexivity|].
  cbn [fmap list_fmap finite_values]. fold (@fmap list _ R scalar Finite values).
  by rewrite IH.
Qed.

(** C8: on a dataset that fits, [validate] draws [eval_iters] batches from the
    validation data, one [get_batch] call after the other, makes exactly one
    forward pass on the inputs of each, all with gradient tracking off,
    returns the mean of [loss_fn] on the logits and targets of those
    [eval_iters] batches, leaves the model in training mode, and changes
    neither the parameters, the accumulated gradients nor the optimizer. *)
Theorem validate_is_read_only (val_data : list example) (msl : Z) (w : world) :
  dataset_fits (on_xla fabric) msl vocab_size val_data →
  (0 < micro_batch_size h)%Z →
  (0 ≤ eval_iters h)%Z →
  ∃ batches losses evs w',
    batches = drawn_batches h fabric val_data msl (Z.to_nat (eval_iters h)) w ∧
    validate h fabric val_data msl w = Ok (tensor_mean losses) w' ∧
    length batches = Z.to_nat (eval_iters h) ∧
    batch_losses (model_state w) batches losses ∧
    (∀ values, losses = Finite <$> values → values ≠ [] →
       tensor_mean losses = Finite (Rsum values / INR (Z.to_nat (eval_iters h)))) ∧
    trace w' = trace w ++ evs ∧
    List.filter is_forward evs = (λ b, ForwardPass false (rows b.1)) <$> batches ∧
    List.filter is_control evs = [] ∧
    model_training w' = true ∧
    grad_enabled w' = grad_enabled w ∧
    model_state w' = model_state w ∧
    grads w' = grads w ∧
    optimizer_moments w' = optimizer_moments w ∧
    optimizer_lr w' = optimizer_lr w.
Proof.
  intros Hfits Hmbs Heval.
  destruct (validate_draws val_data msl w Hfits Hmbs Heval)
    as (losses & sample & w' & Hrun & Hlen & Hbl & Htr & Hmt & Hge & Hms & Hg
        & Hom & Hlr & _).
  set (batches := drawn_batches h fabric val_data msl (Z.to_nat (eval_iters h)) w) in *.
  exists batches, losses. eexists. exists w'. split; [reflexivity|].
  split; [exact Hrun|]. split; [exact Hlen|]. split; [exact Hbl|]. split.
  { intros values -> Hne. unfold tensor_mean. rewrite finite_values_fmap.
    unfold mean. destruct values as [|v values]; [done|].
    apply Forall2_length in Hbl. rewrite length_fmap in Hbl.
    by rewrite <- Hlen, Hbl. }
  split; [exact Htr|].
  assert (Hfw : ∀ bs : list (int_tensor * int_tensor),
            List.filter is_forward ((λ b, ForwardPass false (rows b.1)) <$> bs)
            = (λ b, ForwardPass false (rows b.1)) <$> bs
            ∧ List.filter is_control ((λ b, ForwardPass false (rows b.1)) <$> bs) = []).
  { induction bs as [|b bs [IH1 IH2]]; [done|].
    split; simpl; [f_equal; exact IH1 | exact IH2]. }
  rewrite !List.filter_app. destruct (Hfw batches) as [-> ->]. simpl.
  rewrite app_nil_r. done.
Qed.

(** *** Claims about the training loop *)

Lemma for_each_app {S} (body : Z → S → M S) (l1 l2 : list Z) (s : S) (w : world) :
  for_each body (l1 ++ l2) s w
  = match for_each body l1 s w with
    | Ok s1 w1 => for_each body l2 s1 w1
    | Raise e w1 => Raise e w1
    end.
Proof.
  revert s w. induction l1 as [|i l1 IH]; intros s w; [reflexivity|].
  rewrite <- app_comm_cons, !for_each_cons. destruct (body i s w); [apply IH|reflexivity].
Qed.

Lemma filter_within (P Q : event → bool) (l : list event) :
  (∀ e, P e = true → Q e = true) →
  List.filter P (List.filter Q l) = List.filter P l.
Proof.
  intros Hsub. induction l as [|e l IH]; [reflexivity|]. simpl.
  destruct (Q e) eqn:HQ; simpl; rewrite IH; [reflexivity|].
  destruct (P e) eqn:HP; [|reflexivity]. apply Hsub in HP. congruence.
Qed.

Lemma filter_concat (P : event → bool) (ls : list (list event)) :
  List.filter P (concat ls) = concat (List.filter P <$> ls).
Proof.
  induction ls as [|l ls IH]; [reflexivity|].
  rewrite fmap_cons. cbn [concat]. by rewrite List.filter_app, IH.
Qed.

Lemma concat_optional {A B} (keep : A → bool) (f : A → B) (l : list A) :
  concat ((λ a, if keep a then [f a] else []) <$> l) = f <$> List.filter keep l.
Proof.
  induction l as [|a l IH]; [reflexivity|].
  rewrite fmap_cons. cbn [concat List.filter]. rewrite IH. by destruct (keep a).
Qed.

Lemma concat_singletons {A B} (f : A → B) (l : list A) :
  concat ((λ a, [f a]) <$> l) = f <$> l.
Proof.
  induction l as [|a l IH]; [reflexivity|].
  rewrite !fmap_cons. cbn [concat]. by rewrite IH.
Qed.

Lemma iteration_control_backward {held : Qc} (out_dir : string) (i : Z) :
  List.filter is_backward (iteration_control h fabric held out_dir i)
  = [BackwardPass (negb (closes_group h i)) (gradient_accumulation_iters h)].
Proof.
  unfold iteration_control, update_events, mark_events. rewrite !List.filter_app.
  destruct (bool_decide _), (closes_group h i), (on_xla fabric), (saves_checkpoint h i);
    reflexivity.
Qed.

Lemma iteration_control_saved {held : Qc} (out_dir : string) (i : Z) :
  List.filter is_saved (iteration_control h fabric held out_dir i)
  = if saves_checkpoint h i then [Saved (iter_checkpoint_path out_dir i)] else [].
Proof.
  unfold iteration_control, update_events, mark_events. rewrite !List.filter_app.
  destruct (bool_decide _), (closes_group h i), (on_xla fabric), (saves_checkpoint h i);
    reflexivity.
Qed.

Lemma iteration_control_lr_set {held : Qc} (out_dir : string) (i : Z) :
  List.filter is_lr_set (iteration_control h fabric held out_dir i)
  = if bool_decide (i `div` gradient_accumulation_iters h ≤ warmup_iters h)%Z
    then [LrSet (warmup_lr h (i `div` gradient_accumulation_iters h))] else [].
Proof.
  unfold iteration_control, update_events, mark_events. rewrite !List.filter_app.
  destruct (bool_decide _), (closes_group h i), (on_xla fabric), (saves_checkpoint h i);
    reflexivity.
Qed.

Lemma iteration_control_steps {held : Qc} (out_dir : string) (i : Z) :
  List.filter is_optimizer_step (iteration_control h fabric held out_dir i)
  = if closes_group h i
    then [OptimizerStep (rate_in_effect h held (i `div` gradient_accumulation_iters h))
            (Z.to_nat (i `mod` gradient_accumulation_iters h) + 1)]
    else [].
Proof.
  unfold iteration_control, update_events, mark_events. rewrite !List.filter_app.
  destruct (bool_decide _), (closes_group h i), (on_xla fabric), (saves_checkpoint h i);
    reflexivity.
Qed.

(** Within group [k], the iteration that closes the group is the last one. *)
Lemma closes_group_last (k j : nat) :
  (0 < gradient_accumulation_iters h)%Z →
  j < Z.to_nat (gradient_accumulation_iters h) →
  closes_group h (Z.of_nat (k * Z.to_nat (gradient_accumulation_iters h) + j))
  = bool_decide (j = Z.to_nat (gradient_accumulation_iters h) - 1).
Proof.
  intros HG Hj. unfold closes_group.
  set (G := gradient_accumulation_iters h) in *.
  assert (E : (Z.of_nat (k * Z.to_nat G + j) + 1 = Z.of_nat k * G + (Z.of_nat j + 1))%Z)
    by lia.
  rewrite E. destruct (decide (j = Z.to_nat G - 1)) as [->|Hne].
  - rewrite (bool_decide_true (_ = Z.to_nat G - 1)) by reflexivity.
    apply bool_decide_true.
    replace (Z.of_nat k * G + (Z.of_nat (Z.to_nat G - 1) + 1))%Z
      with ((Z.of_nat k + 1) * G)%Z by lia.
    apply Z.mod_mul. lia.
  - rewrite (bool_decide_false (j = _)) by exact Hne. apply bool_decide_false.
    rewrite Z.add_comm, Z.mod_add by lia. rewrite Z.mod_small; lia.
Qed.

Lemma group_start (k : nat) :
  (0 < gradient_accumulation_iters h)%Z →
  (Z.of_nat (k * Z.to_nat (gradient_accumulation_iters h))
     `div` gradient_accumulation_iters h = Z.of_nat k)%Z ∧
  (Z.of_nat (k * Z.to_nat (gradient_accumulation_iters h))
     `mod` gradient_accumulation_iters h = 0)%Z.
Proof.
  intros HG. set (G := gradient_accumulation_iters h) in *.
  replace (Z.of_nat (k * Z.to_nat G)) with (Z.of_nat k * G)%Z by lia.
  split; [apply Z.div_mul; lia | apply Z.mod_mul; lia].
Qed.

Lemma group_inside (k j : nat) :
  (0 < gradient_accumulation_iters h)%Z →
  j < Z.to_nat (gradient_accumulation_iters h) →
  (Z.of_nat (k * Z.to_nat (gradient_accumulation_iters h) + j)
     `div` gradient_accumulation_iters h = Z.of_nat k)%Z ∧
  (Z.of_nat (k * Z.to_nat (gradient_accumulation_iters h) + j)
     `mod` gradient_accumulation_iters h = Z.of_nat j)%Z.
Proof.
  intros HG Hj. set (G := gradient_accumulation_iters h) in *.
  assert (E : (Z.of_nat (k * Z.to_nat G + j) = G * Z.of_nat k + Z.of_nat j)%Z) by lia.
  split; symmetry.
  - apply (Z.div_unique _ G (Z.of_nat k) (Z.of_nat j)); lia.
  - apply (Z.mod_unique _ G (Z.of_nat k) (Z.of_nat j)); lia.
Qed.

Lemma control_view {held : Qc} (P : event → bool) (out_dir : string) (evs : list event)
    (l : list Z) :
  (∀ e, P e = true → is_control e = true) →
  List.filter is_control evs = concat (iteration_control h fabric held out_dir <$> l) →
  List.filter P evs
  = concat ((λ i, List.filter P (iteration_control h fabric held out_dir i)) <$> l).
Proof.
  intros Hsub Hctl.
  rewrite <- (filter_within P is_control) by exact Hsub.
  rewrite Hctl, filter_concat, <- list_fmap_compose. reflexivity.
Qed.

Lemma group_split (k G : nat) :
  0 < G → seq (k * G) G = seq (k * G) (G - 1) ++ [k * G + (G - 1)].
Proof.
  intros HG. replace G with (G - 1 + 1) at 2 by lia. by rewrite seq_app.
Qed.


Lemma warmup_divisor_inv : (0 < warmup_iters h)%Z → (0 <= / Z2Qc (warmup_iters h))%Qc.
Proof.
  intros HW. apply Qclt_le_weak, Qcinv_pos. change 0%Qc with (Z2Qc 0).
  by apply (proj1 (Z2Qc_lt _ _)).
Qed.

Lemma warmup_divisor_cancel (x : Qc) :
  (0 < warmup_iters h)%Z → (x * Z2Qc (warmup_iters h) / Z2Qc (warmup_iters h))%Qc = x.
Proof.
  intros HW. field. intros E. change 0%Qc with (Z2Qc 0) in E. apply Z2Qc_inj in E. lia.
Qed.

Lemma warmup_product_nonneg (s : Z) :
  (0 <= learning_rate h)%Qc → (0 ≤ s)%Z → (0 <= learning_rate h * Z2Qc s)%Qc.
Proof.
  intros Hlr Hs. apply Qcmult_nonneg_nonneg; [exact Hlr|]. change 0%Qc with (Z2Qc 0).
  by apply (proj1 (Z2Qc_le _ _)).
Qed.

Lemma warmup_lr_monotone (s s' : Z) :
  (0 <= learning_rate h)%Qc → (0 < warmup_iters h)%Z → (s ≤ s')%Z →
  (warmup_lr h s <= warmup_lr h s')%Qc.
Proof.
  intros Hlr HW Hs. unfold warmup_lr. apply fl_le.
  unfold Qcdiv. apply Qcmult_le_compat_r; [|by apply warmup_divisor_inv].
  apply fl_le. rewrite !(Qcmult_comm (learning_rate h)).
  apply Qcmult_le_compat_r; [|exact Hlr]. by apply (proj1 (Z2Qc_le _ _)).
Qed.

Lemma warmup_lr_start : warmup_lr h 0 = 0%Qc.
Proof.
  unfold warmup_lr. change (Z2Qc 0) with 0%Qc. rewrite Qcmult_0_r, fl_0.
  unfold Qcdiv. rewrite Qcmult_0_l. apply fl_0.
Qed.

(** Two roundings: the rate is off the exact quotient by the factor
    [(1 + half_ulp)²] at most. *)
Lemma warmup_lr_upper (s : Z) :
  (0 <= learning_rate h)%Qc → (0 < warmup_iters h)%Z → (0 ≤ s)%Z →
  (warmup_lr h s
   <= learning_rate h * Z2Qc s / Z2Qc (warmup_iters h)
      * ((1 + half_ulp) * (1 + half_ulp)))%Qc.
Proof.
  intros Hlr HW Hs. unfold warmup_lr.
  pose proof (warmup_divisor_inv HW) as Hinv.
  pose proof (warmup_product_nonneg s Hlr Hs) as Ha.
  assert (0 <= fl (learning_rate h * Z2Qc s) / Z2Qc (warmup_iters h))%Qc as Hb.
  { unfold Qcdiv. apply Qcmult_nonneg_nonneg; [apply fl_nonneg, Ha | exact Hinv]. }
  assert (0 <= 1 + half_ulp)%Qc as Hc by discriminate.
  eapply Qcle_trans; [apply fl_upper, Hb|].
  rewrite (Qcmult_assoc _ (1 + half_ulp)).
  apply Qcmult_le_compat_r; [|exact Hc].
  unfold Qcdiv.
  rewrite <- (Qcmult_assoc _ (/ Z2Qc (warmup_iters h))),
    (Qcmult_comm (/ Z2Qc (warmup_iters h))), Qcmult_assoc.
  apply Qcmult_le_compat_r; [|exact Hinv].
  apply fl_upper, Ha.
Qed.

Lemma warmup_lr_lower (s : Z) :
  (0 <= learning_rate h)%Qc → (0 < warmup_iters h)%Z → (0 ≤ s)%Z →
  (learning_rate h * Z2Qc s / Z2Qc (warmup_iters h)
   * ((1 - half_ulp) * (1 - half_ulp)) <= warmup_lr h s)%Qc.
Proof.
  intros Hlr HW Hs. unfold warmup_lr.
  pose proof (warmup_divisor_inv HW) as Hinv.
  pose proof (warmup_product_nonneg s Hlr Hs) as Ha.
  assert (0 <= fl (learning_rate h * Z2Qc s) / Z2Qc (warmup_iters h))%Qc as Hb.
  { unfold Qcdiv. apply Qcmult_nonneg_nonneg; [apply fl_nonneg, Ha | exact Hinv]. }
  assert (0 <= 1 - half_ulp)%Qc as Hc by discriminate.
  eapply Qcle_trans; [|apply fl_lower, Hb].
  rewrite (Qcmult_assoc _ (1 - half_ulp)).
  apply Qcmult_le_compat_r; [|exact Hc].
  unfold Qcdiv.
  rewrite <- (Qcmult_assoc _ (/ Z2Qc (warmup_iters h))),
    (Qcmult_comm (/ Z2Qc (warmup_iters h))), Qcmult_assoc.
  apply Qcmult_le_compat_r; [|exact Hinv].
  apply fl_lower, Ha.
Qed.

(** At the end of the ramp the rate is the base rate up to those two
    roundings. *)
Lemma warmup_lr_end :
  (0 <= learning_rate h)%Qc → (0 < warmup_iters h)%Z →
  (learning_rate h * ((1 - half_ulp) * (1 - half_ulp))
   <= warmup_lr h (warmup_iters h))%Qc ∧
  (warmup_lr h (warmup_iters h)
   <= learning_rate h * ((1 + half_ulp) * (1 + half_ulp)))%Qc.
Proof.
  intros Hlr HW.
  pose proof (warmup_lr_lower (warmup_iters h) Hlr HW ltac:(lia)) as H1.
  pose proof (warmup_lr_upper (warmup_iters h) Hlr HW ltac:(lia)) as H2.
  rewrite warmup_divisor_cancel in H1, H2 by exact HW. by split.
Qed.

Lemma loop_start (w : world) :
  schedule_ok h → grads w = [] →
  loop_invariant h (warmup_lr h (warmup_iters h)) (Z.of_nat 0) 0 w.
Proof.
  intros (HG & HW & _) Hg. split; [by rewrite Z.div_0_l by lia|].
  split; [by rewrite Hg, Z.mod_0_l by lia|]. split; [lia | reflexivity].
Qed.

Lemma range_of_nat (n : nat) : range (Z.of_nat n) = Z.of_nat <$> seq 0 n.
Proof. unfold range. by rewrite Nat2Z.id. Qed.


Lemma group_closes_once (k : nat) :
  (0 < gradient_accumulation_iters h)%Z →
  let G := Z.to_nat (gradient_accumulation_iters h) in
  List.filter (closes_group h) (Z.of_nat <$> seq (k * G) G) = [Z.of_nat (k * G + (G - 1))].
Proof.
  intros HG G. assert (HGpos : 0 < G) by (unfold G; lia).
  rewrite group_split, fmap_app, List.filter_app by exact HGpos.
  replace (List.filter (closes_group h) (Z.of_nat <$> seq (k * G) (G - 1))) with (@nil Z).
  - simpl. unfold G. rewrite closes_group_last by (fold G; lia).
    by rewrite bool_decide_true by reflexivity.
  - symmetry.
    assert (Hopen : Forall (λ i, closes_group h i = false)
                      (Z.of_nat <$> seq (k * G) (G - 1))).
    { apply Forall_fmap, Forall_forall. intros i [Hlo Hhi]%elem_of_seq. simpl.
      replace i with (k * G + (i - k * G)) by lia. unfold G.
      rewrite closes_group_last by (fold G; lia). apply bool_decide_false. fold G. lia. }
    induction Hopen as [|i l Hi _ IH]; [reflexivity|]. simpl. by rewrite Hi.
Qed.

(** C10: through the first accumulation group [step_count] is 0 and every
    iteration sets the rate to [learning_rate * 0 / warmup_iters = 0]; the
    group's optimizer step, the first of the run, is made at rate 0 and leaves
    every parameter as it was. *)
Theorem first_optimizer_step_at_zero_lr (train_data val_data : list example)
    (out_dir : string) (msl : Z) (w : world) :
  schedule_ok h →
  dataset_fits (on_xla fabric) msl vocab_size train_data →
  dataset_fits (on_xla fabric) msl vocab_size val_data →
  grads w = [] →
  let G := Z.to_nat (gradient_accumulation_iters h) in
  ∃ evs w',
    for_each (train_step h fabric train_data val_data out_dir msl)
      (range (gradient_accumulation_iters h)) 0%Z w = Ok 1%Z w' ∧
    trace w' = trace w ++ evs ∧
    List.filter is_lr_set evs = replicate G (LrSet 0%Qc) ∧
    List.filter is_optimizer_step evs = [OptimizerStep 0%Qc G] ∧
    model_state w' = model_state w ∧
    ((gradient_accumulation_iters h ≤ max_iters h)%Z →
     range (max_iters h)
     = range (gradient_accumulation_iters h)
       ++ (Z.of_nat <$> seq G (Z.to_nat (max_iters h) - G))).
Proof.
  intros Hok Htrain Hval Hg G. pose proof Hok as (HG & HW & _).
  assert (HGpos : 0 < G) by (unfold G; lia).
  destruct (train_loop_run train_data val_data out_dir msl Hok Htrain Hval
              G 0 0%Z w (loop_start w Hok Hg))
    as (evs & w' & Hrun & _ & Htr & Hctl & _ & _ & _ & Hms).
  assert (Hin : ∀ i, i ∈ (Z.of_nat <$> seq 0 G) →
            (i `div` gradient_accumulation_iters h = 0)%Z).
  { intros i (j & -> & [_ Hj]%elem_of_seq)%list_elem_of_fmap.
    destruct (group_inside 0 j HG) as [Hd _]; [fold G; lia|]. exact Hd. }
  assert (Hzero : rate_at h 0 = 0%Qc).
  { rewrite rate_at_min, Z.min_l by lia. apply warmup_lr_start. }
  unfold rate_at in Hzero.
  unfold range at 1. fold G. exists evs, w'. split.
  { rewrite Hrun. destruct G as [|G'] eqn:E; [lia|]. rewrite <- E. do 2 f_equal.
    replace (Z.of_nat (0 + G)) with (gradient_accumulation_iters h) by (unfold G; lia).
    apply Z.div_same. lia. }
  split; [exact Htr|]. split; [|split; [|split]].
  - rewrite (control_view is_lr_set out_dir evs _ ltac:(by intros []) Hctl).
    rewrite (list_fmap_ext _ (λ _, [LrSet 0%Qc]) (Z.of_nat <$> seq 0 G)).
    + rewrite concat_singletons, (const_fmap _ _ (LrSet 0%Qc)) by done.
      by rewrite length_fmap, length_seq.
    + intros _ i Hi%list_elem_of_lookup_2. rewrite iteration_control_lr_set.
      rewrite (Hin i Hi), bool_decide_true by lia. by rewrite warmup_lr_start.
  - rewrite (control_view is_optimizer_step out_dir evs _ ltac:(by intros []) Hctl).
    rewrite (list_fmap_ext _ _ _ (λ _ i _, iteration_control_steps out_dir i)).
    rewrite concat_optional.
    pose proof (group_closes_once 0 HG) as Honce. simpl in Honce. fold G in Honce.
    rewrite Honce. simpl.
    destruct (group_inside 0 (G - 1) HG) as [Hd Hm]; [fold G; lia|].
    simpl in Hd, Hm. fold G in Hd, Hm. rewrite Hd, Hm.
    change (Z.of_nat 0) with 0%Z. rewrite Hzero.
    do 2 f_equal. lia.
  - apply Hms, Forall_forall. intros i Hi. right. by rewrite (Hin i Hi).
  - intros Hmax. unfold range. fold G.
    replace (Z.to_nat (max_iters h)) with (G + (Z.to_nat (max_iters h) - G))
      at 1 by (unfold G; lia).
    by rewrite seq_app, fmap_app.
Qed.

(** *** The whole run *)

Lemma validate_quiet (data : list example) (msl : Z) (w : world) :
  dataset_fits (on_xla fabric) msl vocab_size data →
  (0 < micro_batch_size h)%Z →
  (0 ≤ eval_iters h)%Z →
  ∃ val_loss evs w',
    validate h fabric data msl w = Ok val_loss w' ∧
    trace w' = trace w ++ evs ∧
    List.filter is_control evs = [] ∧
    grads w' = grads w ∧
    optimizer_lr w' = optimizer_lr w.
Proof.
  intros Hfits Hmbs Heval.
  destruct (validate_run data msl w Hfits Hmbs Heval)
    as (batches & losses & sample & w' & Hrun & _ & _ & Htr & _ & _ & _ & Hg & _ & Hlr & _).
  eexists _, _, w'. split; [exact Hrun|]. split; [exact Htr|].
  split; [|done]. rewrite !List.filter_app. simpl. rewrite app_nil_r.
  clear. induction batches as [|b batches IH]; [reflexivity|]. exact IH.
Qed.

Lemma train_run (train_data val_data : list example) (out_dir : string) (msl : Z)
    (w : world) :
  schedule_ok h →
  dataset_fits (on_xla fabric) msl vocab_size train_data →
  dataset_fits (on_xla fabric) msl vocab_size val_data →
  grads w = [] →
  ∃ evs w',
    train h fabric train_data val_data out_dir msl w = Ok tt w' ∧
    trace w' = trace w ++ evs ∧
    List.filter is_control evs
    = mark_events fabric
      ++ concat (iteration_control h fabric (warmup_lr h (warmup_iters h)) out_dir
                  <$> range (max_iters h)).
Proof.
  intros Hok Htrain Hval Hg. pose proof Hok as (HG & HW & Hmbs & Heval & _).
  destruct (validate_quiet val_data msl w Hval Hmbs Heval)
    as (val_loss & evs0 & w0 & Hrun0 & Htr0 & Hctl0 & Hg0 & _).
  set (w1 := add_event (Printed EstimatedFlopsLine) w0).
  assert (Hflops : ∃ evs2 w2,
            when (negb (strategy_is_fsdp fabric))
              (bind (measure_flops h) (λ _, emit (Printed MeasuredFlopsLine))) w1
            = Ok tt w2 ∧ trace w2 = trace w1 ++ evs2 ∧
            List.filter is_control evs2 = [] ∧ grads w2 = grads w1).
  { unfold when. destruct (negb _).
    - unfold bind, measure_flops, emit. destruct (randint _ _ _) as [ix r].
      eexists [_; _], _. split; [reflexivity|]. simpl.
      by rewrite <- app_assoc.
    - exists [], w1. by rewrite app_nil_r. }
  destruct Hflops as (evs2 & w2 & Hrun2 & Htr2 & Hctl2 & Hg2).
  assert (Hmark : ∃ w3, when (on_xla fabric) mark_step w2 = Ok tt w3 ∧
            trace w3 = trace w2 ++ mark_events fabric ∧ grads w3 = grads w2).
  { unfold when, mark_events, mark_step. destruct (on_xla fabric).
    - by eexists.
    - exists w2. by rewrite app_nil_r. }
  destruct Hmark as (w3 & Hrun3 & Htr3 & Hg3).
  assert (Hstart : loop_invariant h (warmup_lr h (warmup_iters h)) (Z.of_nat 0) 0 w3).
  { apply loop_start; [exact Hok|]. rewrite Hg3, Hg2. unfold w1. simpl.
    by rewrite Hg0. }
  destruct (train_loop_run train_data val_data out_dir msl Hok Htrain Hval
              (Z.to_nat (max_iters h)) 0 0%Z w3 Hstart)
    as (evs4 & w4 & Hrun4 & _ & Htr4 & Hctl4 & _).
  exists (evs0 ++ [Printed EstimatedFlopsLine] ++ evs2 ++ mark_events fabric ++ evs4), w4.
  split.
  { unfold bind in Hrun2. unfold train, bind. rewrite Hrun0. unfold emit at 1. fold w1.
    rewrite Hrun2, Hrun3. unfold range. rewrite Hrun4. reflexivity. }
  split.
  { rewrite Htr4, Htr3, Htr2. unfold w1. simpl. rewrite Htr0, <- !app_assoc.
    reflexivity. }
  rewrite !List.filter_app, Hctl0, Hctl2, Hctl4. simpl. f_equal.
  unfold mark_events. by destruct (on_xla fabric).
Qed.

Lemma main_run (i : inputs) (out_dir : string) (w : world) :
  schedule_ok h →
  let msl := default block_size (config_max_seq_length i) in
  dataset_fits (on_xla fabric) msl vocab_size (train_pt i) →
  dataset_fits (on_xla fabric) msl vocab_size (test_pt i) →
  ∃ evs w',
    main h fabric i out_dir w = Ok tt w' ∧
    trace w' = trace w ++ evs
               ++ [Printed TrainingTimeLine;
                   Printed (SavingLine (final_checkpoint_path out_dir));
                   Saved (final_checkpoint_path out_dir)] ∧
    List.filter is_control evs
    = mark_events fabric
      ++ concat (iteration_control h fabric (warmup_lr h (warmup_iters h)) out_dir
                  <$> range (max_iters h)).
Proof.
  intros Hok msl Htrain Hval.
  assert (Hprep : ∃ n w0, prepare h fabric i w = Ok tt w0 ∧ grads w0 = [] ∧
            trace w0 = trace w ++ [Printed LoadingModelLine;
                                   Printed (TrainableParametersLine n)]).
  { eexists _, _. split; [reflexivity|]. simpl. by rewrite <- app_assoc. }
  destruct Hprep as (n & w0 & Hprep & Hg0 & Htr0).
  destruct (train_run (train_pt i) (test_pt i) out_dir msl w0 Hok Htrain Hval Hg0)
    as (evs & w1 & Hrun & Htr & Hctl).
  exists ([Printed LoadingModelLine; Printed (TrainableParametersLine n)] ++ evs).
  eexists. split.
  { unfold main, bind. rewrite Hprep. fold msl. rewrite Hrun. reflexivity. }
  split; [|by rewrite List.filter_app, Hctl].
  simpl. rewrite Htr, Htr0. by rewrite <- !app_assoc.
Qed.

(** C6: an iteration writes the checkpoint named by its index exactly when it
    is not accumulating and the [step_count] it leaves is a multiple of
    [save_interval]; a run of [main] writes those checkpoints in order and
    ends, whatever [max_iters] is, by writing the final one. *)
Theorem checkpoints_periodic_and_final (i : inputs) (out_dir : string) (w : world) :
  schedule_ok h →
  let msl := default block_size (config_max_seq_length i) in
  dataset_fits (on_xla fabric) msl vocab_size (train_pt i) →
  dataset_fits (on_xla fabric) msl vocab_size (test_pt i) →
  (∀ iter_num step_count w0,
     ∃ evs step_count' w1,
       train_step h fabric (train_pt i) (test_pt i) out_dir msl iter_num step_count w0
       = Ok step_count' w1 ∧
       trace w1 = trace w0 ++ evs ∧
       List.filter is_saved evs
       = if closes_group h iter_num &&
            bool_decide (step_count' `mod` save_interval h = 0)%Z
         then [Saved (iter_checkpoint_path out_dir iter_num)] else []) ∧
  ∃ evs w',
    main h fabric i out_dir w = Ok tt w' ∧
    trace w' = trace w ++ evs ∧
    List.filter is_saved evs
    = ((λ n, Saved (iter_checkpoint_path out_dir n))
         <$> List.filter (saves_checkpoint h) (range (max_iters h)))
      ++ [Saved (final_checkpoint_path out_dir)] ∧
    last evs = Some (Saved (final_checkpoint_path out_dir)).
Proof.
  intros Hok msl Htrain Hval. split.
  - intros iter_num step_count w0.
    destruct (train_step_run (train_pt i) (test_pt i) out_dir msl iter_num step_count w0
                Hok Htrain Hval)
      as (x & post & w1 & Hrun & Htr & Hpost & _).
    eexists _, _, w1. split; [exact Hrun|]. split; [exact Htr|].
    rewrite !List.filter_app.
    rewrite <- (filter_within is_saved is_control post) by (by intros []).
    rewrite Hpost. unfold update_events, mark_events.
    destruct (closes_group h iter_num), (bool_decide (step_count ≤ warmup_iters h)%Z),
      (on_xla fabric); simpl; try reflexivity;
      by destruct (bool_decide (_ `mod` save_interval h = 0)%Z).
  - destruct (main_run i out_dir w Hok Htrain Hval) as (evs & w' & Hrun & Htr & Hctl).
    eexists _, w'. split; [exact Hrun|]. split; [exact Htr|]. split.
    + rewrite List.filter_app. simpl. f_equal.
      rewrite <- (filter_within is_saved is_control evs) by (by intros []).
      rewrite Hctl, List.filter_app, filter_concat, <- list_fmap_compose.
      rewrite (list_fmap_ext _ _ _ (λ _ n _, iteration_control_saved (held := warmup_lr h (warmup_iters h))
                                            out_dir n)).
      rewrite concat_optional. unfold mark_events. by destruct (on_xla fabric).
    + by rewrite last_app.
Qed.

(** *** Claims about the checkpoint and the configuration *)

(** C7: a saved adapter checkpoint holds the model's parameters whose names the
    adapter filter accepts, and no others: its set of names is the accepted
    subset of the model's set of names. *)
Theorem save_adapter_checkpoint_names (path : string) (w : world) :
  ∃ artifact w',
    save_adapter_checkpoint path w = Ok tt w' ∧
    files w' !! path = Some artifact ∧
    dom artifact = filter (λ name, adapter_filter name = true) (dom (model_state w)) ∧
    (∀ name, artifact !! name
             = if adapter_filter name then model_state w !! name else None) ∧
    model_state w' = model_state w.
Proof.
  eexists _, _. split; [reflexivity|]. simpl. rewrite lookup_insert_eq.
  split; [reflexivity|]. split; [|split; [|reflexivity]].
  - apply dom_filter_L. intros name. rewrite elem_of_filter, elem_of_dom.
    unfold is_Some. simpl. split.
    + intros [Hf [p Hp]]. eauto.
    + intros (p & Hp & Hf). eauto.
  - intros name. apply option_eq. intros p. rewrite map_lookup_filter_Some. simpl.
    destruct (adapter_filter name); split; intros; destruct_and?; try done.
Qed.

(** C3 (as amended): [gradient_accumulation_iters] is the floor of
    [batch_size / micro_batch_size], and the module asserts only that this
    floor is positive: the module level succeeds exactly when both divisors
    are non-zero and the quotient is at least 1, whole or not, and when it
    fails nothing of [main] has run. *)
Theorem module_init_asserts_floor (c : Constants.t) :
  (∀ hp, module_init c = Done hp →
     (0 < gradient_accumulation_iters hp)%Z ∧
     (Z2Qc (gradient_accumulation_iters hp) <= accumulation_ratio c)%Qc ∧
     (accumulation_ratio c < Z2Qc (gradient_accumulation_iters hp + 1))%Qc) ∧
  ((∃ hp, module_init c = Done hp) ↔
   Constants.devices c ≠ 0%Z ∧ Constants.micro_batch_size c ≠ 0%Z ∧
   (1 <= accumulation_ratio c)%Qc) ∧
  (∀ e tpu accelerator rank i out_dir w,
     module_init c = Fail e → script c tpu accelerator rank i out_dir w = Raise e w).
Proof.
  split; [|split].
  - intros hp (_ & _ & -> & Hpos)%module_init_done.
    split; [exact Hpos|]. apply floor_bounds.
  - split.
    + intros [hp (Hd & Hm & HG & Hpos)%module_init_done].
      split; [exact Hd|]. split; [exact Hm|]. apply floor_positive. by rewrite <- HG.
    + intros (Hd & Hm & Hratio). apply floor_positive in Hratio.
      unfold module_init, py_truediv, py_float_floordiv, py_floordiv.
      rewrite !bool_decide_false by assumption. cbn [result_bind].
      unfold accumulation_ratio in Hratio. apply Z.ltb_lt in Hratio. rewrite Hratio.
      cbn [negb result_bind]. eauto.
  - intros e tpu accelerator rank i out_dir w He. unfold script. by rewrite He.
Qed.

(** *** [get_batch], further *)

(** Whatever [get_batch] does, raising included, it moves the generator at
    most. *)
Lemma get_batch_frame (data : list example) (msl : Z) (w : world) :
  match get_batch h fabric data msl w with
  | Ok _ w' | Raise _ w' => untouched w w' ∧ trace w' = trace w
  end.
Proof.
  unfold get_batch, bind, draw_indices.
  repeat case_bool_decide; try (split; [apply untouched_refl | reflexivity]).
  destruct (randint _ _ _) as [ix r]. unfold lift.
  destruct (collate _ _ _ _) as [[x y]|e]; simpl; by repeat split.
Qed.

(** X18: what a padded batch counts: under the hypotheses on which [get_batch]
    returns, the positions of its label tensor that [loss_fn] counts are those
    of the picked examples' own labels, past the first and other than -1; no
    padding is counted, whatever the pad length. *)
Theorem get_batch_padding_is_not_counted (data : list example) (msl : Z) (w : world) :
  data ≠ [] →
  (0 < micro_batch_size h)%Z →
  let draw := randint (length data) (Z.to_nat (micro_batch_size h)) (rng w) in
  let batch := picked data draw.1 in
  let L := pad_length (on_xla fabric) msl batch in
  (on_xla fabric = true → Forall (λ e, (Z.of_nat (length (input_ids e)) ≤ L)%Z) batch) →
  Forall (λ e, (Z.of_nat (length (labels e)) ≤ L)%Z) batch →
  ∃ x y w',
    get_batch h fabric data msl w = Ok (x, y) w' ∧
    shape2 (length batch) (Z.to_nat L) (rows y) ∧
    ∀ p, p ∈ positions (length batch) (Z.to_nat L) →
         counted (rows y) p ↔ real_label batch p.
Proof.
  intros Hdata Hmbs draw batch L Hxla Hlab.
  destruct (drawn_indices data w Hdata Hmbs) as (Hne & Hlen & Hrange).
  fold draw in Hne, Hlen, Hrange.
  assert (Hin : Forall (λ e, (Z.of_nat (length (input_ids e)) ≤ L)%Z) batch).
  { destruct (on_xla fabric) eqn:Hx; [by apply Hxla|].
    unfold L, pad_length.
    pose proof (longest_bounds (input_ids <$> batch)) as Hb.
    apply Forall_fmap in Hb. eapply Forall_impl; [exact Hb|].
    intros e He. simpl in He. lia. }
  rewrite get_batch_run by (assumption || lia). fold draw.
  rewrite (collate_fits (on_xla fabric) data msl draw.1 Hne Hrange Hin Hlab).
  fold batch L. eexists _, _, _. split; [reflexivity|]. simpl.
  assert (HLnat : ∀ n : nat, (Z.of_nat n ≤ L)%Z → n ≤ Z.to_nat L) by (intros; lia).
  split.
  - rewrite list_fmap_compose, <- (length_fmap labels).
    apply padded_shape, Forall_fmap.
    eapply Forall_impl; [exact Hlab|]. intros e He. simpl. by apply HLnat.
  - intros p Hp. by apply padded_labels_counted.
Qed.

(** X19: under XLA the pad length is [max_seq_length], whatever was picked:
    [get_batch] returns exactly when every picked [input_ids] and [labels]
    fits it, both tensors then have shape [(micro_batch_size,
    max_seq_length)], and a picked [input_ids] longer than that is not cut
    short but makes the padding raise. *)
Theorem get_batch_on_xla_never_truncates (data : list example) (msl : Z) (w : world) :
  on_xla fabric = true →
  data ≠ [] →
  (0 < micro_batch_size h)%Z →
  let draw := randint (length data) (Z.to_nat (micro_batch_size h)) (rng w) in
  let batch := picked data draw.1 in
  ((∃ x y w', get_batch h fabric data msl w = Ok (x, y) w') ↔
   Forall (λ e, (Z.of_nat (length (input_ids e)) ≤ msl)%Z ∧
                (Z.of_nat (length (labels e)) ≤ msl)%Z) batch) ∧
  (∀ x y w', get_batch h fabric data msl w = Ok (x, y) w' →
     shape2 (Z.to_nat (micro_batch_size h)) (Z.to_nat msl) (rows x) ∧
     shape2 (Z.to_nat (micro_batch_size h)) (Z.to_nat msl) (rows y)) ∧
  (Exists (λ e, (msl < Z.of_nat (length (input_ids e)))%Z) batch →
   get_batch h fabric data msl w = Raise RuntimeError (set_rng draw.2 w)).
Proof.
  intros Hx Hdata Hmbs draw batch.
  destruct (drawn_indices data w Hdata Hmbs) as (Hne & Hlen & Hrange).
  fold draw in Hne, Hlen, Hrange.
  assert (HL : pad_length (on_xla fabric) msl batch = msl).
  { unfold pad_length. by rewrite Hx. }
  assert (Hb : length batch = Z.to_nat (micro_batch_size h)).
  { unfold batch. by rewrite picked_length. }
  assert (Hfit : Forall (λ e, (Z.of_nat (length (input_ids e)) ≤ msl)%Z ∧
                              (Z.of_nat (length (labels e)) ≤ msl)%Z) batch →
            ∃ x y, get_batch h fabric data msl w = Ok (x, y) (set_rng draw.2 w) ∧
              shape2 (Z.to_nat (micro_batch_size h)) (Z.to_nat msl) (rows x) ∧
              shape2 (Z.to_nat (micro_batch_size h)) (Z.to_nat msl) (rows y)).
  { intros Hall.
    assert (Hin : Forall (λ e, (Z.of_nat (length (input_ids e))
                                ≤ pad_length (on_xla fabric) msl batch)%Z) batch).
    { rewrite HL. eapply Forall_impl; [exact Hall|]. by intros e [He _]. }
    assert (Hlab : Forall (λ e, (Z.of_nat (length (labels e))
                                 ≤ pad_length (on_xla fabric) msl batch)%Z) batch).
    { rewrite HL. eapply Forall_impl; [exact Hall|]. by intros e [_ He]. }
    rewrite get_batch_run by (assumption || lia). fold draw.
    rewrite (collate_fits (on_xla fabric) data msl draw.1 Hne Hrange Hin Hlab).
    fold batch. rewrite HL. eexists _, _. split; [reflexivity|]. simpl.
    assert (HLnat : ∀ n : nat, (Z.of_nat n ≤ msl)%Z → n ≤ Z.to_nat msl) by (intros; lia).
    split.
    - rewrite <- Hb, list_fmap_compose, <- (length_fmap input_ids).
      apply padded_shape, Forall_fmap.
      eapply Forall_impl; [exact Hall|]. intros e [He _]. simpl. by apply HLnat.
    - rewrite <- Hb, list_fmap_compose, <- (length_fmap labels).
      apply padded_shape, Forall_fmap.
      eapply Forall_impl; [exact Hall|]. intros e [_ He]. simpl. by apply HLnat. }
  assert (Hover_in : Exists (λ e, (msl < Z.of_nat (length (input_ids e)))%Z) batch →
            get_batch h fabric data msl w = Raise RuntimeError (set_rng draw.2 w)).
  { intros Hex. rewrite get_batch_run by (assumption || lia). fold draw.
    rewrite Hx, (collate_inputs_overflow data msl draw.1 Hrange Hex). reflexivity. }
  assert (Hover : ¬ Forall (λ e, (Z.of_nat (length (input_ids e)) ≤ msl)%Z ∧
                                 (Z.of_nat (length (labels e)) ≤ msl)%Z) batch →
            get_batch h fabric data msl w = Raise RuntimeError (set_rng draw.2 w)).
  { intros Hnot.
    destruct (decide (Forall (λ e, (Z.of_nat (length (input_ids e)) ≤ msl)%Z) batch))
      as [Hin|Hin].
    - rewrite get_batch_run by (assumption || lia). fold draw.
      rewrite (collate_labels_overflow (on_xla fabric) data msl draw.1 Hne Hrange);
        [reflexivity | fold batch; by rewrite HL |].
      fold batch. rewrite HL.
      apply not_Forall_Exists in Hnot; [|apply _].
      rewrite Forall_forall in Hin. apply Exists_exists in Hnot as (e & He & Hbad).
      apply Exists_exists. exists e. split; [exact He|]. specialize (Hin e He).
      simpl in Hbad. lia.
    - apply Hover_in. apply not_Forall_Exists in Hin; [|apply _].
      eapply Exists_impl; [exact Hin|]. intros e He. simpl in He. lia. }
  split; [|split; [|exact Hover_in]].
  - split.
    + intros (x & y & w' & Hrun).
      destruct (decide (Forall (λ e, (Z.of_nat (length (input_ids e)) ≤ msl)%Z ∧
                                     (Z.of_nat (length (labels e)) ≤ msl)%Z) batch))
        as [Hall|Hnot]; [exact Hall|].
      rewrite (Hover Hnot) in Hrun. discriminate.
    + intros Hall. destruct (Hfit Hall) as (x & y & Hrun & _). eauto.
  - intros x y w' Hrun.
    destruct (decide (Forall (λ e, (Z.of_nat (length (input_ids e)) ≤ msl)%Z ∧
                                   (Z.of_nat (length (labels e)) ≤ msl)%Z) batch))
      as [Hall|Hnot].
    + destruct (Hfit Hall) as (x' & y' & Hrun' & Hsx & Hsy).
      rewrite Hrun in Hrun'. by injection Hrun' as -> ->.
    + rewrite (Hover Hnot) in Hrun. discriminate.
Qed.

(** *** [validate], further *)

Lemma validate_step_frame (data : list example) (msl : Z) (k : Z) (losses : list scalar)
    (w : world) :
  match validate_step h fabric data msl k losses w with
  | Ok _ w' | Raise _ w' => untouched w w'
  end.
Proof.
  unfold validate_step, bind. pose proof (get_batch_frame data msl w) as Hget.
  destruct (get_batch h fabric data msl w) as [[x y] w1|e w1]; [|apply Hget].
  destruct Hget as [Hun _]. unfold call_model, lift.
  destruct (loss_fn _ _) as [loss|e]; simpl;
    (eapply untouched_trans; [exact Hun | by repeat split]).
Qed.

Lemma validate_loop_frame (data : list example) (msl : Z) (ks : list Z)
    (losses : list scalar) (w : world) :
  match for_each (validate_step h fabric data msl) ks losses w with
  | Ok _ w' | Raise _ w' => untouched w w'
  end.
Proof.
  revert losses w. induction ks as [|k ks IH]; intros losses w; [apply untouched_refl|].
  rewrite for_each_cons. pose proof (validate_step_frame data msl k losses w) as Hstep.
  destruct (validate_step h fabric data msl k losses w) as [losses' w1|e w1]; [|exact Hstep].
  specialize (IH losses' w1).
  destruct (for_each _ ks losses' w1) as [l w2|e w2]; by eapply untouched_trans.
Qed.

(** X14: [validate] puts the model back in training mode on its last line only:
    whenever it raises, whatever the reason, the model is left in evaluation
    mode, while the decorator restores gradient tracking; parameters,
    gradients and optimizer are as they were. *)
Theorem validate_failure_leaves_eval_mode (data : list example) (msl : Z) (e : exn)
    (w w' : world) :
  validate h fabric data msl w = Raise e w' →
  model_training w' = false ∧
  grad_enabled w' = grad_enabled w ∧
  model_state w' = model_state w ∧
  grads w' = grads w ∧
  optimizer_moments w' = optimizer_moments w ∧
  optimizer_lr w' = optimizer_lr w ∧
  files w' = files w.
Proof.
  unfold validate, no_grad, bind, emit, set_mode.
  set (w1 := set_model_training false
               (add_event (Printed ValidatingLine) (set_grad_enabled false w))).
  unfold lift, zeros. case_bool_decide.
  - unfold raise. intros [= <- <-]. by repeat split.
  - unfold ret.
    pose proof (validate_loop_frame data msl (range (eval_iters h))
                  (replicate (Z.to_nat (eval_iters h)) (Finite 0)) w1) as Hloop.
    destruct (for_each _ _ _ w1) as [losses w2|e2 w2].
    + destruct (generate _ _ _ _ _ _) as [out r]. discriminate.
    + intros [= <- <-]. destruct Hloop as (Hms & Hmt & _ & Hg & Hom & Hlr & Hf).
      simpl. rewrite Hms, Hmt, Hg, Hom, Hlr, Hf. by repeat split.
Qed.

(** X15: with [eval_iters = 0] the loop of [validate] draws no batch, so the
    dataset is never read, empty or not, and the mean of the empty buffer of
    losses, which is not a number, is returned as the validation loss. *)
Theorem validate_without_batches_is_nan (data : list example) (msl : Z) (w : world) :
  eval_iters h = 0%Z →
  ∃ sample w',
    validate h fabric data msl w = Ok NaN w' ∧
    trace w' = trace w ++ validation_events [] sample ∧
    model_training w' = true ∧
    grad_enabled w' = grad_enabled w ∧
    model_state w' = model_state w.
Proof.
  intros Heval. unfold validate, no_grad, bind, emit, set_mode, lift, zeros, range.
  rewrite Heval. simpl. unfold ret. simpl.
  destruct (generate _ _ _ _ _ _) as [out r] eqn:Hgen.
  exists (decode out). eexists. split; [reflexivity|]. simpl.
  rewrite <- !app_assoc. by repeat split.
Qed.

(** *** The calls of a run, in order *)

Lemma validate_trace (data : list example) (msl : Z) (w : world) :
  dataset_fits (on_xla fabric) msl vocab_size data →
  (0 < micro_batch_size h)%Z →
  (0 ≤ eval_iters h)%Z →
  ∃ val_inputs sample val_loss w',
    validate h fabric data msl w = Ok val_loss w' ∧
    length val_inputs = Z.to_nat (eval_iters h) ∧
    trace w' = trace w ++ validation_events val_inputs sample.
Proof.
  intros Hfits Hmbs Heval.
  destruct (validate_run data msl w Hfits Hmbs Heval)
    as (batches & losses & sample & w' & Hrun & Hlen & _ & Htr & _).
  exists ((λ b, rows b.1) <$> batches), sample, (tensor_mean losses), w'.
  split; [exact Hrun|]. split; [by rewrite length_fmap|].
  rewrite Htr. unfold validation_events. by rewrite <- list_fmap_compose.
Qed.

Lemma report_trace (val_data : list example) (out_dir : string) (msl : Z)
    (i s : Z) (acc : bool) (loss : scalar) (w : world) :
  schedule_ok h →
  dataset_fits (on_xla fabric) msl vocab_size val_data →
  ∃ val_inputs sample val_loss w',
    report h fabric val_data out_dir msl i s acc loss w = Ok tt w' ∧
    length val_inputs = Z.to_nat (eval_iters h) ∧
    trace w' = trace w
               ++ [TrainBatchEnd ((i + 1) * micro_batch_size h)]
               ++ (if logs_iteration h i
                   then [Printed (IterLine i s loss (negb acc))] else [])
               ++ (if negb acc && bool_decide (s `mod` eval_interval h = 0)%Z
                   then validation_events val_inputs sample
                        ++ [EvalEnd; Printed (ValLossLine i val_loss); Barrier]
                   else [])
               ++ (if negb acc && bool_decide (s `mod` save_interval h = 0)%Z
                   then [Printed (SavingLine (iter_checkpoint_path out_dir i));
                         Saved (iter_checkpoint_path out_dir i)]
                   else []).
Proof.
  intros (HG & HW & Hmbs & Heval & Hlog & Hev & Hsave) Hfits.
  unfold report, bind, emit, lift, py_mod, logs_iteration.
  rewrite bool_decide_false by exact Hlog. unfold ret.
  set (w1 := add_event (TrainBatchEnd _) w).
  set (logs := if bool_decide (i `mod` log_interval h = 0)%Z
               then [Printed (IterLine i s loss (negb acc))] else []).
  assert (Hlogged : ∃ w2, when (bool_decide (i `mod` log_interval h = 0)%Z)
                     (λ w0, Ok tt (add_event (Printed (IterLine i s loss (negb acc))) w0)) w1
                   = Ok tt w2 ∧ trace w2 = trace w1 ++ logs).
  { unfold when, logs. case_bool_decide; eexists; (split; [reflexivity|]); simpl;
      by rewrite ?app_nil_r. }
  destruct Hlogged as (w2 & -> & Htr2).
  rewrite due_run by exact Hev.
  assert (Hevald : ∃ val_inputs sample val_loss w3,
            when (negb acc && bool_decide (s `mod` eval_interval h = 0)%Z)
              (λ w0, match validate h fabric val_data msl w0 with
                     | Ok val_loss w4 =>
                         Ok tt (add_event Barrier
                                  (add_event (Printed (ValLossLine i val_loss))
                                     (add_event EvalEnd w4)))
                     | Raise e w4 => Raise e w4
                     end) w2 = Ok tt w3 ∧
            length val_inputs = Z.to_nat (eval_iters h) ∧
            trace w3 = trace w2
                       ++ (if negb acc && bool_decide (s `mod` eval_interval h = 0)%Z
                           then validation_events val_inputs sample
                                ++ [EvalEnd; Printed (ValLossLine i val_loss); Barrier]
                           else [])).
  { unfold when.
    destruct (negb acc && bool_decide (s `mod` eval_interval h = 0)%Z).
    - cbv beta.
      destruct (validate_trace val_data msl w2 Hfits Hmbs Heval)
        as (val_inputs & sample & val_loss & w4 & -> & Hlen & Htr).
      exists val_inputs, sample, val_loss. eexists. split; [reflexivity|].
      split; [exact Hlen|]. cbn [trace add_event]. rewrite Htr, <- !app_assoc. reflexivity.
    - exists (replicate (Z.to_nat (eval_iters h)) []), "", NaN, w2.
      rewrite app_nil_r, length_replicate. done. }
  destruct Hevald as (val_inputs & sample & val_loss & w3 & Hrun3 & Hlen & Htr3).
  unfold when in Hrun3 |- *. unfold bind, emit in Hrun3.
  rewrite Hrun3. rewrite due_run by exact Hsave.
  exists val_inputs, sample, val_loss.
  destruct (negb acc && bool_decide (s `mod` save_interval h = 0)%Z).
  - eexists. split; [reflexivity|]. split; [exact Hlen|]. unfold fabric_save. simpl.
    rewrite Htr3, Htr2. unfold w1. simpl. by rewrite <- !app_assoc.
  - exists w3. split; [reflexivity|]. split; [exact Hlen|].
    rewrite Htr3, Htr2. unfold w1. simpl. by rewrite <- !app_assoc, app_nil_r.
Qed.

Lemma update_trace (acc : bool) (s : Z) (w : world) :
  ∃ w',
    update h fabric acc s w = Ok (if acc then s else (s + 1)%Z) w' ∧
    trace w' = trace w ++ update_events fabric acc (optimizer_lr w) (length (grads w)) ∧
    grads w' = (if acc then grads w else []).
Proof.
  unfold update, update_events, mark_events, when, bind, optimizer_step, zero_grad,
    mark_step, emit, ret.
  destruct acc; simpl; destruct (on_xla fabric); eexists; (split; [reflexivity|]);
    simpl; by rewrite ?app_nil_r, <- ?app_assoc.
Qed.

(** One iteration, started where the invariant holds, makes the calls
    [iteration_events] lists, in that order. *)
Lemma train_step_trace (train_data val_data : list example) (out_dir : string)
    (msl : Z) (i s : Z) (w : world) :
  schedule_ok h →
  dataset_fits (on_xla fabric) msl vocab_size train_data →
  dataset_fits (on_xla fabric) msl vocab_size val_data →
  (0 ≤ i)%Z →
  loop_invariant h (warmup_lr h (warmup_iters h)) i s w →
  ∃ d w',
    train_step h fabric train_data val_data out_dir msl i s w
    = Ok ((i + 1) `div` gradient_accumulation_iters h)%Z w' ∧
    loop_invariant h (warmup_lr h (warmup_iters h)) (i + 1)
      ((i + 1) `div` gradient_accumulation_iters h)%Z w' ∧
    length (it_val_inputs d) = Z.to_nat (eval_iters h) ∧
    trace w' = trace w ++ iteration_events h fabric out_dir (grad_enabled w) i d ∧
    grad_enabled w' = grad_enabled w.
Proof.
  intros Hok Htrain Hval Hi Hinv.
  destruct (train_step_invariant train_data val_data out_dir msl i s w
              Hok Htrain Hval Hi Hinv)
    as (evs & w' & Hrun & Hinv' & _ & _ & _ & Hge & _).
  destruct Hinv as (Hs & Hg & Hlr & _). pose proof Hok as (HG & HW & Hmbs & _).
  revert Hrun. unfold train_step, bind. rewrite warmup_run by exact HW.
  set (w1 := if bool_decide (s ≤ warmup_iters h)%Z then _ else w).
  assert (Hw1 : trace w1 = trace w ++ (if bool_decide (s ≤ warmup_iters h)%Z
                                       then [LrSet (warmup_lr h s)] else [])
                ∧ optimizer_lr w1 = rate_at h s ∧ grads w1 = grads w
                ∧ grad_enabled w1 = grad_enabled w).
  { unfold w1, rate_at, rate_in_effect. destruct (decide (s ≤ warmup_iters h)%Z) as [Hle|Hgt].
    - rewrite !bool_decide_true by exact Hle. done.
    - rewrite !bool_decide_false by exact Hgt. rewrite app_nil_r.
      repeat split. apply Hlr. lia. }
  destruct Hw1 as (Htr1 & Hlr1 & Hg1 & Hge1).
  destruct (forward_backward_run train_data msl i w1 Htrain Hmbs HG)
    as (x & y & r & loss & ->).
  set (w2 := add_event (BackwardPass _ _) _).
  destruct (update_trace (negb (closes_group h i)) s w2) as (w3 & -> & Htr3 & _).
  set (s' := if negb (closes_group h i) then s else (s + 1)%Z).
  destruct (report_trace val_data out_dir msl i s' (negb (closes_group h i)) loss w3
              Hok Hval)
    as (val_inputs & sample & val_loss & w4 & -> & Hlen & Htr4).
  unfold ret. intros [= Hs' <-].
  exists {| it_input := rows x; it_loss := loss; it_val_inputs := val_inputs;
            it_sample := sample; it_val_loss := val_loss |}, w4.
  split; [unfold ret; by rewrite Hs'|]. split; [exact Hinv'|]. split; [exact Hlen|].
  split; [|exact Hge].
  rewrite Htr4, Htr3. unfold w2. simpl. rewrite Htr1, Hlr1, Hg1, Hge1.
  unfold iteration_events, evaluates, saves_checkpoint. simpl.
  rewrite Hs', <- Hs, length_app, negb_involutive. simpl.
  replace (Z.to_nat (i `mod` gradient_accumulation_iters h) + 1)
    with (length (grads w) + 1) by lia.
  rewrite <- !app_assoc. reflexivity.
Qed.

(** Any stretch of the loop, started where the invariant holds. *)
Lemma train_loop_trace (train_data val_data : list example) (out_dir : string) (msl : Z) :
  schedule_ok h →
  dataset_fits (on_xla fabric) msl vocab_size train_data →
  dataset_fits (on_xla fabric) msl vocab_size val_data →
  ∀ (n a : nat) (s : Z) (w : world),
  loop_invariant h (warmup_lr h (warmup_iters h)) (Z.of_nat a) s w →
  ∃ ds w',
    for_each (train_step h fabric train_data val_data out_dir msl)
      (Z.of_nat <$> seq a n) s w
    = Ok (if n is O then s else Z.of_nat (a + n) `div` gradient_accumulation_iters h)%Z w' ∧
    length ds = n ∧
    Forall (λ d, length (it_val_inputs d) = Z.to_nat (eval_iters h)) ds ∧
    trace w' = trace w
               ++ concat (zip_with (iteration_events h fabric out_dir (grad_enabled w))
                            (Z.of_nat <$> seq a n) ds).
Proof.
  intros Hok Htrain Hval. induction n as [|n IH]; intros a s w Hinv.
  - exists [], w. simpl. rewrite app_nil_r. by repeat split.
  - cbn [seq fmap list_fmap]. rewrite for_each_cons.
    destruct (train_step_trace train_data val_data out_dir msl (Z.of_nat a) s w
                Hok Htrain Hval ltac:(lia) Hinv)
      as (d & w1 & -> & Hinv1 & Hlen1 & Htr1 & Hge1).
    replace (Z.of_nat a + 1)%Z with (Z.of_nat (S a)) in * by lia.
    destruct (IH (S a) _ w1 Hinv1) as (ds & w2 & Hrun2 & Hlen2 & Hall2 & Htr2).
    fold (@fmap list _ nat Z Z.of_nat (seq (S a) n)). rewrite Hrun2.
    replace (S a + n) with (a + S n) in * by lia.
    exists (d :: ds), w2. split.
    { destruct n; [|reflexivity]. by replace (a + 1) with (S a) by lia. }
    split; [simpl; by rewrite Hlen2|]. split; [by constructor|].
    rewrite Htr2, Htr1, Hge1. cbn [zip_with concat]. by rewrite <- app_assoc.
Qed.

(** A whole [train]: the calls it makes, in order, and what it leaves in the
    optimizer. *)
Lemma train_trace (train_data val_data : list example) (out_dir : string) (msl : Z)
    (w : world) :
  schedule_ok h →
  dataset_fits (on_xla fabric) msl vocab_size train_data →
  dataset_fits (on_xla fabric) msl vocab_size val_data →
  grads w = [] →
  ∃ val_inputs sample ds w',
    train h fabric train_data val_data out_dir msl w = Ok tt w' ∧
    length val_inputs = Z.to_nat (eval_iters h) ∧
    length ds = Z.to_nat (max_iters h) ∧
    Forall (λ d, length (it_val_inputs d) = Z.to_nat (eval_iters h)) ds ∧
    trace w' = trace w
               ++ train_events h fabric out_dir (grad_enabled w) val_inputs sample ds ∧
    Z.of_nat (length (grads w'))
    = (Z.of_nat (Z.to_nat (max_iters h)) `mod` gradient_accumulation_iters h)%Z ∧
    optimizer_lr w'
    = (if bool_decide (0 < max_iters h)%Z
       then rate_at h ((max_iters h - 1) `div` gradient_accumulation_iters h)%Z
       else optimizer_lr w) ∧
    grad_enabled w' = grad_enabled w.
Proof.
  intros Hok Htrain Hval Hg. pose proof Hok as (HG & HW & Hmbs & Heval & _).
  destruct (validate_run val_data msl w Hval Hmbs Heval)
    as (batches & losses & sample & w0 & Hrun0 & Hlen0 & _ & Htr0 & _ & Hge0 & _ & Hg0 & _
        & Hlr0 & _).
  set (w1 := add_event (Printed EstimatedFlopsLine) w0).
  assert (Hflops : ∃ w2,
            when (negb (strategy_is_fsdp fabric))
              (bind (measure_flops h) (λ _, emit (Printed MeasuredFlopsLine))) w1
            = Ok tt w2 ∧ trace w2 = trace w0 ++ flops_events h fabric ∧
            grads w2 = grads w0 ∧ grad_enabled w2 = grad_enabled w0 ∧
            optimizer_lr w2 = optimizer_lr w0).
  { unfold when, flops_events. destruct (strategy_is_fsdp fabric); simpl.
    - exists w1. by repeat split.
    - unfold bind, measure_flops, emit. destruct (randint _ _ _) as [ix r].
      eexists. split; [reflexivity|]. simpl. by rewrite <- !app_assoc. }
  destruct Hflops as (w2 & Hrun2 & Htr2 & Hg2 & Hge2 & Hlr2).
  assert (Hmark : ∃ w3, when (on_xla fabric) mark_step w2 = Ok tt w3 ∧
            trace w3 = trace w2 ++ mark_events fabric ∧ grads w3 = grads w2 ∧
            grad_enabled w3 = grad_enabled w2 ∧ optimizer_lr w3 = optimizer_lr w2).
  { unfold when, mark_events, mark_step. destruct (on_xla fabric).
    - by eexists.
    - exists w2. by rewrite app_nil_r. }
  destruct Hmark as (w3 & Hrun3 & Htr3 & Hg3 & Hge3 & Hlr3).
  assert (Hstart : loop_invariant h (warmup_lr h (warmup_iters h)) (Z.of_nat 0) 0 w3).
  { apply loop_start; [exact Hok|]. by rewrite Hg3, Hg2, Hg0. }
  destruct (train_loop_run train_data val_data out_dir msl Hok Htrain Hval
              (Z.to_nat (max_iters h)) 0 0%Z w3 Hstart)
    as (evs4 & w4 & Hrun4 & (_ & Hlen4 & _) & _ & _ & Hge4 & _ & Hlr4 & _).
  assert (Hnone : Z.to_nat (max_iters h) = 0 → w4 = w3).
  { intros E. rewrite E in Hrun4. simpl in Hrun4. unfold ret in Hrun4. congruence. }
  destruct (train_loop_trace train_data val_data out_dir msl Hok Htrain Hval
              (Z.to_nat (max_iters h)) 0 0%Z w3 Hstart)
    as (ds & w4' & Hrun4' & Hlen & Hall & Htr4).
  rewrite Hrun4 in Hrun4'. injection Hrun4' as <-.
  exists ((λ b, rows b.1) <$> batches), sample, ds, w4.
  split.
  { unfold bind in Hrun2. unfold train, bind. rewrite Hrun0. unfold emit at 1. fold w1.
    rewrite Hrun2, Hrun3. unfold range. rewrite Hrun4. reflexivity. }
  split; [by rewrite length_fmap|]. split; [exact Hlen|]. split; [exact Hall|].
  split.
  { rewrite Htr4, Htr3, Htr2, Htr0, Hge3, Hge2, Hge0.
    unfold train_events, validation_events, range.
    rewrite <- list_fmap_compose, <- !app_assoc. reflexivity. }
  split; [exact Hlen4|]. split; [|congruence].
  case_bool_decide as Hpos.
  - rewrite Hlr4 by lia. unfold rate_at. do 2 f_equal. lia.
  - rewrite Hnone by lia. congruence.
Qed.

(** *** Views of a run *)

Lemma elem_of_range (n i : Z) : i ∈ range n ↔ (0 ≤ i < n)%Z.
Proof.
  unfold range. rewrite list_elem_of_fmap. split.
  - intros (j & -> & Hj%elem_of_seq). lia.
  - intros Hi. exists (Z.to_nat i). rewrite elem_of_seq. lia.
Qed.

Lemma closes_group_mod (i : Z) :
  (0 < gradient_accumulation_iters h)%Z → (0 ≤ i)%Z →
  closes_group h i = true →
  (i `mod` gradient_accumulation_iters h = gradient_accumulation_iters h - 1)%Z ∧
  ((i + 1) `div` gradient_accumulation_iters h
   = i `div` gradient_accumulation_iters h + 1)%Z.
Proof.
  intros HG Hi Hc. unfold closes_group in Hc. apply bool_decide_eq_true in Hc.
  pose proof (Z.mod_pos_bound i (gradient_accumulation_iters h) HG).
  destruct (next_mod (gradient_accumulation_iters h) i HG Hi)
    as [(? & ? & ?)|(? & ? & ?)]; lia.
Qed.

(** The groups closed within the first [n] iterations. *)
Lemma closes_group_count (n : nat) :
  (0 < gradient_accumulation_iters h)%Z →
  length (List.filter (closes_group h) (Z.of_nat <$> seq 0 n))
  = Z.to_nat (Z.of_nat n `div` gradient_accumulation_iters h).
Proof.
  intros HG. induction n as [|n IH]; [by rewrite Z.div_0_l by lia|].
  rewrite seq_S, fmap_app, List.filter_app, length_app, IH. simpl.
  pose proof (Z.div_pos (Z.of_nat n) (gradient_accumulation_iters h) ltac:(lia) HG).
  pose proof (Z.mod_pos_bound (Z.of_nat n) (gradient_accumulation_iters h) HG).
  replace (Z.of_nat (S n)) with (Z.of_nat n + 1)%Z by lia.
  unfold closes_group.
  destruct (next_mod (gradient_accumulation_iters h) (Z.of_nat n) HG ltac:(lia))
    as [(Hlt & -> & Hm)|(Heq & -> & Hm)].
  - rewrite bool_decide_false by lia. simpl. lia.
  - rewrite bool_decide_true by exact Hm. simpl. lia.
Qed.

(** The closed groups, among the first [n] iterations, whose number is a
    multiple of [interval]. *)
Lemma scheduled_count (interval : Z) (n : nat) :
  (0 < gradient_accumulation_iters h)%Z → (0 < interval)%Z →
  length (List.filter
            (λ i, closes_group h i &&
                  bool_decide (((i + 1) `div` gradient_accumulation_iters h)
                                 `mod` interval = 0)%Z)
            (Z.of_nat <$> seq 0 n))
  = Z.to_nat ((Z.of_nat n `div` gradient_accumulation_iters h) `div` interval).
Proof.
  intros HG HS. induction n as [|n IH]; [reflexivity|].
  rewrite seq_S, fmap_app, List.filter_app, length_app, IH. simpl.
  set (q := (Z.of_nat n `div` gradient_accumulation_iters h)%Z).
  assert (Hq : (0 ≤ q)%Z) by (apply Z.div_pos; lia).
  pose proof (Z.div_pos q interval Hq HS).
  replace (Z.of_nat (S n)) with (Z.of_nat n + 1)%Z by lia.
  unfold closes_group.
  destruct (next_mod (gradient_accumulation_iters h) (Z.of_nat n) HG ltac:(lia))
    as [(Hlt & -> & Hm)|(Heq & -> & Hm)].
  - pose proof (Z.mod_pos_bound (Z.of_nat n) (gradient_accumulation_iters h) HG).
    rewrite bool_decide_false by lia. simpl. fold q. lia.
  - rewrite bool_decide_true by exact Hm. fold q.
    destruct (next_mod interval q HS Hq) as [(Hlt' & -> & Hm')|(Heq' & -> & Hm')].
    + pose proof (Z.mod_pos_bound q interval HS).
      rewrite bool_decide_false by lia. simpl. lia.
    + rewrite bool_decide_true by exact Hm'. simpl. lia.
Qed.

Lemma filter_forwards (P : event → bool) (g : bool) (xs : list (list (list Z))) :
  (∀ x, P (ForwardPass g x) = false) → List.filter P (ForwardPass g <$> xs) = [].
Proof.
  intros HP. induction xs as [|x xs IH]; [reflexivity|].
  rewrite fmap_cons. cbn [List.filter]. by rewrite HP.
Qed.

Lemma omap_forwards {B} (f : event → option B) (g : bool) (xs : list (list (list Z))) :
  (∀ x, f (ForwardPass g x) = None) → omap f (ForwardPass g <$> xs) = [].
Proof.
  intros Hf. induction xs as [|x xs IH]; [reflexivity|].
  rewrite fmap_cons. cbn [omap list_omap]. by rewrite Hf.
Qed.

(** A view of the calls that is taken call by call, such as a filter, is
    taken iteration by iteration. *)
Lemma iterations_view {B} (F : list event → list B) (g : Z → list B)
    (out_dir : string) (with_grad : bool) (P : iteration_data → Prop)
    (iters : list Z) (ds : list iteration_data) :
  F [] = [] →
  (∀ l1 l2, F (l1 ++ l2) = F l1 ++ F l2) →
  length ds = length iters →
  Forall P ds →
  (∀ i d, P d → F (iteration_events h fabric out_dir with_grad i d) = g i) →
  F (concat (zip_with (iteration_events h fabric out_dir with_grad) iters ds))
  = concat (g <$> iters).
Proof.
  intros Hnil Happ Hlen Hall Hview. revert ds Hlen Hall.
  induction iters as [|i iters IH]; intros [|d ds] Hlen Hall; try done.
  apply Forall_cons in Hall as [Hd Hds].
  rewrite fmap_cons. cbn [zip_with concat]. rewrite Happ, Hview by exact Hd.
  f_equal. apply IH; [simpl in Hlen; lia | exact Hds].
Qed.

Lemma train_events_view {B} (F : list event → list B) (g : Z → list B)
    (out_dir : string) (with_grad : bool) (P : iteration_data → Prop)
    (val_inputs : list (list (list Z))) (sample : string) (ds : list iteration_data) :
  F [] = [] →
  (∀ l1 l2, F (l1 ++ l2) = F l1 ++ F l2) →
  length ds = Z.to_nat (max_iters h) →
  Forall P ds →
  (∀ i d, P d → F (iteration_events h fabric out_dir with_grad i d) = g i) →
  F (train_events h fabric out_dir with_grad val_inputs sample ds)
  = F (validation_events val_inputs sample) ++ F (flops_events h fabric)
    ++ F (mark_events fabric) ++ concat (g <$> range (max_iters h)).
Proof.
  intros Hnil Happ Hlen Hall Hview. unfold train_events. rewrite !Happ.
  do 3 f_equal. apply (iterations_view F g out_dir with_grad P); try assumption.
  unfold range. by rewrite length_fmap, length_seq.
Qed.

Lemma concat_nils {A B} (l : list A) : concat ((λ _, @nil B) <$> l) = [].
Proof. induction l as [|a l IH]; [reflexivity|]. by rewrite fmap_cons. Qed.

Lemma concat_constants {A B} (b : B) (l : list A) :
  concat ((λ _, [b]) <$> l) = replicate (length l) b.
Proof.
  induction l as [|a l IH]; [reflexivity|]. rewrite fmap_cons. cbn [concat]. by rewrite IH.
Qed.

Lemma length_range (n : Z) : length (range n) = Z.to_nat n.
Proof. unfold range. by rewrite length_fmap, length_seq. Qed.

(** *** The optimizer over a whole run *)

(** X5: a run makes [max_iters] backward passes and, one per closed group,
    [max_iters // gradient_accumulation_iters] optimizer steps, each on a full
    group of micro-batches; the [max_iters % gradient_accumulation_iters]
    micro-batches after the last closed group are differentiated and never
    applied: their gradients are still accumulated when [train] returns. *)
Theorem train_steps_and_leftover_gradients (train_data val_data : list example)
    (out_dir : string) (msl : Z) (w : world) :
  schedule_ok h →
  dataset_fits (on_xla fabric) msl vocab_size train_data →
  dataset_fits (on_xla fabric) msl vocab_size val_data →
  grads w = [] →
  (0 ≤ max_iters h)%Z →
  ∃ evs w',
    train h fabric train_data val_data out_dir msl w = Ok tt w' ∧
    trace w' = trace w ++ evs ∧
    length (List.filter is_backward evs) = Z.to_nat (max_iters h) ∧
    List.filter is_optimizer_step evs
    = (λ i, OptimizerStep (rate_at h (i `div` gradient_accumulation_iters h))
              (Z.to_nat (gradient_accumulation_iters h)))
        <$> List.filter (closes_group h) (range (max_iters h)) ∧
    length (List.filter is_optimizer_step evs)
    = Z.to_nat (max_iters h `div` gradient_accumulation_iters h) ∧
    Z.of_nat (length (grads w'))
    = (max_iters h `mod` gradient_accumulation_iters h)%Z.
Proof.
  intros Hok Htrain Hval Hg Hmax. pose proof Hok as (HG & _).
  destruct (train_run train_data val_data out_dir msl w Hok Htrain Hval Hg)
    as (evs & w' & Hrun & Htr & Hctl).
  destruct (train_trace train_data val_data out_dir msl w Hok Htrain Hval Hg)
    as (_ & _ & _ & w'' & Hrun' & _ & _ & _ & _ & Hleft & _).
  rewrite Hrun in Hrun'. injection Hrun' as <-.
  assert (Hsteps : List.filter is_optimizer_step evs
            = (λ i, OptimizerStep (rate_at h (i `div` gradient_accumulation_iters h))
                      (Z.to_nat (gradient_accumulation_iters h)))
                <$> List.filter (closes_group h) (range (max_iters h))).
  { rewrite <- (filter_within is_optimizer_step is_control evs) by (by intros []).
    rewrite Hctl, List.filter_app.
    replace (List.filter is_optimizer_step (mark_events fabric)) with (@nil event)
      by (unfold mark_events; by destruct (on_xla fabric)).
    rewrite filter_concat, <- list_fmap_compose. cbn [app].
    rewrite (list_fmap_ext _ (λ i, if closes_group h i
               then [OptimizerStep (rate_at h (i `div` gradient_accumulation_iters h))
                       (Z.to_nat (gradient_accumulation_iters h))]
               else []) (range (max_iters h))).
    - apply concat_optional.
    - intros _ i Hi%list_elem_of_lookup_2%elem_of_range. simpl.
      rewrite iteration_control_steps. destruct (closes_group h i) eqn:Hc; [|reflexivity].
      destruct (closes_group_mod i HG ltac:(lia) Hc) as [-> _]. do 2 f_equal. lia. }
  exists evs, w'. split; [exact Hrun|]. split; [exact Htr|]. split; [|split; [exact Hsteps|]].
  - rewrite <- (filter_within is_backward is_control evs) by (by intros []).
    rewrite Hctl, List.filter_app, length_app.
    replace (List.filter is_backward (mark_events fabric)) with (@nil event)
      by (unfold mark_events; by destruct (on_xla fabric)).
    rewrite filter_concat, <- list_fmap_compose.
    rewrite (list_fmap_ext _ (λ i, [BackwardPass (negb (closes_group h i))
                                      (gradient_accumulation_iters h)]) _
               (λ _ i _, iteration_control_backward (held := warmup_lr h (warmup_iters h))
                             out_dir i)).
    rewrite concat_singletons, length_fmap, length_range. reflexivity.
  - split.
    + rewrite Hsteps, length_fmap. unfold range. rewrite closes_group_count by exact HG.
      by rewrite Z2Nat.id by exact Hmax.
    + by rewrite Hleft, Z2Nat.id by exact Hmax.
Qed.

(** Short of the end of the ramp the rate is short of the base rate: the two
    roundings cannot make up for a whole step. *)
Lemma warmup_lr_below (s : Z) :
  (0 < learning_rate h)%Qc → (0 < warmup_iters h ≤ 2 ^ 51)%Z → (s < warmup_iters h)%Z →
  (warmup_lr h s < learning_rate h)%Qc.
Proof.
  intros Hlr [HWp HW] Hs. pose proof (warmup_divisor_inv HWp) as Hinv.
  assert (Hpos : (0 < Z2Qc (warmup_iters h))%Qc).
  { change 0%Qc with (Z2Qc 0). by apply (proj1 (Z2Qc_lt _ _)). }
  assert (Hne : Z2Qc (warmup_iters h) ≠ 0%Qc).
  { intros E. rewrite E in Hpos. by apply Qclt_not_eq in Hpos. }
  destruct (Z.le_gt_cases 0 s) as [H0|H0].
  - eapply Qcle_lt_trans; [apply warmup_lr_upper; [by apply Qclt_le_weak | lia | lia]|].
    assert (learning_rate h * Z2Qc s / Z2Qc (warmup_iters h)
            * ((1 + half_ulp) * (1 + half_ulp))
            = Z2Qc s * ((1 + half_ulp) * (1 + half_ulp))
              * (learning_rate h / Z2Qc (warmup_iters h)))%Qc as -> by (field; exact Hne).
    assert (learning_rate h
            = Z2Qc (warmup_iters h) * (learning_rate h / Z2Qc (warmup_iters h)))%Qc
      as E by (field; exact Hne).
    rewrite E at 2. apply Qcmult_lt_compat_r.
    + unfold Qcdiv. apply Qcmult_pos_pos; [exact Hlr | by apply Qcinv_pos].
    + assert (s ≤ warmup_iters h + - (1))%Z as Hs' by lia. clear Hs E.
      rewrite Zle_Qle in Hs', HW. rewrite inject_Z_plus, inject_Z_opp in Hs'.
      unfold Qclt, half_ulp. cbn [this Q2Qc Qcmult Qcplus].
      rewrite !Z2Qc_this, !Qred_correct.
      change (inject_Z (2 ^ 51)) with (2251799813685248 # 1)%Q in HW.
      change (2 ^ 53)%positive with 9007199254740992%positive.
      change (inject_Z 1) with 1%Q in Hs'.
      revert Hs' HW. generalize (inject_Z s) (inject_Z (warmup_iters h)).
      intros S Wq H1 H2. Lqa.lra.
  - apply Qcle_lt_trans with 0%Qc; [|exact Hlr].
    rewrite <- fl_0. unfold warmup_lr. apply fl_le.
    unfold Qcdiv. rewrite <- (Qcmult_0_l (/ Z2Qc (warmup_iters h))).
    apply Qcmult_le_compat_r; [|exact Hinv].
    rewrite <- fl_0. apply fl_le.
    rewrite <- (Qcmult_0_r (learning_rate h)), !(Qcmult_comm (learning_rate h)).
    apply Qcmult_le_compat_r; [|by apply Qclt_le_weak].
    change 0%Qc with (Z2Qc 0). apply (proj1 (Z2Qc_le _ _)). lia.
Qed.


(** *** XLA step markers *)

Lemma iteration_control_marks {held : Qc} (out_dir : string) (i : Z) :
  List.filter is_mark_step (iteration_control h fabric held out_dir i) = mark_events fabric.
Proof.
  unfold iteration_control, update_events, mark_events. rewrite !List.filter_app.
  destruct (bool_decide _), (closes_group h i), (on_xla fabric), (saves_checkpoint h i);
    reflexivity.
Qed.

(** X8: on an XLA device [train] marks a step once before the loop and exactly
    once in every iteration, whether the iteration steps the optimizer or
    accumulates; on any other device it never does. *)
Theorem mark_step_once_per_iteration (train_data val_data : list example)
    (out_dir : string) (msl : Z) (w : world) :
  schedule_ok h →
  dataset_fits (on_xla fabric) msl vocab_size train_data →
  dataset_fits (on_xla fabric) msl vocab_size val_data →
  grads w = [] →
  ∃ evs w',
    train h fabric train_data val_data out_dir msl w = Ok tt w' ∧
    trace w' = trace w ++ evs ∧
    List.filter is_mark_step evs
    = if on_xla fabric then replicate (1 + Z.to_nat (max_iters h)) MarkStep else [].
Proof.
  intros Hok Htrain Hval Hg.
  destruct (train_run train_data val_data out_dir msl w Hok Htrain Hval Hg)
    as (evs & w' & Hrun & Htr & Hctl).
  exists evs, w'. split; [exact Hrun|]. split; [exact Htr|].
  rewrite <- (filter_within is_mark_step is_control evs) by (by intros []).
  rewrite Hctl, List.filter_app, filter_concat, <- list_fmap_compose.
  rewrite (list_fmap_ext _ (λ _, mark_events fabric) _
             (λ _ i _, iteration_control_marks (held := warmup_lr h (warmup_iters h))
                           out_dir i)).
  unfold mark_events. destruct (on_xla fabric).
  - by rewrite concat_constants, length_range.
  - by rewrite concat_nils.
Qed.

(** *** Validation and logging over a whole run *)

Ltac iteration_view :=
  unfold iteration_events, update_events, mark_events, validation_events;
  destruct (bool_decide _), (closes_group _ _), (on_xla _), (logs_iteration _ _),
    (evaluates _ _), (saves_checkpoint _ _);
  rewrite ?List.filter_app, ?omap_app, ?filter_forwards, ?omap_forwards by done;
  reflexivity.

Ltac prelude_view :=
  unfold validation_events, flops_events, mark_events;
  repeat match goal with
    | |- context [strategy_is_fsdp ?f] => destruct (strategy_is_fsdp f)
    | |- context [on_xla ?f] => destruct (on_xla f)
    end;
  rewrite ?List.filter_app, ?omap_app, ?filter_forwards, ?omap_forwards by done;
  reflexivity.

Lemma iteration_events_val_lines (out_dir : string) (g : bool) (i : Z)
    (d : iteration_data) :
  omap val_line (iteration_events h fabric out_dir g i d)
  = if evaluates h i then [i] else [].
Proof. iteration_view. Qed.

Lemma iteration_events_iter_lines (out_dir : string) (g : bool) (i : Z)
    (d : iteration_data) :
  omap iter_line (iteration_events h fabric out_dir g i d)
  = if logs_iteration h i
    then [(i, ((i + 1) `div` gradient_accumulation_iters h)%Z, closes_group h i)]
    else [].
Proof. iteration_view. Qed.

Lemma iteration_events_eval_ends (out_dir : string) (g : bool) (i : Z)
    (d : iteration_data) :
  List.filter is_eval_end (iteration_events h fabric out_dir g i d)
  = if evaluates h i then [EvalEnd] else [].
Proof. iteration_view. Qed.

Lemma iteration_events_barriers (out_dir : string) (g : bool) (i : Z)
    (d : iteration_data) :
  List.filter is_barrier (iteration_events h fabric out_dir g i d)
  = if evaluates h i then [Barrier] else [].
Proof. iteration_view. Qed.

Lemma iteration_events_validating (out_dir : string) (g : bool) (i : Z)
    (d : iteration_data) :
  List.filter is_validating_line (iteration_events h fabric out_dir g i d)
  = if evaluates h i then [Printed ValidatingLine] else [].
Proof. iteration_view. Qed.

Lemma iteration_events_batch_ends (out_dir : string) (g : bool) (i : Z)
    (d : iteration_data) :
  List.filter is_batch_end (iteration_events h fabric out_dir g i d)
  = [TrainBatchEnd ((i + 1) * micro_batch_size h)].
Proof. iteration_view. Qed.

Lemma iteration_events_measures (out_dir : string) (g : bool) (i : Z)
    (d : iteration_data) :
  List.filter is_measure_flops (iteration_events h fabric out_dir g i d) = [].
Proof. iteration_view. Qed.

Lemma concat_flags {A B} (keep : A → bool) (b : B) (l : list A) :
  concat ((λ a, if keep a then [b] else []) <$> l)
  = replicate (length (List.filter keep l)) b.
Proof.
  rewrite (concat_optional keep (λ _, b)). by apply const_fmap.
Qed.

(** X10: during training a validation runs in the iterations that close a group
    with a step count that is a multiple of [eval_interval], and in no other:
    each is followed by one barrier and prints one validation-loss line,
    which carries the iteration's index (not the step count); with the sanity
    check before the loop, [validate] runs once more than that, which for a
    positive [eval_interval] is [1 + (max_iters // gradient_accumulation_iters)
    // eval_interval] times. *)
Theorem validation_runs_on_schedule (train_data val_data : list example)
    (out_dir : string) (msl : Z) (w : world) :
  schedule_ok h →
  dataset_fits (on_xla fabric) msl vocab_size train_data →
  dataset_fits (on_xla fabric) msl vocab_size val_data →
  grads w = [] →
  let evaluating := List.filter (evaluates h) (range (max_iters h)) in
  ∃ evs w',
    train h fabric train_data val_data out_dir msl w = Ok tt w' ∧
    trace w' = trace w ++ evs ∧
    omap val_line evs = evaluating ∧
    List.filter is_eval_end evs = replicate (length evaluating) EvalEnd ∧
    List.filter is_barrier evs = replicate (length evaluating) Barrier ∧
    List.filter is_validating_line evs
    = replicate (1 + length evaluating) (Printed ValidatingLine) ∧
    ((0 < eval_interval h)%Z → (0 ≤ max_iters h)%Z →
     length evaluating
     = Z.to_nat ((max_iters h `div` gradient_accumulation_iters h) `div` eval_interval h)).
Proof.
  intros Hok Htrain Hval Hg evaluating. pose proof Hok as (HG & _).
  destruct (train_trace train_data val_data out_dir msl w Hok Htrain Hval Hg)
    as (val_inputs & sample & ds & w' & Hrun & _ & Hlen & Hall & Htr & _).
  eexists _, w'. split; [exact Hrun|]. split; [exact Htr|].
  split; [|split; [|split; [|split]]]; cycle 4.
  { intros Hev Hmax. unfold evaluating, range.
    rewrite (scheduled_count (eval_interval h) _ HG Hev).
    by rewrite Z2Nat.id by exact Hmax. }
  - rewrite (train_events_view (omap val_line) _ out_dir _ (λ _, True) _ _ ds
               eq_refl (omap_app _) Hlen ltac:(by apply Forall_true)
               (λ i d _, iteration_events_val_lines out_dir _ i d)).
    rewrite (concat_optional (evaluates h) (λ i, i)), list_fmap_id.
    replace (omap val_line (validation_events val_inputs sample)) with (@nil Z)
      by (symmetry; prelude_view).
    replace (omap val_line (flops_events h fabric)) with (@nil Z)
      by (symmetry; prelude_view).
    replace (omap val_line (mark_events fabric)) with (@nil Z)
      by (symmetry; prelude_view).
    reflexivity.
  - rewrite (train_events_view (List.filter is_eval_end) _ out_dir _ (λ _, True) _ _ ds
               eq_refl (List.filter_app _) Hlen ltac:(by apply Forall_true)
               (λ i d _, iteration_events_eval_ends out_dir _ i d)).
    rewrite concat_flags.
    replace (List.filter is_eval_end (validation_events val_inputs sample))
      with (@nil event) by (symmetry; prelude_view).
    replace (List.filter is_eval_end (flops_events h fabric)) with (@nil event)
      by (symmetry; prelude_view).
    replace (List.filter is_eval_end (mark_events fabric)) with (@nil event)
      by (symmetry; prelude_view).
    reflexivity.
  - rewrite (train_events_view (List.filter is_barrier) _ out_dir _ (λ _, True) _ _ ds
               eq_refl (List.filter_app _) Hlen ltac:(by apply Forall_true)
               (λ i d _, iteration_events_barriers out_dir _ i d)).
    rewrite concat_flags.
    replace (List.filter is_barrier (validation_events val_inputs sample))
      with (@nil event) by (symmetry; prelude_view).
    replace (List.filter is_barrier (flops_events h fabric)) with (@nil event)
      by (symmetry; prelude_view).
    replace (List.filter is_barrier (mark_events fabric)) with (@nil event)
      by (symmetry; prelude_view).
    reflexivity.
  - rewrite (train_events_view (List.filter is_validating_line) _ out_dir _ (λ _, True)
               _ _ ds eq_refl (List.filter_app _) Hlen ltac:(by apply Forall_true)
               (λ i d _, iteration_events_validating out_dir _ i d)).
    rewrite concat_flags.
    replace (List.filter is_validating_line (validation_events val_inputs sample))
      with [Printed ValidatingLine] by (symmetry; prelude_view).
    replace (List.filter is_validating_line (flops_events h fabric)) with (@nil event)
      by (symmetry; prelude_view).
    replace (List.filter is_validating_line (mark_events fabric)) with (@nil event)
      by (symmetry; prelude_view).
    reflexivity.
Qed.

(** X9: every iteration reports to the speed monitor, with the samples seen so far
    ([(iter_num + 1) * micro_batch_size], on this device alone), and the
    iterations whose index is a multiple of [log_interval] print a line, with
    the step count as it is after the iteration's optimizer step and a mark
    for that step. *)
Theorem every_iteration_reports (train_data val_data : list example)
    (out_dir : string) (msl : Z) (w : world) :
  schedule_ok h →
  dataset_fits (on_xla fabric) msl vocab_size train_data →
  dataset_fits (on_xla fabric) msl vocab_size val_data →
  grads w = [] →
  ∃ evs w',
    train h fabric train_data val_data out_dir msl w = Ok tt w' ∧
    trace w' = trace w ++ evs ∧
    List.filter is_batch_end evs
    = (λ i, TrainBatchEnd ((i + 1) * micro_batch_size h)) <$> range (max_iters h) ∧
    omap iter_line evs
    = (λ i, (i, ((i + 1) `div` gradient_accumulation_iters h)%Z, closes_group h i))
        <$> List.filter (logs_iteration h) (range (max_iters h)).
Proof.
  intros Hok Htrain Hval Hg.
  destruct (train_trace train_data val_data out_dir msl w Hok Htrain Hval Hg)
    as (val_inputs & sample & ds & w' & Hrun & _ & Hlen & Hall & Htr & _).
  eexists _, w'. split; [exact Hrun|]. split; [exact Htr|]. split.
  - rewrite (train_events_view (List.filter is_batch_end) _ out_dir _ (λ _, True) _ _ ds
               eq_refl (List.filter_app _) Hlen ltac:(by apply Forall_true)
               (λ i d _, iteration_events_batch_ends out_dir _ i d)).
    rewrite concat_singletons.
    replace (List.filter is_batch_end (validation_events val_inputs sample))
      with (@nil event) by (symmetry; prelude_view).
    replace (List.filter is_batch_end (flops_events h fabric)) with (@nil event)
      by (symmetry; prelude_view).
    replace (List.filter is_batch_end (mark_events fabric)) with (@nil event)
      by (symmetry; prelude_view).
    reflexivity.
  - rewrite (train_events_view (omap iter_line) _ out_dir _ (λ _, True) _ _ ds
               eq_refl (omap_app _) Hlen ltac:(by apply Forall_true)
               (λ i d _, iteration_events_iter_lines out_dir _ i d)).
    rewrite (concat_optional (logs_iteration h)
               (λ i, (i, ((i + 1) `div` gradient_accumulation_iters h)%Z,
                      closes_group h i))).
    replace (omap iter_line (validation_events val_inputs sample))
      with (@nil (Z * Z * bool)) by (symmetry; prelude_view).
    replace (omap iter_line (flops_events h fabric)) with (@nil (Z * Z * bool))
      by (symmetry; prelude_view).
    replace (omap iter_line (mark_events fabric)) with (@nil (Z * Z * bool))
      by (symmetry; prelude_view).
    reflexivity.
Qed.

(** *** Hyperparameters that are zero *)

(** What [train] does before its loop, and how the loop's outcome becomes its
    own. *)
Lemma train_prelude (train_data val_data : list example) (out_dir : string) (msl : Z)
    (w : world) :
  dataset_fits (on_xla fabric) msl vocab_size val_data →
  (0 < micro_batch_size h)%Z →
  (0 ≤ eval_iters h)%Z →
  ∃ val_inputs sample w0,
    trace w0 = trace w ++ validation_events val_inputs sample ++ flops_events h fabric
               ++ mark_events fabric ∧
    train h fabric train_data val_data out_dir msl w
    = match for_each (train_step h fabric train_data val_data out_dir msl)
              (range (max_iters h)) 0%Z w0 with
      | Ok _ w' => Ok tt w'
      | Raise e w' => Raise e w'
      end.
Proof.
  intros Hval Hmbs Heval.
  destruct (validate_trace val_data msl w Hval Hmbs Heval)
    as (val_inputs & sample & val_loss & w0 & Hrun0 & _ & Htr0).
  set (w1 := add_event (Printed EstimatedFlopsLine) w0).
  assert (Hflops : ∃ w2,
            when (negb (strategy_is_fsdp fabric))
              (bind (measure_flops h) (λ _, emit (Printed MeasuredFlopsLine))) w1
            = Ok tt w2 ∧ trace w2 = trace w0 ++ flops_events h fabric).
  { unfold when, flops_events. destruct (strategy_is_fsdp fabric); simpl.
    - exists w1. by repeat split.
    - unfold bind, measure_flops, emit. destruct (randint _ _ _) as [ix r].
      eexists. split; [reflexivity|]. simpl. by rewrite <- !app_assoc. }
  destruct Hflops as (w2 & Hrun2 & Htr2).
  assert (Hmark : ∃ w3, when (on_xla fabric) mark_step w2 = Ok tt w3 ∧
            trace w3 = trace w2 ++ mark_events fabric).
  { unfold when, mark_events, mark_step. destruct (on_xla fabric).
    - by eexists.
    - exists w2. by rewrite app_nil_r. }
  destruct Hmark as (w3 & Hrun3 & Htr3).
  exists val_inputs, sample, w3. split.
  { by rewrite Htr3, Htr2, Htr0, <- !app_assoc. }
  unfold bind in Hrun2. unfold train, bind. rewrite Hrun0. unfold emit at 1. fold w1.
  rewrite Hrun2, Hrun3. by destruct (for_each _ _ _ w3).
Qed.

(** X11: with [warmup_iters = 0] the warmup block of the first iteration divides by
    zero: [train] runs its sanity check and its FLOP estimates, and raises
    before a single batch of training data is drawn. *)
Theorem zero_warmup_iters_raises_before_training (train_data val_data : list example)
    (out_dir : string) (msl : Z) (w : world) :
  warmup_iters h = 0%Z →
  (0 < max_iters h)%Z →
  (0 < micro_batch_size h)%Z →
  (0 ≤ eval_iters h)%Z →
  dataset_fits (on_xla fabric) msl vocab_size val_data →
  ∃ val_inputs sample w',
    train h fabric train_data val_data out_dir msl w = Raise ZeroDivisionError w' ∧
    trace w' = trace w ++ validation_events val_inputs sample ++ flops_events h fabric
               ++ mark_events fabric.
Proof.
  intros HW Hmax Hmbs Heval Hval.
  destruct (train_prelude train_data val_data out_dir msl w Hval Hmbs Heval)
    as (val_inputs & sample & w0 & Htr & ->).
  exists val_inputs, sample, w0. split; [|exact Htr].
  unfold range. destruct (Z.to_nat (max_iters h)) as [|n] eqn:E; [lia|].
  cbn [seq fmap list_fmap]. rewrite for_each_cons.
  unfold train_step, bind, warmup. rewrite HW.
  rewrite bool_decide_true by (simpl; lia).
  unfold bind, lift, py_float_truediv. by rewrite bool_decide_true by reflexivity.
Qed.

(** X12: with [eval_interval = 0] the modulo of line 193 divides by zero, but only
    where [and] gets to it: an accumulating iteration completes, and an
    iteration that closes a group raises after its optimizer step is made and
    the gradients are zeroed. *)
Theorem zero_eval_interval_raises_after_step (train_data val_data : list example)
    (out_dir : string) (msl : Z) (i s : Z) (w : world) :
  eval_interval h = 0%Z →
  (0 < gradient_accumulation_iters h)%Z →
  (0 < warmup_iters h)%Z →
  (0 < micro_batch_size h)%Z →
  log_interval h ≠ 0%Z →
  dataset_fits (on_xla fabric) msl vocab_size train_data →
  ∃ evs w',
    trace w' = trace w ++ evs ∧
    if closes_group h i
    then train_step h fabric train_data val_data out_dir msl i s w
         = Raise ZeroDivisionError w' ∧
         (∃ lr n, List.filter is_optimizer_step evs = [OptimizerStep lr n]) ∧
         grads w' = []
    else train_step h fabric train_data val_data out_dir msl i s w = Ok s w' ∧
         List.filter is_optimizer_step evs = [].
Proof.
  intros Hev HG HW Hmbs Hlog Htrain.
  unfold train_step, bind. rewrite warmup_run by exact HW.
  set (w1 := if bool_decide (s ≤ warmup_iters h)%Z then _ else w).
  assert (Htr1 : ∃ evs1, trace w1 = trace w ++ evs1 ∧
                   List.filter is_optimizer_step evs1 = []).
  { unfold w1. case_bool_decide; [exists [LrSet (warmup_lr h s)] | exists []]; simpl;
      by rewrite ?app_nil_r. }
  destruct Htr1 as (evs1 & Htr1 & Hno1).
  destruct (forward_backward_run train_data msl i w1 Htrain Hmbs HG)
    as (x & y & r & loss & ->).
  set (w2 := add_event (BackwardPass _ _) _).
  destruct (update_trace (negb (closes_group h i)) s w2) as (w3 & -> & Htr3 & Hg3).
  unfold report, bind, emit, lift, py_mod.
  rewrite bool_decide_false by exact Hlog. unfold ret.
  set (w4 := add_event (TrainBatchEnd _) w3).
  set (s' := if negb (closes_group h i) then s else (s + 1)%Z).
  set (logs := if bool_decide (i `mod` log_interval h = 0)%Z
               then [Printed (IterLine i s' loss (negb (negb (closes_group h i))))]
               else []).
  assert (Hlogged : ∃ w5, when (bool_decide (i `mod` log_interval h = 0)%Z)
                     (λ w0, Ok tt (add_event (Printed (IterLine i s' loss
                                      (negb (negb (closes_group h i))))) w0)) w4
                   = Ok tt w5 ∧ trace w5 = trace w4 ++ logs ∧ grads w5 = grads w4).
  { unfold when, logs. case_bool_decide; eexists; (split; [reflexivity|]); simpl;
      by rewrite ?app_nil_r. }
  destruct Hlogged as (w5 & -> & Htr5 & Hg5).
  assert (Hlogs : List.filter is_optimizer_step logs = []).
  { unfold logs. by case_bool_decide. }
  exists (evs1 ++ [ForwardPass (grad_enabled w1) (rows x);
                   BackwardPass (negb (closes_group h i)) (gradient_accumulation_iters h)]
            ++ update_events fabric (negb (closes_group h i)) (optimizer_lr w2)
                 (length (grads w2))
            ++ [TrainBatchEnd ((i + 1) * micro_batch_size h)] ++ logs), w5.
  split.
  { rewrite Htr5. unfold w4. simpl. rewrite Htr3. unfold w2. simpl.
    rewrite Htr1, <- !app_assoc. reflexivity. }
  rewrite !List.filter_app, Hno1, Hlogs. unfold s', due.
  destruct (closes_group h i); simpl.
  - unfold bind, lift, py_mod. rewrite Hev. rewrite bool_decide_true by reflexivity.
    split; [reflexivity|]. split.
    + unfold update_events, mark_events. destruct (on_xla fabric); simpl; eauto.
    + rewrite Hg5. unfold w4. simpl. exact Hg3.
  - unfold bind, when, ret. split; [reflexivity|].
    unfold update_events, mark_events. by destruct (on_xla fabric).
Qed.

(** X13: [train] starts with a validation: on an empty validation set (with
    [eval_iters > 0]) its first draw of indices raises, before any training
    batch is drawn, and the model is left in evaluation mode. *)
Theorem train_needs_validation_data (train_data : list example) (out_dir : string)
    (msl : Z) (w : world) :
  (0 < eval_iters h)%Z →
  ∃ w',
    train h fabric train_data [] out_dir msl w = Raise RuntimeError w' ∧
    trace w' = trace w ++ [Printed ValidatingLine] ∧
    model_training w' = false ∧
    grad_enabled w' = grad_enabled w ∧
    rng w' = rng w.
Proof.
  intros Heval. unfold train, bind, validate, no_grad, bind, emit, set_mode, lift, zeros.
  rewrite bool_decide_false by lia. unfold ret, range.
  destruct (Z.to_nat (eval_iters h)) as [|n] eqn:E; [lia|].
  cbn [seq fmap list_fmap]. rewrite for_each_cons.
  unfold validate_step, bind, get_batch, bind, draw_indices. simpl.
  eexists. split; [reflexivity|]. by repeat split.
Qed.

(** *** [main] *)

(** A whole [main]: the calls it makes, in order. *)
Lemma main_trace (i : inputs) (out_dir : string) (w : world) :
  schedule_ok h →
  let msl := default block_size (config_max_seq_length i) in
  dataset_fits (on_xla fabric) msl vocab_size (train_pt i) →
  dataset_fits (on_xla fabric) msl vocab_size (test_pt i) →
  ∃ val_inputs sample ds w',
    main h fabric i out_dir w = Ok tt w' ∧
    length ds = Z.to_nat (max_iters h) ∧
    trace w' = trace w
               ++ [Printed LoadingModelLine;
                   Printed (TrainableParametersLine
                              (num_trainable
                                 (load_state_dict (fresh_model i) (lit_model_pth i))))]
               ++ train_events h fabric out_dir (grad_enabled w) val_inputs sample ds
               ++ [Printed TrainingTimeLine;
                   Printed (SavingLine (final_checkpoint_path out_dir));
                   Saved (final_checkpoint_path out_dir)].
Proof.
  intros Hok msl Htrain Hval.
  assert (Hprep : ∃ w0, prepare h fabric i w = Ok tt w0 ∧ grads w0 = [] ∧
            grad_enabled w0 = grad_enabled w ∧
            trace w0 = trace w
                       ++ [Printed LoadingModelLine;
                           Printed (TrainableParametersLine
                                      (num_trainable
                                         (load_state_dict (fresh_model i)
                                            (lit_model_pth i))))]).
  { eexists. split; [reflexivity|]. simpl. by rewrite <- app_assoc. }
  destruct Hprep as (w0 & Hprep & Hg0 & Hge0 & Htr0).
  destruct (train_trace (train_pt i) (test_pt i) out_dir msl w0 Hok Htrain Hval Hg0)
    as (val_inputs & sample & ds & w1 & Hrun & _ & Hlen & _ & Htr & _).
  exists val_inputs, sample, ds. eexists. split.
  { unfold main, bind. rewrite Hprep. fold msl. rewrite Hrun. reflexivity. }
  split; [exact Hlen|].
  match goal with |- _ = ?calls => set (rhs := calls) end.
  simpl. rewrite Htr, Htr0, Hge0. unfold rhs.
  generalize (train_events h fabric out_dir (grad_enabled w) val_inputs sample ds).
  intros evs. by rewrite <- !app_assoc.
Qed.

(** X21: with a positive [save_interval] a run of [main] writes
    [(max_iters // gradient_accumulation_iters) // save_interval] periodic
    checkpoints, and the final one. *)
Theorem periodic_checkpoint_count (i : inputs) (out_dir : string) (w : world) :
  schedule_ok h →
  let msl := default block_size (config_max_seq_length i) in
  dataset_fits (on_xla fabric) msl vocab_size (train_pt i) →
  dataset_fits (on_xla fabric) msl vocab_size (test_pt i) →
  (0 < save_interval h)%Z →
  (0 ≤ max_iters h)%Z →
  ∃ evs w',
    main h fabric i out_dir w = Ok tt w' ∧
    trace w' = trace w ++ evs ∧
    length (List.filter is_saved evs)
    = Z.to_nat ((max_iters h `div` gradient_accumulation_iters h) `div` save_interval h)
      + 1.
Proof.
  intros Hok msl Htrain Hval Hsave Hmax. pose proof Hok as (HG & _).
  destruct (main_run i out_dir w Hok Htrain Hval) as (evs & w' & Hrun & Htr & Hctl).
  eexists _, w'. split; [exact Hrun|]. split; [exact Htr|].
  rewrite List.filter_app, length_app. simpl. f_equal.
  rewrite <- (filter_within is_saved is_control evs) by (by intros []).
  rewrite Hctl, List.filter_app, filter_concat, <- list_fmap_compose.
  rewrite (list_fmap_ext _ _ _ (λ _ n _, iteration_control_saved (held := warmup_lr h (warmup_iters h))
                                            out_dir n)).
  rewrite concat_optional, length_app, length_fmap.
  replace (List.filter is_saved (mark_events fabric)) with (@nil event)
    by (unfold mark_events; by destruct (on_xla fabric)).
  unfold range. simpl.
  rewrite (scheduled_count (save_interval h) _ HG Hsave).
  by rewrite Z2Nat.id by exact Hmax.
Qed.

(** *** The run as a whole *)

Lemma train_step_accumulates (train_data val_data : list example) (out_dir : string)
    (msl : Z) (i s : Z) (w : world) :
  schedule_ok h →
  dataset_fits (on_xla fabric) msl vocab_size train_data →
  dataset_fits (on_xla fabric) msl vocab_size val_data →
  closes_group h i = false →
  ∃ g w',
    train_step h fabric train_data val_data out_dir msl i s w = Ok s w' ∧
    model_state w' = model_state w ∧
    grads w' = grads w ++ [g] ∧
    g_divisor g = gradient_accumulation_iters h.
Proof.
  intros Hok Htrain Hval Hopen. pose proof Hok as (HG & HW & Hmbs & _).
  destruct (train_step_run train_data val_data out_dir msl i s w Hok Htrain Hval)
    as (_ & _ & w' & Hrun & _ & _ & _ & _ & _ & _ & Hms).
  rewrite Hopen in Hrun, Hms. simpl in Hrun, Hms. specialize (Hms (or_introl eq_refl)).
  revert Hrun. unfold train_step, bind. rewrite warmup_run by exact HW.
  set (w1 := if bool_decide (s ≤ warmup_iters h)%Z then _ else w).
  assert (Hg1 : grads w1 = grads w) by (unfold w1; by case_bool_decide).
  destruct (forward_backward_run train_data msl i w1 Htrain Hmbs HG)
    as (x & y & r & loss & ->).
  rewrite Hopen. simpl negb. set (w2 := add_event (BackwardPass _ _) _).
  destruct (update_trace true s w2) as (w3 & -> & _ & Hg3).
  destruct (report_run val_data out_dir msl i s true loss w3 Hok Hval)
    as (evs & w4 & -> & _ & _ & _ & _ & Hg4 & _).
  unfold ret. intros [= <-]. eexists _, w4. split; [reflexivity|]. split; [exact Hms|].
  rewrite Hg4, Hg3. unfold w2. simpl. rewrite Hg1. split; reflexivity.
Qed.

(** X6: while gradients accumulate the parameters stand still: over any
    iterations none of which closes a group, [step_count] and the parameters
    do not change, every micro-batch is differentiated at the same
    parameters, and each leaves one more gradient for the next optimizer
    step, scaled by [1 / gradient_accumulation_iters]. *)
Theorem accumulation_keeps_parameters (train_data val_data : list example)
    (out_dir : string) (msl : Z) (iters : list Z) (s : Z) (w : world) :
  schedule_ok h →
  dataset_fits (on_xla fabric) msl vocab_size train_data →
  dataset_fits (on_xla fabric) msl vocab_size val_data →
  Forall (λ i, closes_group h i = false) iters →
  ∃ gs w',
    for_each (train_step h fabric train_data val_data out_dir msl) iters s w = Ok s w' ∧
    model_state w' = model_state w ∧
    grads w' = grads w ++ gs ∧
    length gs = length iters ∧
    Forall (λ g, g_divisor g = gradient_accumulation_iters h) gs.
Proof.
  intros Hok Htrain Hval Hopen. revert w.
  induction Hopen as [|i iters Hi _ IH]; intros w.
  - exists [], w. rewrite app_nil_r. by repeat split.
  - rewrite for_each_cons.
    destruct (train_step_accumulates train_data val_data out_dir msl i s w
                Hok Htrain Hval Hi)
      as (g & w1 & -> & Hms1 & Hg1 & Hdiv).
    destruct (IH w1) as (gs & w' & -> & Hms & Hg & Hlen & Hall).
    exists (g :: gs), w'. split; [reflexivity|]. split; [congruence|].
    split; [by rewrite Hg, Hg1, <- app_assoc|].
    split; [simpl; by rewrite Hlen | by constructor].
Qed.

(** X4: [train] makes the calls [train_events] lists and no other, in that order:
    the sanity check, the FLOP estimates, then iteration by iteration the
    calls [iteration_events] derives from the iteration's number alone, with
    gradient tracking as it was on entry for the training passes and off for
    the validation passes. *)
Theorem train_calls_in_order (train_data val_data : list example)
    (out_dir : string) (msl : Z) (w : world) :
  schedule_ok h →
  dataset_fits (on_xla fabric) msl vocab_size train_data →
  dataset_fits (on_xla fabric) msl vocab_size val_data →
  grads w = [] →
  ∃ val_inputs sample ds w',
    train h fabric train_data val_data out_dir msl w = Ok tt w' ∧
    length val_inputs = Z.to_nat (eval_iters h) ∧
    length ds = Z.to_nat (max_iters h) ∧
    Forall (λ d, length (it_val_inputs d) = Z.to_nat (eval_iters h)) ds ∧
    trace w' = trace w
               ++ train_events h fabric out_dir (grad_enabled w) val_inputs sample ds ∧
    grad_enabled w' = grad_enabled w.
Proof.
  intros Hok Htrain Hval Hg.
  destruct (train_trace train_data val_data out_dir msl w Hok Htrain Hval Hg)
    as (val_inputs & sample & ds & w' & Hrun & Hlen0 & Hlen & Hall & Htr & _ & _ & Hge).
  by exists val_inputs, sample, ds, w'.
Qed.

End Run.

(** ** [setup] *)

Section Launch.
Context {C : Collaborators}.

Hypothesis randint_range : ∀ high size r,
  0 < high →
  length (randint high size r).1 = size ∧ Forall (λ i, i < high) (randint high size r).1.

Variable vocab_size : nat.
Hypothesis forward_shape : ∀ sd x b s,
  shape2 b s x → shape3 b s vocab_size (forward sd x).

(** X3: [setup] prints the hyperparameters first, and the run it launches
    measures the model's FLOPs, once, on an input of [micro_batch_size *
    block_size] tokens, unless it runs on several devices that are not TPUs:
    there the strategy is FSDP and the measurement is skipped. *)
Theorem setup_measures_flops_unless_sharded (h : hparams) (tpu : bool)
    (accelerator : device) (rank : Z) (i : inputs) (out_dir : string) (w : world) :
  schedule_ok h →
  let fabric := launched_fabric h tpu accelerator rank in
  let msl := default block_size (config_max_seq_length i) in
  dataset_fits (on_xla fabric) msl vocab_size (train_pt i) →
  dataset_fits (on_xla fabric) msl vocab_size (test_pt i) →
  ∃ evs w',
    setup h tpu accelerator rank i out_dir w = Ok tt w' ∧
    trace w' = trace w ++ evs ∧
    head evs = Some (Printed HparamsLine) ∧
    List.filter is_measure_flops evs
    = if bool_decide (1 < devices h)%Z && negb tpu then []
      else [MeasureFlops (Z.to_nat (micro_batch_size h) * Z.to_nat block_size)].
Proof.
  intros Hok fabric msl Htrain Hval.
  destruct (main_trace h fabric randint_range vocab_size forward_shape i out_dir
              (add_event (Printed HparamsLine) w) Hok Htrain Hval)
    as (val_inputs & sample & ds & w' & Hrun & Hlen & Htr).
  exists ([Printed HparamsLine]
            ++ [Printed LoadingModelLine;
                Printed (TrainableParametersLine
                           (num_trainable
                              (load_state_dict (fresh_model i) (lit_model_pth i))))]
            ++ train_events h fabric out_dir (grad_enabled w) val_inputs sample ds
            ++ [Printed TrainingTimeLine;
                Printed (SavingLine (final_checkpoint_path out_dir));
                Saved (final_checkpoint_path out_dir)]), w'.
  split; [exact Hrun|]. split.
  { rewrite Htr. cbn [trace add_event grad_enabled]. by rewrite <- app_assoc. }
  split; [reflexivity|].
  rewrite !List.filter_app.
  rewrite (train_events_view h fabric (List.filter is_measure_flops) (λ _, [])
             out_dir _ (λ _, True) _ _ ds eq_refl (List.filter_app _) Hlen
             ltac:(by apply Forall_true)
             (λ i d _, iteration_events_measures h fabric out_dir _ i d)).
  rewrite concat_nils.
  replace (List.filter is_measure_flops (validation_events val_inputs sample))
    with (@nil event)
    by (unfold validation_events;
        by rewrite !List.filter_app, filter_forwards by done).
  replace (List.filter is_measure_flops (mark_events fabric)) with (@nil event)
    by (unfold mark_events; by destruct (on_xla fabric)).
  unfold flops_events, fabric, launched_fabric. cbn [strategy_is_fsdp].
  destruct (bool_decide (1 < devices h)%Z && negb tpu); reflexivity.
Qed.

End Launch.

(** ** The claims on concrete inputs *)

Lemma toy_randint_range (high size : nat) (r : @rng_state toy) :
  0 < high →
  length (@randint toy high size r).1 = size ∧
  Forall (λ i, i < high) (@randint toy high size r).1.
Proof.
  intros Hhigh. simpl. split; [by rewrite length_fmap, length_seq|].
  apply Forall_fmap, Forall_forall. intros j _. simpl.
  apply Nat.mod_upper_bound. lia.
Qed.

Lemma toy_forward_shape (sd : state_dict) (x : list (list Z)) (b s : nat) :
  shape2 b s x → shape3 b s 2 (@forward toy sd x).
Proof.
  intros [Hb Hs]. simpl. split; [by rewrite length_fmap|].
  apply Forall_fmap. eapply Forall_impl; [exact Hs|]. intros row Hrow. simpl.
  split; [by rewrite length_fmap|]. apply Forall_fmap, Forall_true. done.
Qed.

Lemma repo_schedule_ok : schedule_ok repo_hparams.
Proof. unfold schedule_ok. simpl. repeat split; lia. Qed.

Lemma toy_data_fits (on_xla : bool) : dataset_fits on_xla 8 2 toy_data.
Proof.
  split; [done|]. unfold toy_data, example_fits, valid_target.
  repeat constructor; simpl; lia.
Qed.

Lemma module_init_repo : module_init repo_constants = Done repo_hparams.
Proof. reflexivity. Qed.

Lemma short_epoch_schedule_ok : schedule_ok short_epoch_hparams.
Proof. unfold schedule_ok. simpl. repeat split; lia. Qed.

(** [fl] against the machine's binary64 numbers: the literal [9e-3], and the
    ramp at [learning_rate = 9e-3] where it starts, half-way and where it
    ends, for 58 and for 25000 warmup steps. *)
Lemma warmup_lr_on_the_machine :
  (Binary64.to_Q Binary64.nine_thousandths == this (literal (9 # 1000)))%Q ∧
  Forall (λ s, (Binary64.to_Q (Binary64.warmup_lr Binary64.nine_thousandths s 58)
                == this (warmup_lr short_epoch_hparams s))%Q) [0; 1; 29; 57; 58]%Z ∧
  Forall (λ s, (Binary64.to_Q (Binary64.warmup_lr Binary64.nine_thousandths s 25000)
                == this (warmup_lr repo_hparams s))%Q) [0; 1; 12500; 24999; 25000]%Z.
Proof. repeat split; repeat constructor; vm_compute; reflexivity. Qed.

(** And on every pair of [Binary64.operands], for the two operations of the
    ramp. *)
Lemma fl_on_the_machine :
  forallb (λ x, forallb (λ y, Binary64.rounds PrimFloat.mul Qmult x y
                              && Binary64.rounds PrimFloat.div Qdiv x y)
                  Binary64.operands) Binary64.operands
  = true.
Proof. vm_compute. reflexivity. Qed.

(** The loss on one sequence of three steps over two tokens, whose last target
    is ignored. *)
Lemma loss_fn_masked_mean_witness :
  loss_fn [[[0; 0]; [1; 2]; [3; 4]]%R] [[5; 1; -1]%Z]
  = Done (masked_mean 1 3 [[[0; 0]; [1; 2]; [3; 4]]%R] [[5; 1; -1]%Z]) ∧
  (∀ logits', shape3 1 3 2 logits' →
     (∀ p, p ∈ positions 1 3 → counted [[5; 1; -1]%Z] p →
           logits_at logits' p = logits_at [[[0; 0]; [1; 2]; [3; 4]]%R] p) →
     loss_fn logits' [[5; 1; -1]%Z]
     = loss_fn [[[0; 0]; [1; 2]; [3; 4]]%R] [[5; 1; -1]%Z]) ∧
  (∀ b0 t0 c x0,
     target_at [[5; 1; -1]%Z] (b0, t0) = (-1)%Z ∨ 3 - 1 ≤ t0 →
     derivable_pt_lim
       (λ x, loss_value (loss_fn (set_logit [[[0; 0]; [1; 2]; [3; 4]]%R] b0 t0 c x)
                           [[5; 1; -1]%Z])) x0 0%R).
Proof.
  apply (loss_fn_masked_mean_cross_entropy 1 3 2).
  - split; [reflexivity|]. repeat constructor.
  - split; [reflexivity|]. repeat constructor.
  - intros [i j] [Hi Hj]%elem_of_positions Hc. simpl in Hi, Hj.
    assert (i = 0) as -> by lia. unfold counted, target_at in *.
    destruct j as [|[|j]]; simpl in *; lia.
Defined.



(** [get_batch] on the toy dataset, on CUDA: the draw picks examples 0, 1, 0, 1. *)
Lemma get_batch_pads_witness :
  let h := repo_hparams in
  let draw := @randint toy (length toy_data) (Z.to_nat (micro_batch_size h))
                (rng toy_world) in
  let batch := picked toy_data draw.1 in
  let L := pad_length (on_xla cuda_fabric) 8 batch in
  ∃ x y,
    get_batch (H := toy) h cuda_fabric toy_data 8 toy_world
    = Ok (x, y) (set_rng draw.2 toy_world) ∧
    length batch = Z.to_nat (micro_batch_size h) ∧
    Forall (λ e, e ∈ toy_data) batch ∧
    rows x = pad_to (Z.to_nat L) 0 ∘ input_ids <$> batch ∧
    rows y = pad_to (Z.to_nat L) (-1) ∘ labels <$> batch ∧
    shape2 (Z.to_nat (micro_batch_size h)) (Z.to_nat L) (rows x) ∧
    shape2 (Z.to_nat (micro_batch_size h)) (Z.to_nat L) (rows y) ∧
    placed_on x = device_type cuda_fabric ∧
    placed_on y = device_type cuda_fabric.
Proof.
  apply (get_batch_pads_to_one_shape (C := toy) repo_hparams cuda_fabric
           toy_randint_range toy_data 8 toy_world).
  - discriminate.
  - simpl. lia.
  - discriminate.
  - simpl. repeat constructor; vm_compute; discriminate.
Defined.

(** Off XLA, on the toy dataset. *)
Lemma get_batch_pad_length_witness :
  let h := repo_hparams in
  let draw := @randint toy (length toy_data) (Z.to_nat (micro_batch_size h))
                (rng toy_world) in
  let batch := picked toy_data draw.1 in
  let longest_input := longest (input_ids <$> batch) in
  pad_length (on_xla cuda_fabric) 8 batch = Z.of_nat longest_input ∧
  ((∃ x y w', get_batch (H := toy) h cuda_fabric toy_data 8 toy_world = Ok (x, y) w') ↔
   Forall (λ e, length (labels e) ≤ longest_input) batch) ∧
  (∀ x y w', get_batch (H := toy) h cuda_fabric toy_data 8 toy_world = Ok (x, y) w' →
     shape2 (Z.to_nat (micro_batch_size h)) longest_input (rows x) ∧
     shape2 (Z.to_nat (micro_batch_size h)) longest_input (rows y)) ∧
  (Exists (λ e, Forall (λ e', length (input_ids e') < length (labels e)) batch) batch →
   get_batch (H := toy) h cuda_fabric toy_data 8 toy_world
   = Raise RuntimeError (set_rng draw.2 toy_world)).
Proof.
  apply (get_batch_pad_length_ignores_labels (C := toy) repo_hparams cuda_fabric
           toy_randint_range toy_data 8 toy_world).
  - reflexivity.
  - discriminate.
  - simpl. lia.
Defined.

(** [validate] on the toy dataset with the repository's 100 evaluation batches. *)
Lemma validate_is_read_only_witness :
  let h := repo_hparams in
  ∃ batches losses evs w',
    batches = drawn_batches (H := toy) h cuda_fabric toy_data 8 (Z.to_nat (eval_iters h))
                toy_world ∧
    validate (H := toy) h cuda_fabric toy_data 8 toy_world = Ok (tensor_mean losses) w' ∧
    length batches = Z.to_nat (eval_iters h) ∧
    batch_losses (H := toy) (model_state toy_world) batches losses ∧
    (∀ values, losses = Finite <$> values → values ≠ [] →
       tensor_mean losses = Finite (Rsum values / INR (Z.to_nat (eval_iters h)))) ∧
    trace w' = trace toy_world ++ evs ∧
    List.filter is_forward evs = (λ b, ForwardPass false (rows b.1)) <$> batches ∧
    List.filter is_control evs = [] ∧
    model_training w' = true ∧
    grad_enabled w' = grad_enabled toy_world ∧
    model_state w' = model_state toy_world ∧
    grads w' = grads toy_world ∧
    optimizer_moments w' = optimizer_moments toy_world ∧
    optimizer_lr w' = optimizer_lr toy_world.
Proof.
  apply (validate_is_read_only (C := toy) repo_hparams cuda_fabric
           toy_randint_range 2 toy_forward_shape toy_data 8 toy_world).
  - exact (toy_data_fits false).
  - simpl. lia.
  - simpl. lia.
Defined.

(** The first accumulation group of the repository's configuration. *)
Lemma first_optimizer_step_witness :
  let h := repo_hparams in
  let step := train_step (H := toy) h cuda_fabric toy_data toy_data "out" 8 in
  let G := Z.to_nat (gradient_accumulation_iters h) in
  ∃ evs w',
    for_each step (range (gradient_accumulation_iters h)) 0%Z toy_world = Ok 1%Z w' ∧
    trace w' = trace toy_world ++ evs ∧
    List.filter is_lr_set evs = replicate G (LrSet 0%Qc) ∧
    List.filter is_optimizer_step evs = [OptimizerStep 0%Qc G] ∧
    model_state w' = model_state toy_world ∧
    ((gradient_accumulation_iters h ≤ max_iters h)%Z →
     range (max_iters h)
     = range (gradient_accumulation_iters h)
       ++ (Z.of_nat <$> seq G (Z.to_nat (max_iters h) - G))).
Proof.
  apply (first_optimizer_step_at_zero_lr (C := toy) repo_hparams cuda_fabric
           toy_randint_range 2 toy_forward_shape toy_data toy_data "out" 8 toy_world).
  - exact repo_schedule_ok.
  - exact (toy_data_fits false).
  - exact (toy_data_fits false).
  - reflexivity.
Defined.

(** A whole run of [main] under the repository's configuration. *)
Lemma checkpoints_witness :
  let h := repo_hparams in
  let msl := default (@block_size toy) (config_max_seq_length toy_inputs) in
  (∀ iter_num step_count w0,
     ∃ evs step_count' w1,
       train_step (H := toy) h cuda_fabric (train_pt toy_inputs) (test_pt toy_inputs)
         "out" msl iter_num step_count w0
       = Ok step_count' w1 ∧
       trace w1 = trace w0 ++ evs ∧
       List.filter is_saved evs
       = if closes_group h iter_num &&
            bool_decide (step_count' `mod` save_interval h = 0)%Z
         then [Saved (iter_checkpoint_path "out" iter_num)] else []) ∧
  ∃ evs w',
    main (H := toy) h cuda_fabric toy_inputs "out" toy_world = Ok tt w' ∧
    trace w' = trace toy_world ++ evs ∧
    List.filter is_saved evs
    = ((λ n, Saved (iter_checkpoint_path "out" n))
         <$> List.filter (saves_checkpoint h) (range (max_iters h)))
      ++ [Saved (final_checkpoint_path "out")] ∧
    last evs = Some (Saved (final_checkpoint_path "out")).
Proof.
  apply (checkpoints_periodic_and_final (C := toy) repo_hparams cuda_fabric
           toy_randint_range 2 toy_forward_shape toy_inputs "out" toy_world).
  - exact repo_schedule_ok.
  - exact (toy_data_fits false).
  - exact (toy_data_fits false).
Defined.

(** *** Inputs on which the claims as first stated fail *)

(** C3 as stated: with a micro-batch size of 6 the quotient 64 / 6 is not a
    whole number, and the module level succeeds all the same, with 10
    accumulation iterations. *)
Lemma module_init_accepts_fraction :
  ¬ is_positive_integer (accumulation_ratio repo_constants_mbs6) ∧
  ∃ hp, module_init repo_constants_mbs6 = Done hp ∧
        gradient_accumulation_iters hp = 10%Z.
Proof.
  split; [exact mbs6_ratio_not_integer|].
  eexists. split; reflexivity.
Qed.


(** C5 as stated: a dataset that is not empty, whose one example has more
    labels than inputs: off XLA [get_batch] raises and returns no tensors. *)
Lemma get_batch_raises_on_long_labels :
  mislabelled_data ≠ [] ∧
  get_batch (H := toy) repo_hparams cuda_fabric mislabelled_data 8 toy_world
  = Raise RuntimeError (set_rng (4%nat : @rng_state toy) toy_world).
Proof. split; [discriminate | reflexivity]. Qed.

(** C9 as stated: under XLA the pad length is [max_seq_length], not the
    longest input, and the batch whose labels are longer than every input is
    padded without failure, to two tensors of shape [(4, 8)]. *)
Lemma get_batch_on_xla_pads_long_labels :
  on_xla xla_fabric = true ∧
  pad_length (on_xla xla_fabric) 8 (picked mislabelled_data [0; 0; 0; 0]) = 8%Z ∧
  Exists (λ e, Forall (λ e', length (input_ids e') < length (labels e))
                 (picked mislabelled_data [0; 0; 0; 0]))
    (picked mislabelled_data [0; 0; 0; 0]) ∧
  ∃ x y w',
    get_batch (H := toy) repo_hparams xla_fabric mislabelled_data 8 toy_world
    = Ok (x, y) w' ∧
    shape2 4 8 (rows x) ∧ shape2 4 8 (rows y).
Proof.
  split; [reflexivity|]. split; [reflexivity|]. split.
  { apply Exists_cons_hd. repeat constructor. }
  eexists _, _, _. split; [reflexivity|].
  split; (split; [reflexivity | repeat constructor]).
Qed.

(** ** The further properties on concrete inputs *)

(** The repository's constants: 3906 optimizer steps against 25000 warmup
    steps. *)
Lemma warmup_spans_all_steps_witness :
  module_init repo_constants = Done repo_hparams ∧
  (max_iters repo_hparams `div` gradient_accumulation_iters repo_hparams
   ≤ warmup_iters repo_hparams)%Z.
Proof.
  split; [reflexivity|].
  apply (warmup_spans_all_steps repo_constants repo_hparams).
  - reflexivity.
  - simpl. lia.
  - simpl. lia.
  - simpl. lia.
  - simpl. lia.
Defined.

Lemma loss_fn_nonnegative_witness :
  ∃ l, loss_fn [[[0; 0]; [1; 2]; [3; 4]]%R] [[5; 1; -1]%Z] = Done l ∧
       ∀ r, l = Finite r → (0 <= r)%R.
Proof.
  apply (loss_fn_nonnegative 1 3 2).
  - split; [reflexivity|]. repeat constructor.
  - split; [reflexivity|]. repeat constructor.
  - intros [i j] [Hi Hj]%elem_of_positions Hc. simpl in Hi, Hj.
    assert (i = 0) as -> by lia. unfold counted, target_at in *.
    destruct j as [|[|j]]; simpl in *; lia.
Defined.

(** A batch of one sequence of a single token: nothing is left after the
    shift. *)
Lemma loss_fn_nan_witness :
  loss_fn [[[0; 0]]%R] [[1]%Z] = Done NaN ↔
  ∀ p, p ∈ positions 1 1 → target_at [[1]%Z] p = (-1)%Z.
Proof.
  apply (loss_fn_nan_without_targets 1 1 2).
  - split; [reflexivity|]. repeat constructor.
  - split; [reflexivity|]. repeat constructor.
  - intros p [_ Hj]%elem_of_positions. simpl in Hj. lia.
Defined.

Lemma checkpoint_paths_distinct_witness :
  iter_checkpoint_path "out" 9 ≠ iter_checkpoint_path "out" 19 ∧
  iter_checkpoint_path "out" 9 ≠ final_checkpoint_path "out".
Proof. apply checkpoint_paths_distinct; lia. Defined.

(** [get_batch] on the toy dataset, on CUDA. *)
Lemma get_batch_padding_witness :
  let h := repo_hparams in
  let draw := @randint toy (length toy_data) (Z.to_nat (micro_batch_size h))
                (rng toy_world) in
  let batch := picked toy_data draw.1 in
  let L := pad_length (on_xla cuda_fabric) 8 batch in
  ∃ x y w',
    get_batch (H := toy) h cuda_fabric toy_data 8 toy_world = Ok (x, y) w' ∧
    shape2 (length batch) (Z.to_nat L) (rows y) ∧
    ∀ p, p ∈ positions (length batch) (Z.to_nat L) →
         counted (rows y) p ↔ real_label batch p.
Proof.
  apply (get_batch_padding_is_not_counted (C := toy) repo_hparams cuda_fabric
           toy_randint_range toy_data 8 toy_world).
  - discriminate.
  - simpl. lia.
  - discriminate.
  - simpl. repeat constructor; vm_compute; discriminate.
Defined.

(** [get_batch] on the toy dataset, on XLA with [max_seq_length = 8]. *)
Lemma get_batch_on_xla_witness :
  let h := repo_hparams in
  let draw := @randint toy (length toy_data) (Z.to_nat (micro_batch_size h))
                (rng toy_world) in
  let batch := picked toy_data draw.1 in
  ((∃ x y w', get_batch (H := toy) h xla_fabric toy_data 8 toy_world = Ok (x, y) w') ↔
   Forall (λ e, (Z.of_nat (length (input_ids e)) ≤ 8)%Z ∧
                (Z.of_nat (length (labels e)) ≤ 8)%Z) batch) ∧
  (∀ x y w', get_batch (H := toy) h xla_fabric toy_data 8 toy_world = Ok (x, y) w' →
     shape2 (Z.to_nat (micro_batch_size h)) (Z.to_nat 8) (rows x) ∧
     shape2 (Z.to_nat (micro_batch_size h)) (Z.to_nat 8) (rows y)) ∧
  (Exists (λ e, (8 < Z.of_nat (length (input_ids e)))%Z) batch →
   get_batch (H := toy) h xla_fabric toy_data 8 toy_world
   = Raise RuntimeError (set_rng draw.2 toy_world)).
Proof.
  apply (get_batch_on_xla_never_truncates (C := toy) repo_hparams xla_fabric
           toy_randint_range toy_data 8 toy_world).
  - reflexivity.
  - discriminate.
  - simpl. lia.
Defined.

(** [validate] on an empty validation set. *)
Lemma validate_failure_witness :
  ∃ w',
    validate (H := toy) small_hparams cuda_fabric [] 8 toy_world = Raise RuntimeError w' ∧
    model_training w' = false ∧
    grad_enabled w' = grad_enabled toy_world ∧
    model_state w' = model_state toy_world ∧
    grads w' = grads toy_world ∧
    optimizer_moments w' = optimizer_moments toy_world ∧
    optimizer_lr w' = optimizer_lr toy_world ∧
    files w' = files toy_world.
Proof.
  eexists. split; [reflexivity|].
  apply (validate_failure_leaves_eval_mode (C := toy) small_hparams cuda_fabric [] 8
           RuntimeError toy_world).
  reflexivity.
Defined.

Lemma validate_without_batches_witness :
  ∃ sample w',
    validate (H := toy) no_eval_iters_hparams cuda_fabric [] 8 toy_world = Ok NaN w' ∧
    trace w' = trace toy_world ++ validation_events (H := toy) [] sample ∧
    model_training w' = true ∧
    grad_enabled w' = grad_enabled toy_world ∧
    model_state w' = model_state toy_world.
Proof.
  apply (validate_without_batches_is_nan (C := toy) no_eval_iters_hparams cuda_fabric
           [] 8 toy_world).
  reflexivity.
Defined.

(** The repository's configuration: 62500 iterations in groups of 16 make
    3906 optimizer steps and leave 4 micro-batches unapplied. *)
Lemma train_steps_witness :
  let h := repo_hparams in
  ∃ evs w',
    train (H := toy) h cuda_fabric toy_data toy_data "out" 8 toy_world = Ok tt w' ∧
    trace w' = trace toy_world ++ evs ∧
    length (List.filter is_backward evs) = Z.to_nat (max_iters h) ∧
    List.filter is_optimizer_step evs
    = (λ i, OptimizerStep (rate_at h (i `div` gradient_accumulation_iters h))
              (Z.to_nat (gradient_accumulation_iters h)))
        <$> List.filter (closes_group h) (range (max_iters h)) ∧
    length (List.filter is_optimizer_step evs)
    = Z.to_nat (max_iters h `div` gradient_accumulation_iters h) ∧
    Z.of_nat (length (grads w'))
    = (max_iters h `mod` gradient_accumulation_iters h)%Z.
Proof.
  apply (train_steps_and_leftover_gradients (C := toy) repo_hparams cuda_fabric
           toy_randint_range 2 toy_forward_shape toy_data toy_data "out" 8 toy_world).
  - exact repo_schedule_ok.
  - exact (toy_data_fits false).
  - exact (toy_data_fits false).
  - reflexivity.
  - simpl. lia.
Defined.


Lemma mark_step_witness :
  let h := repo_hparams in
  ∃ evs w',
    train (H := toy) h xla_fabric toy_data toy_data "out" 8 toy_world = Ok tt w' ∧
    trace w' = trace toy_world ++ evs ∧
    List.filter is_mark_step evs
    = if on_xla xla_fabric then replicate (1 + Z.to_nat (max_iters h)) MarkStep else [].
Proof.
  apply (mark_step_once_per_iteration (C := toy) repo_hparams xla_fabric
           toy_randint_range 2 toy_forward_shape toy_data toy_data "out" 8 toy_world).
  - exact repo_schedule_ok.
  - exact (toy_data_fits true).
  - exact (toy_data_fits true).
  - reflexivity.
Defined.

Lemma validation_schedule_witness :
  let h := repo_hparams in
  let evaluating := List.filter (evaluates h) (range (max_iters h)) in
  ∃ evs w',
    train (H := toy) h cuda_fabric toy_data toy_data "out" 8 toy_world = Ok tt w' ∧
    trace w' = trace toy_world ++ evs ∧
    omap val_line evs = evaluating ∧
    List.filter is_eval_end evs = replicate (length evaluating) EvalEnd ∧
    List.filter is_barrier evs = replicate (length evaluating) Barrier ∧
    List.filter is_validating_line evs
    = replicate (1 + length evaluating) (Printed ValidatingLine) ∧
    ((0 < eval_interval h)%Z → (0 ≤ max_iters h)%Z →
     length evaluating
     = Z.to_nat ((max_iters h `div` gradient_accumulation_iters h) `div` eval_interval h)).
Proof.
  apply (validation_runs_on_schedule (C := toy) repo_hparams cuda_fabric
           toy_randint_range 2 toy_forward_shape toy_data toy_data "out" 8 toy_world).
  - exact repo_schedule_ok.
  - exact (toy_data_fits false).
  - exact (toy_data_fits false).
  - reflexivity.
Defined.

Lemma every_iteration_reports_witness :
  let h := repo_hparams in
  ∃ evs w',
    train (H := toy) h cuda_fabric toy_data toy_data "out" 8 toy_world = Ok tt w' ∧
    trace w' = trace toy_world ++ evs ∧
    List.filter is_batch_end evs
    = (λ i, TrainBatchEnd ((i + 1) * micro_batch_size h)) <$> range (max_iters h) ∧
    omap iter_line evs
    = (λ i, (i, ((i + 1) `div` gradient_accumulation_iters h)%Z, closes_group h i))
        <$> List.filter (logs_iteration h) (range (max_iters h)).
Proof.
  apply (every_iteration_reports (C := toy) repo_hparams cuda_fabric
           toy_randint_range 2 toy_forward_shape toy_data toy_data "out" 8 toy_world).
  - exact repo_schedule_ok.
  - exact (toy_data_fits false).
  - exact (toy_data_fits false).
  - reflexivity.
Defined.

Lemma zero_warmup_iters_witness :
  let h := no_warmup_hparams in
  ∃ val_inputs sample w',
    train (H := toy) h cuda_fabric toy_data toy_data "out" 8 toy_world
    = Raise ZeroDivisionError w' ∧
    trace w' = trace toy_world ++ validation_events (H := toy) val_inputs sample
               ++ flops_events (H := toy) h cuda_fabric ++ mark_events cuda_fabric.
Proof.
  apply (zero_warmup_iters_raises_before_training (C := toy) no_warmup_hparams
           cuda_fabric toy_randint_range 2 toy_forward_shape toy_data toy_data "out" 8
           toy_world).
  - reflexivity.
  - simpl. lia.
  - simpl. lia.
  - simpl. lia.
  - exact (toy_data_fits false).
Defined.

(** Iteration 1 closes the first group of two. *)
Lemma zero_eval_interval_witness :
  let h := no_eval_interval_hparams in
  ∃ evs w',
    trace w' = trace toy_world ++ evs ∧
    if closes_group h 1
    then train_step (H := toy) h cuda_fabric toy_data toy_data "out" 8 1 0 toy_world
         = Raise ZeroDivisionError w' ∧
         (∃ lr n, List.filter is_optimizer_step evs = [OptimizerStep lr n]) ∧
         grads w' = []
    else train_step (H := toy) h cuda_fabric toy_data toy_data "out" 8 1 0 toy_world
         = Ok 0%Z w' ∧
         List.filter is_optimizer_step evs = [].
Proof.
  apply (zero_eval_interval_raises_after_step (C := toy) no_eval_interval_hparams
           cuda_fabric toy_randint_range 2 toy_forward_shape toy_data toy_data "out" 8
           1 0 toy_world).
  - reflexivity.
  - simpl. lia.
  - simpl. lia.
  - simpl. lia.
  - discriminate.
  - exact (toy_data_fits false).
Defined.

Lemma train_needs_validation_data_witness :
  ∃ w',
    train (H := toy) repo_hparams cuda_fabric toy_data [] "out" 8 toy_world
    = Raise RuntimeError w' ∧
    trace w' = trace toy_world ++ [Printed ValidatingLine] ∧
    model_training w' = false ∧
    grad_enabled w' = grad_enabled toy_world ∧
    rng w' = rng toy_world.
Proof.
  apply (train_needs_validation_data (C := toy) repo_hparams cuda_fabric toy_data "out" 8
           toy_world).
  simpl. lia.
Defined.

(** The repository's configuration on one CUDA device. *)
Lemma setup_measures_flops_witness :
  let h := repo_hparams in
  ∃ evs w',
    setup (H := toy) h false cuda 0 toy_inputs "out" toy_world = Ok tt w' ∧
    trace w' = trace toy_world ++ evs ∧
    head evs = Some (Printed HparamsLine) ∧
    List.filter is_measure_flops evs
    = if bool_decide (1 < devices h)%Z && negb false then []
      else [MeasureFlops (Z.to_nat (micro_batch_size h) * Z.to_nat (@block_size toy))].
Proof.
  apply (setup_measures_flops_unless_sharded (C := toy) toy_randint_range 2
           toy_forward_shape repo_hparams false cuda 0 toy_inputs "out" toy_world).
  - exact repo_schedule_ok.
  - exact (toy_data_fits false).
  - exact (toy_data_fits false).
Defined.

(** The fifteen accumulating iterations of the repository's first group. *)
Lemma accumulation_keeps_parameters_witness :
  let h := repo_hparams in
  ∃ gs w',
    for_each (train_step (H := toy) h cuda_fabric toy_data toy_data "out" 8)
      (range 15) 0%Z toy_world = Ok 0%Z w' ∧
    model_state w' = model_state toy_world ∧
    grads w' = grads toy_world ++ gs ∧
    length gs = length (range 15) ∧
    Forall (λ g, g_divisor g = gradient_accumulation_iters h) gs.
Proof.
  apply (accumulation_keeps_parameters (C := toy) repo_hparams cuda_fabric
           toy_randint_range 2 toy_forward_shape toy_data toy_data "out" 8 (range 15) 0
           toy_world).
  - exact repo_schedule_ok.
  - exact (toy_data_fits false).
  - exact (toy_data_fits false).
  - repeat constructor.
Defined.

(** The repository's configuration: 390 periodic checkpoints and the final
    one. *)
Lemma periodic_checkpoint_count_witness :
  let h := repo_hparams in
  ∃ evs w',
    main (H := toy) h cuda_fabric toy_inputs "out" toy_world = Ok tt w' ∧
    trace w' = trace toy_world ++ evs ∧
    length (List.filter is_saved evs)
    = Z.to_nat ((max_iters h `div` gradient_accumulation_iters h) `div` save_interval h)
      + 1.
Proof.
  apply (periodic_checkpoint_count (C := toy) repo_hparams cuda_fabric
           toy_randint_range 2 toy_forward_shape toy_inputs "out" toy_world).
  - exact repo_schedule_ok.
  - exact (toy_data_fits false).
  - exact (toy_data_fits false).
  - simpl. lia.
  - simpl. lia.
Defined.

Lemma train_calls_in_order_witness :
  let h := repo_hparams in
  ∃ val_inputs sample ds w',
    train (H := toy) h cuda_fabric toy_data toy_data "out" 8 toy_world = Ok tt w' ∧
    length val_inputs = Z.to_nat (eval_iters h) ∧
    length ds = Z.to_nat (max_iters h) ∧
    Forall (λ d, length (it_val_inputs d) = Z.to_nat (eval_iters h)) ds ∧
    trace w' = trace toy_world
               ++ train_events (H := toy) h cuda_fabric "out" (grad_enabled toy_world)
                    val_inputs sample ds ∧
    grad_enabled w' = grad_enabled toy_world.
Proof.
  apply (train_calls_in_order (C := toy) repo_hparams cuda_fabric
           toy_randint_range 2 toy_forward_shape toy_data toy_data "out" 8 toy_world).
  - exact repo_schedule_ok.
  - exact (toy_data_fits false).
  - exact (toy_data_fits false).
  - reflexivity.
Defined.
